(** * micropayment_core.scripts: deposit and commit scripts of a payment channel

    A shallow embedding of [micropayment_core/scripts.py].  Scripts are byte
    strings ([list byte]), hex strings are [string]s, Python integers are [Z],
    and a function that can raise returns a [result]. *)

From Stdlib Require Import String Ascii ZArith NArith Lia Bool Arith List.
From Stdlib Require Import Strings.Byte Numbers.DecimalString.
Import ListNotations.

Open Scope string_scope.
Open Scope list_scope.
Open Scope Z_scope.

Infix "+++" := String.append (at level 60, right associativity).

(** ** Exceptions and results *)

Inductive exception : Type :=
| InvalidScript (x : string)
| InvalidPayerSignature (reason : string)
| InvalidSequenceValue (x : string)
| BadSignature
| ValueError (index : nat)          (* [raise ValueError(index)] of [get_word] *)
| AssertionError
| TypeError                         (* an operation applied to [None] *)
| AttributeError                    (* a method looked up on [None] *)
| UnboundLocalError
| MalformedScript                   (* the decoder met a push cut short *)
| HexError                          (* [h2b] on a string that is not hex *)
| SyntaxError (t : string)          (* the assembler met an unknown token *)
| UnexpectedDER
| ExternalError (name : string)     (* raised by a collaborator *)
| OutOfFuel.                        (* artefact of the loops' fuel, never produced *)

Inductive result (A : Type) : Type :=
| Ok (a : A)
| Raise (e : exception).
Arguments Ok {A} a.
Arguments Raise {A} e.

Definition bind {A B} (m : result A) (f : A -> result B) : result B :=
  match m with
  | Ok a => f a
  | Raise e => Raise e
  end.

Notation "x <- m ;; k" := (bind m (fun x => k))
  (at level 61, m at next level, right associativity).
Notation "' p <- m ;; k" := (bind m (fun x => match x with p => k end))
  (at level 61, p pattern, m at next level, right associativity).

(** ** Bytes and hex strings (pycoin.serialize.b2h / h2b) *)

Definition bytes := list byte.

Definition byte_to_Z (b : byte) : Z := Z.of_N (Byte.to_N b).

Definition byte_of_Z (z : Z) : byte :=
  match Byte.of_N (Z.to_N (z mod 256)) with
  | Some b => b
  | None => x00
  end.

Definition hex_digit (n : Z) : ascii :=
  nth (Z.to_nat n) (list_ascii_of_string "0123456789abcdef") "0"%char.

Definition hex_value (c : ascii) : option Z :=
  let n := Z.of_N (N_of_ascii c) in
  if (48 <=? n) && (n <=? 57) then Some (n - 48)
  else if (97 <=? n) && (n <=? 102) then Some (n - 87)
  else if (65 <=? n) && (n <=? 70) then Some (n - 55)
  else None.

(** [b2h]: lower-case hex of a byte string. *)
Fixpoint b2h (bs : bytes) : string :=
  match bs with
  | [] => ""
  | b :: bs' =>
      String (hex_digit (byte_to_Z b / 16))
        (String (hex_digit (byte_to_Z b mod 16)) (b2h bs'))
  end.

(** [binascii.unhexlify]: [None] on an odd length or a non-hex character. *)
Fixpoint unhexlify (s : string) : option bytes :=
  match s with
  | EmptyString => Some []
  | String c1 (String c2 s') =>
      match hex_value c1, hex_value c2, unhexlify s' with
      | Some h, Some l, Some bs => Some (byte_of_Z (16 * h + l) :: bs)
      | _, _, _ => None
      end
  | String _ EmptyString => None
  end.

Definition h2b (s : string) : result bytes :=
  match unhexlify s with
  | Some bs => Ok bs
  | None => Raise HexError
  end.

(** [b2h(data)] where [data] comes out of the decoder and may be [None]:
    [binascii.hexlify(None)] is a [TypeError]. *)
Definition b2h_data (data : option bytes) : result string :=
  match data with
  | Some bs => Ok (b2h bs)
  | None => Raise TypeError
  end.

(** ** The opcode table (pycoin.tx.script.opcodes) *)

(** Modelled from the spec: pycoin's opcode table is not under src/; section 9
    asks for the standard Bitcoin opcode table verbatim.  As in the library,
    the codes 177 and 178 carry two names each, OP_NOP2 and OP_NOP3 of the
    templates and the names of the checks they became. *)
Definition OPCODE_LIST : list (string * Z) :=
  [ ("OP_0", 0); ("OP_PUSHDATA1", 76); ("OP_PUSHDATA2", 77);
    ("OP_PUSHDATA4", 78); ("OP_1NEGATE", 79); ("OP_RESERVED", 80);
    ("OP_1", 81); ("OP_2", 82); ("OP_3", 83); ("OP_4", 84); ("OP_5", 85);
    ("OP_6", 86); ("OP_7", 87); ("OP_8", 88); ("OP_9", 89); ("OP_10", 90);
    ("OP_11", 91); ("OP_12", 92); ("OP_13", 93); ("OP_14", 94);
    ("OP_15", 95); ("OP_16", 96); ("OP_NOP", 97); ("OP_VER", 98);
    ("OP_IF", 99); ("OP_NOTIF", 100); ("OP_VERIF", 101);
    ("OP_VERNOTIF", 102); ("OP_ELSE", 103); ("OP_ENDIF", 104);
    ("OP_VERIFY", 105); ("OP_RETURN", 106); ("OP_TOALTSTACK", 107);
    ("OP_FROMALTSTACK", 108); ("OP_2DROP", 109); ("OP_2DUP", 110);
    ("OP_3DUP", 111); ("OP_2OVER", 112); ("OP_2ROT", 113);
    ("OP_2SWAP", 114); ("OP_IFDUP", 115); ("OP_DEPTH", 116);
    ("OP_DROP", 117); ("OP_DUP", 118); ("OP_NIP", 119); ("OP_OVER", 120);
    ("OP_PICK", 121); ("OP_ROLL", 122); ("OP_ROT", 123); ("OP_SWAP", 124);
    ("OP_TUCK", 125); ("OP_CAT", 126); ("OP_SUBSTR", 127);
    ("OP_LEFT", 128); ("OP_RIGHT", 129); ("OP_SIZE", 130);
    ("OP_INVERT", 131); ("OP_AND", 132); ("OP_OR", 133); ("OP_XOR", 134);
    ("OP_EQUAL", 135); ("OP_EQUALVERIFY", 136); ("OP_RESERVED1", 137);
    ("OP_RESERVED2", 138); ("OP_1ADD", 139); ("OP_1SUB", 140);
    ("OP_2MUL", 141); ("OP_2DIV", 142); ("OP_NEGATE", 143);
    ("OP_ABS", 144); ("OP_NOT", 145); ("OP_0NOTEQUAL", 146);
    ("OP_ADD", 147); ("OP_SUB", 148); ("OP_MUL", 149); ("OP_DIV", 150);
    ("OP_MOD", 151); ("OP_LSHIFT", 152); ("OP_RSHIFT", 153);
    ("OP_BOOLAND", 154); ("OP_BOOLOR", 155); ("OP_NUMEQUAL", 156);
    ("OP_NUMEQUALVERIFY", 157); ("OP_NUMNOTEQUAL", 158);
    ("OP_LESSTHAN", 159); ("OP_GREATERTHAN", 160);
    ("OP_LESSTHANOREQUAL", 161); ("OP_GREATERTHANOREQUAL", 162);
    ("OP_MIN", 163); ("OP_MAX", 164); ("OP_WITHIN", 165);
    ("OP_RIPEMD160", 166); ("OP_SHA1", 167); ("OP_SHA256", 168);
    ("OP_HASH160", 169); ("OP_HASH256", 170); ("OP_CODESEPARATOR", 171);
    ("OP_CHECKSIG", 172); ("OP_CHECKSIGVERIFY", 173);
    ("OP_CHECKMULTISIG", 174); ("OP_CHECKMULTISIGVERIFY", 175);
    ("OP_NOP1", 176); ("OP_NOP2", 177); ("OP_CHECKLOCKTIMEVERIFY", 177);
    ("OP_NOP3", 178); ("OP_CHECKSEQUENCEVERIFY", 178); ("OP_NOP4", 179);
    ("OP_NOP5", 180); ("OP_NOP6", 181); ("OP_NOP7", 182); ("OP_NOP8", 183);
    ("OP_NOP9", 184); ("OP_NOP10", 185); ("OP_NULLDATA", 252);
    ("OP_PUBKEYHASH", 253); ("OP_PUBKEY", 254); ("OP_INVALIDOPCODE", 255) ].

Fixpoint assoc_name (tbl : list (string * Z)) (name : string) : option Z :=
  match tbl with
  | [] => None
  | (n, v) :: tbl' => if String.eqb n name then Some v else assoc_name tbl' name
  end.

Fixpoint assoc_code (tbl : list (string * Z)) (code : Z) : option string :=
  match tbl with
  | [] => None
  | (n, v) :: tbl' => if v =? code then Some n else assoc_code tbl' code
  end.

(** [OPCODE_TO_INT = dict(o for o in OPCODE_LIST)] and
    [INT_TO_OPCODE = dict(reversed(i) for i in OPCODE_LIST)]: of two names of
    one code, the later entry is the name the code is given. *)
Definition OPCODE_TO_INT (name : string) : option Z := assoc_name OPCODE_LIST name.
Definition INT_TO_OPCODE (code : Z) : option string :=
  assoc_code (rev OPCODE_LIST) code.

Definition OP_0 : Z := 0.
Definition OP_PUSHDATA1 : Z := 76.
Definition OP_PUSHDATA2 : Z := 77.
Definition OP_PUSHDATA4 : Z := 78.
Definition OP_1 : Z := 81.

Definition MAX_SEQUENCE : Z := 0x0000FFFF.

(** ** pycoin.tx.script.tools *)

Module tools.

(** *** Decoding one word ([get_opcode]) *)

(** Little-endian value of a byte string: a length prefix, or the integer
    of the bytes of a push. *)
Fixpoint le_value (bs : bytes) : Z :=
  match bs with
  | [] => 0
  | b :: bs' => byte_to_Z b + 256 * le_value bs'
  end.

(** Modelled from the spec: pycoin's [tools.get_opcode] is not under src/.
    Section 3: opcodes 1..75 push that many immediate bytes, 76/77/78 push a
    length-prefixed blob, others take no immediate data; section 4.1:
    [decode_word(bytes, offset)] returns (opcode, data or none, next offset)
    and fails with MalformedScript on truncation.  [OP_0] is the push of the
    empty byte string.

    As in the library, the function works on slices.  The opcode is
    [ord(script[pc:pc+1])], a [TypeError] on the empty slice.  The length
    prefix is the little-endian integer of the slice [script[pc:pc+n]], of
    however many bytes are left (0 when none is), and [pc] moves on by the
    full [n].  The data is the slice [script[pc:pc+size]]; the error is
    raised when it is shorter than [size].  So a push whose data is cut short
    by the end of the script raises, while [OP_PUSHDATA1/2/4] without the
    bytes of its length prefix is returned as a push of the empty string,
    with the next offset past the end of the script. *)
Definition get_opcode (script : bytes) (pc : nat)
  : result (Z * option bytes * nat) :=
  match nth_error script pc with
  | None => Raise TypeError
  | Some b =>
      let opcode := byte_to_Z b in
      let pc := S pc in
      if opcode <=? OP_PUSHDATA4 then
        let prefix_len :=
          if opcode <? OP_PUSHDATA1 then 0%nat
          else if opcode =? OP_PUSHDATA1 then 1%nat
          else if opcode =? OP_PUSHDATA2 then 2%nat
          else 4%nat in
        let size :=
          if opcode <? OP_PUSHDATA1 then Z.to_nat opcode
          else Z.to_nat (le_value (firstn prefix_len (skipn pc script))) in
        let pc := (pc + prefix_len)%nat in
        let data := firstn size (skipn pc script) in
        if (length data <? size)%nat then Raise MalformedScript
        else Ok (opcode, Some data, (pc + size)%nat)
      else Ok (opcode, None, pc)
  end.

(** Modelled from the spec: pycoin's [tools.disassemble_for_opcode_data] is
    not under src/; the disassembly of a word is the bracketed hex of its
    data when it pushes some, the opcode's name otherwise. *)
Definition disassemble_for_opcode_data (opcode : Z) (data : option bytes) : string :=
  match data with
  | Some (b :: bs) => "[" +++ b2h (b :: bs) +++ "]"
  | _ => match INT_TO_OPCODE opcode with
         | Some name => name
         | None => "???"
         end
  end.

(** *** Script numbers ([int_from_script_bytes], [int_to_script_bytes]) *)

(** Magnitude of the bytes read most-significant first, after the first:
    the loop [for b in s[1:]: v <<= 8; v += b] of [int_from_script_bytes]. *)
Fixpoint shift_in (v : Z) (bs : bytes) : Z :=
  match bs with
  | [] => v
  | b :: bs' => shift_in (Z.shiftl v 8 + byte_to_Z b) bs'
  end.

(** Modelled from the spec: pycoin's [tools.int_from_script_bytes] is not
    under src/; the little-endian integer of the immediate bytes of section 3,
    in Bitcoin's script-number form where the top bit of the last byte is the
    sign. *)
Definition int_from_script_bytes (s : bytes) : Z :=
  match rev s with
  | [] => 0
  | i :: rest =>
      let v := shift_in (Z.land (byte_to_Z i) 0x7f) rest in
      if 0 <? Z.land (byte_to_Z i) 0x80 then - v else v
  end.

(** The bytes of a non-negative [v], least significant first: the loop
    [while v >= 256: l.append(v & 0xff); v >>= 8] and the final append. *)
Fixpoint le_bytes (fuel : nat) (v : Z) : list Z :=
  match fuel with
  | O => [Z.land v 0xff]
  | S fuel' =>
      if 256 <=? v then Z.land v 0xff :: le_bytes fuel' (Z.shiftr v 8)
      else [Z.land v 0xff]
  end.

Definition set_last (l : list Z) (f : Z -> Z) : list Z :=
  match rev l with
  | [] => []
  | x :: r => rev (f x :: r)
  end.

(** Modelled from the spec: pycoin's [tools.int_to_script_bytes] is not under
    src/; the inverse of [int_from_script_bytes], the minimal script-number
    encoding the assembler gives an integer token. *)
Definition int_to_script_bytes (v : Z) : bytes :=
  if v =? 0 then []
  else
    let is_negative := v <? 0 in
    let v := Z.abs v in
    let l := le_bytes (Z.to_nat (Z.log2 v)) v in
    let l :=
      if 128 <=? last l 0 then l ++ [if is_negative then 0x80 else 0]
      else if is_negative then set_last l (fun x => Z.lor x 0x80)
      else l in
    map byte_of_Z l.

(** *** The assembler ([compile]) *)

(** [str.split()] with no argument: maximal runs of non-whitespace. *)
Definition is_space (c : ascii) : bool :=
  let n := Z.of_N (N_of_ascii c) in
  ((9 <=? n) && (n <=? 13)) || ((28 <=? n) && (n <=? 32)).

Definition flush (cur : string) : list string :=
  match cur with
  | EmptyString => []
  | _ => [cur]
  end.

Fixpoint split_aux (s : string) (cur : string) : list string :=
  match s with
  | EmptyString => flush cur
  | String c s' =>
      if is_space c then flush cur ++ split_aux s' ""
      else split_aux s' (cur +++ String c "")
  end.

Definition split (s : string) : list string := split_aux s "".

(** [int(t)] on a token: an optional sign, then decimal digits, between
    which single underscores may stand. *)
Definition digit_value (c : ascii) : option Z :=
  let n := Z.of_N (N_of_ascii c) in
  if (48 <=? n) && (n <=? 57) then Some (n - 48) else None.

Definition is_digit (c : ascii) : bool :=
  match digit_value c with
  | Some _ => true
  | None => false
  end.

Fixpoint parse_digits (s : string) (acc : Z) : option Z :=
  match s with
  | EmptyString => Some acc
  | String c s' =>
      match digit_value c with
      | Some d => parse_digits s' (10 * acc + d)
      | None =>
          if Ascii.eqb c "_" then
            match s' with
            | String c' _ => if is_digit c' then parse_digits s' acc else None
            | EmptyString => None
            end
          else None
      end
  end.

(** The digits of a number start with a digit. *)
Definition parse_number (s : string) : option Z :=
  match s with
  | String c _ => if is_digit c then parse_digits s 0 else None
  | EmptyString => None
  end.

Definition py_int (t : string) : option Z :=
  match t with
  | EmptyString => None
  | String c s =>
      if Ascii.eqb c "-" then option_map Z.opp (parse_number s)
      else if Ascii.eqb c "+" then parse_number s
      else parse_number t
  end.

Definition first_char (t : string) : option ascii :=
  match t with
  | EmptyString => None
  | String c _ => Some c
  end.

Fixpoint last_char (t : string) : option ascii :=
  match t with
  | EmptyString => None
  | String c EmptyString => Some c
  | String _ t' => last_char t'
  end.

Definition is_char (c : ascii) (o : option ascii) : bool :=
  match o with
  | Some c' => Ascii.eqb c c'
  | None => false
  end.

(** [t[1:-1]] *)
Definition strip_ends (t : string) : string :=
  substring 1 (String.length t - 2) t.

Definition chars_as_bytes (s : string) : bytes :=
  map byte_of_ascii (list_ascii_of_string s).

(** Modelled from the spec: pycoin's [tools.compile_expression] is not under
    src/; a token that is not an opcode name is a bracketed or plain hex
    literal, a quoted text, or a decimal integer in script-number form. *)
Definition compile_expression (t : string) : result bytes :=
  if is_char "[" (first_char t) && is_char "]" (last_char t) then
    h2b (strip_ends t)
  else if is_char "'" (first_char t) && is_char "'" (last_char t) then
    Ok (chars_as_bytes (strip_ends t))
  else
    let as_int :=
      match py_int t with
      | Some t0 =>
          if (Z.abs t0 <=? 0xffffffffffffffff) && negb (is_char "0" (first_char t))
          then Some (int_to_script_bytes t0) else None
      | None => None
      end in
    match as_int with
    | Some v => Ok v
    | None =>
        match unhexlify t with
        | Some v => Ok v
        | None => Raise (SyntaxError t)
        end
    end.

Definition le_prefix (n : nat) (width : nat) : bytes :=
  map (fun i => byte_of_Z (Z.of_nat n / 256 ^ Z.of_nat i)) (seq 0 width).

(** Modelled from the spec: pycoin's [tools.write_push_data] is not under
    src/; section 4.1: minimal push encoding, a push of at most 75 bytes uses
    opcode = length, integers 1..16 use OP_N, zero (the empty push, and the
    single byte 00) uses OP_0. *)
Definition write_push_data (t : bytes) : bytes :=
  match t with
  | [] => [byte_of_Z OP_0]
  | _ =>
      let short :=
        match t with
        | [b] =>
            if byte_to_Z b =? 0 then Some [byte_of_Z OP_0]
            else if byte_to_Z b <=? 16 then Some [byte_of_Z (OP_1 - 1 + byte_to_Z b)]
            else None
        | _ => None
        end in
      match short with
      | Some w => w
      | None =>
          if Z.of_nat (length t) <=? 255 then
            (if 75 <? Z.of_nat (length t) then [byte_of_Z OP_PUSHDATA1] else [])
              ++ le_prefix (length t) 1 ++ t
          else if Z.of_nat (length t) <=? 65535 then
            byte_of_Z OP_PUSHDATA2 :: le_prefix (length t) 2 ++ t
          else
            byte_of_Z OP_PUSHDATA4 :: le_prefix (length t) 4 ++ t
      end
  end.

Definition compile_token (t : string) : result bytes :=
  match OPCODE_TO_INT t with
  | Some op => Ok [byte_of_Z op]
  | None =>
      match OPCODE_TO_INT ("OP_" +++ t) with
      | Some op => Ok [byte_of_Z op]
      | None =>
          if String.prefix "0x" t then h2b (substring 2 (String.length t - 2) t)
          else v <- compile_expression t ;; Ok (write_push_data v)
      end
  end.

Fixpoint compile_tokens (ts : list string) : result bytes :=
  match ts with
  | [] => Ok []
  | t :: ts' =>
      b <- compile_token t ;;
      bs <- compile_tokens ts' ;;
      Ok (b ++ bs)
  end.

(** Modelled from the spec: pycoin's [tools.compile] is not under src/;
    section 4.1: [compile_asm] parses a sequence of tokens (hex literals
    and opcode names) into bytecode using minimal push encoding. *)
Definition compile (s : string) : result bytes := compile_tokens (split s).

End tools.

(** ** Script templates *)

(** A [str.format] template: literal text and named replacement fields. *)
Inductive piece : Type :=
| Lit (s : string)
| Field (name : string).

Fixpoint assoc_str (kw : list (string * string)) (name : string) : option string :=
  match kw with
  | [] => None
  | (n, v) :: kw' => if String.eqb n name then Some v else assoc_str kw' name
  end.

Fixpoint format (tpl : list piece) (kw : list (string * string)) : result string :=
  match tpl with
  | [] => Ok ""
  | Lit s :: tpl' => r <- format tpl' kw ;; Ok (s +++ r)
  | Field name :: tpl' =>
      match assoc_str kw name with
      | Some v => r <- format tpl' kw ;; Ok (v +++ r)
      | None => Raise (ExternalError "KeyError")
      end
  end.

Definition DEPOSIT_SCRIPT : list piece :=
  [ Lit "
    OP_IF
        2 "; Field "payer_pubkey"; Lit " "; Field "payee_pubkey";
    Lit " 2 OP_CHECKMULTISIG
    OP_ELSE
        OP_IF
            OP_HASH160 "; Field "spend_secret_hash"; Lit " OP_EQUALVERIFY
            "; Field "payer_pubkey"; Lit " OP_CHECKSIG
        OP_ELSE
            "; Field "expire_time"; Lit " OP_NOP3 OP_DROP
            "; Field "payer_pubkey"; Lit " OP_CHECKSIG
        OP_ENDIF
    OP_ENDIF
" ].

Definition COMMIT_SCRIPT : list piece :=
  [ Lit "
    OP_IF
        "; Field "delay_time"; Lit " OP_NOP3 OP_DROP
        OP_HASH160 "; Field "spend_secret_hash"; Lit " OP_EQUALVERIFY
        "; Field "payee_pubkey"; Lit " OP_CHECKSIG
    OP_ELSE
        OP_HASH160 "; Field "revoke_secret_hash"; Lit " OP_EQUALVERIFY
        "; Field "payer_pubkey"; Lit " OP_CHECKSIG
    OP_ENDIF
" ].

Definition EXPIRE_SCRIPTSIG : list piece := [ Field "sig"; Lit " OP_0 OP_0" ].
Definition CHANGE_SCRIPTSIG : list piece :=
  [ Field "sig"; Lit " "; Field "secret"; Lit " OP_1 OP_0" ].
Definition COMMIT_SCRIPTSIG : list piece :=
  [ Lit "OP_0 "; Field "payer_sig"; Lit " "; Field "payee_sig"; Lit " OP_1" ].
Definition PAYOUT_SCRIPTSIG : list piece :=
  [ Field "sig"; Lit " "; Field "spend_secret"; Lit " OP_1" ].
Definition REVOKE_SCRIPTSIG : list piece :=
  [ Field "sig"; Lit " "; Field "revoke_secret"; Lit " OP_0" ].

(** The template ["{0} {1}"] of the scriptSig compilers. *)
Definition JOIN_TEMPLATE : list piece := [ Field "0"; Lit " "; Field "1" ].

(** A time argument is an [int], or the placeholder text the validators
    pass; [str()] of it goes into the template. *)
Inductive time_arg : Type :=
| IntArg (z : Z)
| StrArg (s : string).

Definition str_of_Z (z : Z) : string := NilZero.string_of_int (Z.to_int z).

Definition str (t : time_arg) : string :=
  match t with
  | IntArg z => str_of_Z z
  | StrArg s => s
  end.

(** ** Compiling the two scripts *)

Definition compile_deposit_script (payer_pubkey payee_pubkey spend_secret_hash : string)
    (expire_time : time_arg) : result string :=
  script_asm <- format DEPOSIT_SCRIPT
    [ ("payer_pubkey", payer_pubkey); ("payee_pubkey", payee_pubkey);
      ("spend_secret_hash", spend_secret_hash);
      ("expire_time", str expire_time) ] ;;
  bin <- tools.compile script_asm ;;
  Ok (b2h bin).

Definition compile_commit_script
    (payer_pubkey payee_pubkey spend_secret_hash revoke_secret_hash : string)
    (delay_time : time_arg) : result string :=
  script_asm <- format COMMIT_SCRIPT
    [ ("payer_pubkey", payer_pubkey); ("payee_pubkey", payee_pubkey);
      ("spend_secret_hash", spend_secret_hash);
      ("revoke_secret_hash", revoke_secret_hash);
      ("delay_time", str delay_time) ] ;;
  bin <- tools.compile script_asm ;;
  Ok (b2h bin).

(** ** Words of a script *)

Definition _parse_sequence_value (opcode : Z) (data : option bytes)
    (disassembled : string) : result Z :=
  value <-
    (if opcode =? 0 then Ok (Some 0)
     else if (0 <? opcode) && (opcode <? 76) then
       match data with
       | Some d => Ok (Some (tools.int_from_script_bytes d))
       | None => Raise TypeError
       end
     else if (80 <? opcode) && (opcode <? 97) then Ok (Some (opcode - 80))
     else Ok None) ;;
  match value with
  | None => Raise TypeError
  | Some value =>
      if negb ((MAX_SEQUENCE >=? value) && (value >=? 0))
      then Raise (InvalidSequenceValue disassembled)
      else Ok value
  end.

(** The [while] loop of [get_word]; [last] holds the loop's [opcode, data]. *)
Fixpoint get_word_loop (fuel : nat) (script_bin : bytes) (index : nat)
    (pc i : nat) (last : option (Z * option bytes))
  : result (nat * option (Z * option bytes)) :=
  if (pc <? length script_bin)%nat && (i <=? index)%nat then
    match fuel with
    | O => Raise OutOfFuel
    | S fuel' =>
        '(opcode, data, pc') <- tools.get_opcode script_bin pc ;;
        get_word_loop fuel' script_bin index pc' (S i) (Some (opcode, data))
    end
  else Ok (i, last).

Definition get_word (script_bin : bytes) (index : nat)
  : result (Z * option bytes * string) :=
  '(i, last) <- get_word_loop (length script_bin) script_bin index 0 0 None ;;
  if negb (i =? index + 1)%nat then Raise (ValueError index)
  else
    match last with
    | Some (opcode, data) =>
        Ok (opcode, data, tools.disassemble_for_opcode_data opcode data)
    | None => Raise UnboundLocalError
    end.

(** ** Validation against a reference script *)

Definition data_eqb (a b : option bytes) : bool :=
  match a, b with
  | Some x, Some y => if list_eq_dec Byte.byte_eq_dec x y then true else false
  | None, None => true
  | _, _ => false
  end.

(** [r_data is not None and b2h(r_data) == "deadbeef"] *)
Definition is_placeholder (r_data : option bytes) : bool :=
  match r_data with
  | Some d => String.eqb (b2h d) "deadbeef"
  | None => false
  end.

Fixpoint _validate_loop (fuel : nat) (ref_script_bin untrusted_script_bin : bytes)
    (r_pc u_pc : nat) : result (nat * nat) :=
  if (r_pc <? length ref_script_bin)%nat
     && (u_pc <? length untrusted_script_bin)%nat then
    match fuel with
    | O => Raise OutOfFuel
    | S fuel' =>
        '(r_opcode, r_data, r_pc') <- tools.get_opcode ref_script_bin r_pc ;;
        '(u_opcode, u_data, u_pc') <- tools.get_opcode untrusted_script_bin u_pc ;;
        if is_placeholder r_data then
          _validate_loop fuel' ref_script_bin untrusted_script_bin r_pc' u_pc'
        else if negb (r_opcode =? u_opcode) || negb (data_eqb r_data u_data) then
          Raise (InvalidScript (b2h untrusted_script_bin))
        else
          _validate_loop fuel' ref_script_bin untrusted_script_bin r_pc' u_pc'
    end
  else Ok (r_pc, u_pc).

Definition _validate (reference_script_hex untrusted_script_hex : string)
  : result unit :=
  ref_script_bin <- h2b reference_script_hex ;;
  untrusted_script_bin <- h2b untrusted_script_hex ;;
  '(r_pc, u_pc) <- _validate_loop (length ref_script_bin)
                     ref_script_bin untrusted_script_bin 0 0 ;;
  if negb (r_pc =? length ref_script_bin)%nat
     || negb (u_pc =? length untrusted_script_bin)%nat
  then Raise (InvalidScript (b2h untrusted_script_bin))
  else Ok tt.

(** ** Validators and field accessors *)

(** [validate_deposit_script(script_hex, validate_expire_time=False)]: the
    form in which [get_deposit_expire_time] calls the validator. *)
Definition validate_deposit_script_shape (deposit_script_hex : string) : result unit :=
  reference_script_hex <-
    compile_deposit_script "deadbeef" "deadbeef" "deadbeef" (StrArg "deadbeef") ;;
  _validate reference_script_hex deposit_script_hex.

Definition get_deposit_expire_time (script_hex : string) : result Z :=
  _ <- validate_deposit_script_shape script_hex ;;
  script_bin <- h2b script_hex ;;
  '(opcode, data, disassembled) <- get_word script_bin 14 ;;
  _parse_sequence_value opcode data disassembled.

Definition validate_deposit_script (deposit_script_hex : string)
    (validate_expire_time : bool) : result unit :=
  reference_script_hex <-
    compile_deposit_script "deadbeef" "deadbeef" "deadbeef" (StrArg "deadbeef") ;;
  _ <- _validate reference_script_hex deposit_script_hex ;;
  if validate_expire_time then
    _ <- get_deposit_expire_time deposit_script_hex ;; Ok tt
  else Ok tt.

(** [validate_commit_script(script_hex, validate_delay_time=False)] *)
Definition validate_commit_script_shape (commit_script_hex : string) : result unit :=
  reference_script_hex <-
    compile_commit_script "deadbeef" "deadbeef" "deadbeef" "deadbeef"
      (StrArg "deadbeef") ;;
  _validate reference_script_hex commit_script_hex.

Definition get_commit_delay_time (script_hex : string) : result Z :=
  _ <- validate_commit_script_shape script_hex ;;
  script_bin <- h2b script_hex ;;
  '(opcode, data, disassembled) <- get_word script_bin 1 ;;
  _parse_sequence_value opcode data disassembled.

Definition validate_commit_script (commit_script_hex : string)
    (validate_delay_time : bool) : result unit :=
  reference_script_hex <-
    compile_commit_script "deadbeef" "deadbeef" "deadbeef" "deadbeef"
      (StrArg "deadbeef") ;;
  _ <- _validate reference_script_hex commit_script_hex ;;
  if validate_delay_time then
    _ <- get_commit_delay_time commit_script_hex ;; Ok tt
  else Ok tt.

(** The body shared by the accessors that return a pushed field:
    [opcode, data, disassembled = get_word(h2b(script_hex), index)] and
    [return b2h(data)]. *)
Definition word_data_hex (script_hex : string) (index : nat) : result string :=
  script_bin <- h2b script_hex ;;
  '(opcode, data, disassembled) <- get_word script_bin index ;;
  b2h_data data.

Definition get_commit_payer_pubkey (script_hex : string) : result string :=
  _ <- validate_commit_script script_hex true ;;
  word_data_hex script_hex 13.

Definition get_commit_payee_pubkey (script_hex : string) : result string :=
  _ <- validate_commit_script script_hex true ;;
  word_data_hex script_hex 7.

Definition get_commit_spend_secret_hash (script_hex : string) : result string :=
  _ <- validate_commit_script script_hex true ;;
  word_data_hex script_hex 5.

Definition get_commit_revoke_secret_hash (script_hex : string) : result string :=
  _ <- validate_commit_script script_hex true ;;
  word_data_hex script_hex 11.

Definition get_deposit_payer_pubkey (script_hex : string) : result string :=
  _ <- validate_deposit_script script_hex true ;;
  word_data_hex script_hex 2.

Definition get_deposit_payee_pubkey (script_hex : string) : result string :=
  _ <- validate_deposit_script script_hex true ;;
  word_data_hex script_hex 3.

Definition get_deposit_spend_secret_hash (script_hex : string) : result string :=
  _ <- validate_deposit_script script_hex true ;;
  word_data_hex script_hex 9.

(** ** ScriptSig templates *)

Definition _compile_payout_scriptsig (sig spend_secret commit_script_hex : string)
  : result string :=
  _ <- validate_commit_script commit_script_hex true ;;
  sig_asm <- format PAYOUT_SCRIPTSIG [ ("sig", sig); ("spend_secret", spend_secret) ] ;;
  asm <- format JOIN_TEMPLATE [ ("0", sig_asm); ("1", commit_script_hex) ] ;;
  bin <- tools.compile asm ;;
  Ok (b2h bin).

Definition _compile_commit_scriptsig (payer_sig payee_sig deposit_script_hex : string)
  : result string :=
  _ <- validate_deposit_script deposit_script_hex true ;;
  sig_asm <- format COMMIT_SCRIPTSIG [ ("payer_sig", payer_sig); ("payee_sig", payee_sig) ] ;;
  asm <- format JOIN_TEMPLATE [ ("0", sig_asm); ("1", deposit_script_hex) ] ;;
  bin <- tools.compile asm ;;
  Ok (b2h bin).

Definition _validate_payout_scriptsig (payout_script_hex commit_script_hex : string)
  : result unit :=
  reference_script_hex <-
    _compile_payout_scriptsig "deadbeef" "deadbeef" commit_script_hex ;;
  _validate reference_script_hex payout_script_hex.

(** ** Transactions and the collaborators of the signer *)

Record TxIn : Type := { script : bytes }.
Record Tx : Type := { txs_in : list TxIn }.

Definition hash160_lookup_t : Type := bytes -> option (Z * (Z * Z) * bool).
Definition p2sh_lookup_t : Type := bytes -> option bytes.

(** The matcher classes the host signer tries, first to last ([SUBCLASSES]). *)
Inductive script_class : Type :=
| HostScript (name : string)
| DepositScript (TEMPLATE : bytes)
| CommitScript (TEMPLATE : bytes).

(** Keyword arguments of [tx.sign] that this module sets. *)
Record sign_kwargs : Type := {
  kw_spend_type : option string;
  kw_spend_secret : option string;
  kw_revoke_secret : option string
}.

(** Keyword arguments a [solve] method receives from the host signer. *)
Record solve_kwargs : Type := {
  hash160_lookup : hash160_lookup_t;
  signature_type : Z;
  existing_script : bytes;
  signature_for_hash_type_f : Z -> bytes -> Z;
  script_to_hash : bytes;
  spend_type : string;
  spend_secret : option string;
  revoke_secret : option string;
  signature_placeholder : option bytes
}.

(** Modelled from the spec: pycoin's transaction, key, hash and ECDSA code and
    this repository's [util.load_tx] are not under src/; section 1 and
    section 6 take them as collaborators (TxLoader, KeyStore, SighashFn, the
    generic transaction signer), so they are the fields of an interface.
    [tx_sign] receives the matcher registry and returns it with the signed
    transaction or the error it raised. *)
Class Host : Type := {
  Tx_from_hex : string -> result Tx;
  load_tx : (list string -> list string) -> string -> result Tx;
  key_secret_exponent : string -> result Z;
  build_hash160_lookup : list Z -> hash160_lookup_t;
  build_p2sh_lookup : list bytes -> p2sh_lookup_t;
  tx_sign : Tx -> hash160_lookup_t -> option p2sh_lookup_t -> sign_kwargs ->
            list script_class -> list script_class * result Tx;
  bad_signature_count : Tx -> Z;
  as_hex : Tx -> string;
  hash160 : bytes -> bytes;
  parse_signature_blob : bytes -> result ((Z * Z) * Z);
  sec_to_public_pair : bytes -> result (Z * Z);
  ecdsa_verify : Z * Z -> Z -> Z * Z -> bool;
  create_script_signature : Z -> (Z -> bytes -> Z) -> Z -> bytes -> result bytes;
  DEFAULT_PLACEHOLDER_SIGNATURE : bytes
}.

(** ** Reading the spend secret of a payout *)

Definition get_spend_secret `{Host} (payout_rawtx commit_script_hex : string)
  : result (option string) :=
  _ <- validate_commit_script commit_script_hex true ;;
  tx <- Tx_from_hex payout_rawtx ;;
  match nth_error (txs_in tx) 0 with
  | None => Raise (ExternalError "IndexError")
  | Some tx_in =>
      let spend_script_bin := script tx_in in
      match _validate_payout_scriptsig (b2h spend_script_bin) commit_script_hex with
      | Raise (InvalidScript _) => Ok None
      | Raise e => Raise e
      | Ok _ =>
          '(opcode, data, disassembled) <- get_word spend_script_bin 3 ;;
          '(opcode, spend_secret, disassembled) <- get_word spend_script_bin 1 ;;
          s <- b2h_data spend_secret ;;
          Ok (Some s)
      end
  end.

(** ** The process-wide state: the matcher registry *)

(** [SUBCLASSES] is pycoin's list of matcher classes; [sign_calls] counts the
    entries into the host signer [tx.sign], to tell whether signing was
    attempted. *)
Record world : Type := {
  SUBCLASSES : list script_class;
  sign_calls : nat
}.

Definition M (A : Type) : Type := world -> world * result A.

Definition ret {A} (a : A) : M A := fun w => (w, Ok a).

Definition lift {A} (r : result A) : M A := fun w => (w, r).

Definition bindM {A B} (m : M A) (f : A -> M B) : M B :=
  fun w =>
    match m w with
    | (w', Ok a) => f a w'
    | (w', Raise e) => (w', Raise e)
    end.

Notation "x <~ m ;; k" := (bindM m (fun x => k))
  (at level 61, m at next level, right associativity).

(** [assert cond] *)
Definition assert (cond : bool) : result unit :=
  if cond then Ok tt else Raise AssertionError.

(** [SUBCLASSES.insert(0, handler)] *)
Definition registry_insert0 (h : script_class) : M unit :=
  fun w => ({| SUBCLASSES := h :: SUBCLASSES w; sign_calls := sign_calls w |}, Ok tt).

(** [SUBCLASSES.pop(0)] *)
Definition registry_pop0 : M unit :=
  fun w =>
    match SUBCLASSES w with
    | [] => (w, Raise (ExternalError "IndexError"))
    | _ :: rest => ({| SUBCLASSES := rest; sign_calls := sign_calls w |}, Ok tt)
    end.

(** [with handler: body]: [__enter__], the body, then [__exit__] on every
    way out of the body; [__exit__] returns [None], so an exception of the
    body goes on to the caller. *)
Definition with_handler {A} (handler : script_class) (body : M A) : M A :=
  fun w =>
    match registry_insert0 handler w with
    | (w1, Raise e) => (w1, Raise e)
    | (w1, Ok _) =>
        match body w1 with
        | (w2, r) =>
            match registry_pop0 w2 with
            | (w3, Ok _) => (w3, r)
            | (w3, Raise e) => (w3, Raise e)
            end
        end
    end.

(** [_CommitScriptHandler(delay_time)]: the class it builds. *)
Definition _CommitScriptHandler (delay_time : Z) : result script_class :=
  template_hex <- compile_commit_script "OP_PUBKEY" "OP_PUBKEY" "OP_PUBKEYHASH"
                    "OP_PUBKEYHASH" (IntArg delay_time) ;;
  TEMPLATE <- h2b template_hex ;;
  Ok (CommitScript TEMPLATE).

(** [_DepositScriptHandler(expire_time)]: the class it builds. *)
Definition _DepositScriptHandler (expire_time : Z) : result script_class :=
  template_hex <- compile_deposit_script "OP_PUBKEY" "OP_PUBKEY" "OP_PUBKEYHASH"
                    (IntArg expire_time) ;;
  TEMPLATE <- h2b template_hex ;;
  Ok (DepositScript TEMPLATE).

(** ** Signing *)

(** [tx.sign(...)]: one entry into the host signer. *)
Definition sign `{Host} (tx : Tx) (h : hash160_lookup_t) (p : option p2sh_lookup_t)
    (kw : sign_kwargs) : M Tx :=
  fun w =>
    match tx_sign tx h p kw (SUBCLASSES w) with
    | (reg, r) => ({| SUBCLASSES := reg; sign_calls := S (sign_calls w) |}, r)
    end.

Definition _make_lookups `{Host} (wif script_hex : string)
  : result (hash160_lookup_t * p2sh_lookup_t) :=
  script_bin <- h2b script_hex ;;
  secret_exponent <- key_secret_exponent wif ;;
  Ok (build_hash160_lookup [secret_exponent], build_p2sh_lookup [script_bin]).

Definition sign_deposit `{Host} (get_txs_func : list string -> list string)
    (payer_wif rawtx : string) : M string :=
  tx <~ lift (load_tx get_txs_func rawtx) ;;
  secret_exponent <~ lift (key_secret_exponent payer_wif) ;;
  tx <~ sign tx (build_hash160_lookup [secret_exponent]) None
          {| kw_spend_type := None; kw_spend_secret := None; kw_revoke_secret := None |} ;;
  ret (as_hex tx).

Definition sign_created_commit `{Host} (get_txs_func : list string -> list string)
    (payer_wif rawtx deposit_script_hex : string) : M string :=
  _ <~ lift (validate_deposit_script deposit_script_hex true) ;;
  tx <~ lift (load_tx get_txs_func rawtx) ;;
  expire_time <~ lift (get_deposit_expire_time deposit_script_hex) ;;
  _ <~ lift (_make_lookups payer_wif deposit_script_hex) ;;
  lookups <~ lift (_make_lookups payer_wif deposit_script_hex) ;;
  handler <~ lift (_DepositScriptHandler expire_time) ;;
  tx <~ with_handler handler
          (sign tx (fst lookups) (Some (snd lookups))
             {| kw_spend_type := Some "create_commit"; kw_spend_secret := None;
                kw_revoke_secret := None |}) ;;
  ret (as_hex tx).

Definition sign_finalize_commit `{Host} (get_txs_func : list string -> list string)
    (payee_wif rawtx deposit_script_hex : string) : M string :=
  _ <~ lift (validate_deposit_script deposit_script_hex true) ;;
  tx <~ lift (load_tx get_txs_func rawtx) ;;
  expire_time <~ lift (get_deposit_expire_time deposit_script_hex) ;;
  lookups <~ lift (_make_lookups payee_wif deposit_script_hex) ;;
  handler <~ lift (_DepositScriptHandler expire_time) ;;
  tx <~ with_handler handler
          (sign tx (fst lookups) (Some (snd lookups))
             {| kw_spend_type := Some "finalize_commit"; kw_spend_secret := None;
                kw_revoke_secret := None |}) ;;
  _ <~ lift (assert (bad_signature_count tx =? 0)) ;;
  ret (as_hex tx).

Definition _sign_deposit_recover `{Host} (get_txs_func : list string -> list string)
    (wif rawtx script_hex spend_type : string) (spend_secret : option string)
  : M string :=
  tx <~ lift (load_tx get_txs_func rawtx) ;;
  expire_time <~ lift (get_deposit_expire_time script_hex) ;;
  lookups <~ lift (_make_lookups wif script_hex) ;;
  handler <~ lift (_DepositScriptHandler expire_time) ;;
  tx <~ with_handler handler
          (sign tx (fst lookups) (Some (snd lookups))
             {| kw_spend_type := Some spend_type; kw_spend_secret := spend_secret;
                kw_revoke_secret := None |}) ;;
  _ <~ lift (assert (bad_signature_count tx =? 0)) ;;
  ret (as_hex tx).

Definition _sign_commit_recover `{Host} (get_txs_func : list string -> list string)
    (wif rawtx script_hex spend_type : string)
    (spend_secret revoke_secret : option string) : M string :=
  tx <~ lift (load_tx get_txs_func rawtx) ;;
  delay_time <~ lift (get_commit_delay_time script_hex) ;;
  lookups <~ lift (_make_lookups wif script_hex) ;;
  handler <~ lift (_CommitScriptHandler delay_time) ;;
  tx <~ with_handler handler
          (sign tx (fst lookups) (Some (snd lookups))
             {| kw_spend_type := Some spend_type; kw_spend_secret := spend_secret;
                kw_revoke_secret := revoke_secret |}) ;;
  _ <~ lift (assert (bad_signature_count tx =? 0)) ;;
  ret (as_hex tx).

Definition sign_revoke_recover `{Host} (get_txs_func : list string -> list string)
    (payer_wif rawtx commit_script_hex revoke_secret : string) : M string :=
  _ <~ lift (validate_commit_script commit_script_hex true) ;;
  _sign_commit_recover get_txs_func payer_wif rawtx commit_script_hex "revoke"
    None (Some revoke_secret).

Definition sign_payout_recover `{Host} (get_txs_func : list string -> list string)
    (payee_wif rawtx commit_script_hex spend_secret : string) : M string :=
  _ <~ lift (validate_commit_script commit_script_hex true) ;;
  _sign_commit_recover get_txs_func payee_wif rawtx commit_script_hex "payout"
    (Some spend_secret) None.

Definition sign_change_recover `{Host} (get_txs_func : list string -> list string)
    (payer_wif rawtx deposit_script_hex spend_secret : string) : M string :=
  _ <~ lift (validate_deposit_script deposit_script_hex true) ;;
  spend_secret_hash <~ lift (get_deposit_spend_secret_hash deposit_script_hex) ;;
  secret_bin <~ lift (h2b spend_secret) ;;
  let provided_spend_secret_hash := b2h (hash160 secret_bin) in
  _ <~ lift (assert (String.eqb provided_spend_secret_hash spend_secret_hash)) ;;
  _sign_deposit_recover get_txs_func payer_wif rawtx deposit_script_hex "change"
    (Some spend_secret).

Definition sign_expire_recover `{Host} (get_txs_func : list string -> list string)
    (payer_wif rawtx deposit_script_hex : string) : M string :=
  _ <~ lift (validate_deposit_script deposit_script_hex true) ;;
  _sign_deposit_recover get_txs_func payer_wif rawtx deposit_script_hex "expire" None.

(** ** The matcher objects and their [solve] methods *)

Record _AbsDepositScript : Type := {
  dep_payer_sec : bytes;
  dep_payee_sec : bytes;
  dep_spend_secret_hash : string;
  dep_expire_time : Z;
  dep_script : bytes
}.

Record _AbsCommitScript : Type := {
  com_delay_time : Z;
  com_spend_secret_hash : string;
  com_payee_sec : bytes;
  com_payer_sec : bytes;
  com_revoke_secret_hash : string;
  com_script : bytes
}.

(** [_AbsDepositScript.__init__] *)
Definition new_AbsDepositScript (payer_sec payee_sec : bytes)
    (spend_secret_hash : string) (expire_time : Z) : result _AbsDepositScript :=
  script_hex <- compile_deposit_script (b2h payer_sec) (b2h payee_sec)
                  spend_secret_hash (IntArg expire_time) ;;
  script_bin <- h2b script_hex ;;
  Ok {| dep_payer_sec := payer_sec; dep_payee_sec := payee_sec;
        dep_spend_secret_hash := spend_secret_hash;
        dep_expire_time := expire_time; dep_script := script_bin |}.

(** [_AbsCommitScript.__init__] *)
Definition new_AbsCommitScript (delay_time : Z) (spend_secret_hash : string)
    (payee_sec payer_sec : bytes) (revoke_secret_hash : string)
  : result _AbsCommitScript :=
  script_hex <- compile_commit_script (b2h payer_sec) (b2h payee_sec)
                  spend_secret_hash revoke_secret_hash (IntArg delay_time) ;;
  script_bin <- h2b script_hex ;;
  Ok {| com_delay_time := delay_time; com_spend_secret_hash := spend_secret_hash;
        com_payee_sec := payee_sec; com_payer_sec := payer_sec;
        com_revoke_secret_hash := revoke_secret_hash; com_script := script_bin |}.

(** [_AbsScript._create_sig] *)
Definition _create_sig `{Host} (secret_exponent : Z) (kwargs : solve_kwargs)
  : result bytes :=
  create_script_signature secret_exponent (signature_for_hash_type_f kwargs)
    (signature_type kwargs) (script_to_hash kwargs).

(** [secret_exponent, public_pair, compressed = hash160_lookup.get(...)] *)
Definition private_key_of `{Host} (kwargs : solve_kwargs) (sec : bytes)
  : result (Z * (Z * Z) * bool) :=
  match hash160_lookup kwargs (hash160 sec) with
  | Some private_key => Ok private_key
  | None => Raise TypeError
  end.

(** [try: body except UnexpectedDER: raise InvalidPayerSignature(...)] *)
Definition except_UnexpectedDER {A} (body : result A) (handler : exception)
  : result A :=
  match body with
  | Raise UnexpectedDER => Raise handler
  | r => r
  end.

(** The argument of [h2b(arg)], a keyword argument that may be [None]:
    [h2b] encodes its argument first, and [None] has no such method. *)
Definition arg_str (o : option string) : result string :=
  match o with
  | Some s => Ok s
  | None => Raise AttributeError
  end.

(** A keyword argument as [str.format] renders it. *)
Definition format_arg (o : option string) : string :=
  match o with
  | Some s => s
  | None => "None"
  end.

Definition solve_expire `{Host} (self : _AbsDepositScript) (kwargs : solve_kwargs)
  : result bytes :=
  '(secret_exponent, public_pair, compressed) <-
     private_key_of kwargs (dep_payer_sec self) ;;
  sig <- _create_sig secret_exponent kwargs ;;
  script_asm <- format EXPIRE_SCRIPTSIG [ ("sig", b2h sig) ] ;;
  tools.compile script_asm.

Definition solve_change `{Host} (self : _AbsDepositScript) (kwargs : solve_kwargs)
  : result bytes :=
  '(secret_exponent, public_pair, compressed) <-
     private_key_of kwargs (dep_payer_sec self) ;;
  sig <- _create_sig secret_exponent kwargs ;;
  spend_secret_hash <- get_deposit_spend_secret_hash (b2h (dep_script self)) ;;
  secret <- arg_str (spend_secret kwargs) ;;
  secret_bin <- h2b secret ;;
  let provided_spend_secret_hash := b2h (hash160 secret_bin) in
  _ <- assert (String.eqb spend_secret_hash provided_spend_secret_hash) ;;
  script_asm <- format CHANGE_SCRIPTSIG [ ("sig", b2h sig); ("secret", secret) ] ;;
  tools.compile script_asm.

Definition solve_create_commit `{Host} (self : _AbsDepositScript)
    (kwargs : solve_kwargs) : result bytes :=
  '(secret_exponent, public_pair, compressed) <-
     private_key_of kwargs (dep_payer_sec self) ;;
  sig <- _create_sig secret_exponent kwargs ;;
  let placeholder :=
    match signature_placeholder kwargs with
    | Some p => p
    | None => DEFAULT_PLACEHOLDER_SIGNATURE
    end in
  script_asm <- format COMMIT_SCRIPTSIG
                  [ ("payer_sig", b2h sig); ("payee_sig", b2h placeholder) ] ;;
  tools.compile script_asm.

Definition solve_finalize_commit `{Host} (self : _AbsDepositScript)
    (kwargs : solve_kwargs) : result bytes :=
  (* validate existing script *)
  reference_script_hex <-
    _compile_commit_scriptsig "deadbeef" "deadbeef" (b2h (dep_script self)) ;;
  _ <- _validate reference_script_hex (b2h (existing_script kwargs)) ;;
  (* check provided payer signature *)
  payer_sig <-
    except_UnexpectedDER
      ('(opcode, data, pc) <- tools.get_opcode (existing_script kwargs) 0 ;;
       '(opcode, payer_sig, pc) <- tools.get_opcode (existing_script kwargs) pc ;;
       '(sig_r_s, actual_signature_type) <-
          match payer_sig with
          | Some blob => parse_signature_blob blob
          | None => Raise TypeError
          end ;;
       _ <- assert (signature_type kwargs =? actual_signature_type) ;;
       public_pair <- sec_to_public_pair (dep_payer_sec self) ;;
       public_pair <- sec_to_public_pair (dep_payer_sec self) ;;
       let sign_value :=
         signature_for_hash_type_f kwargs (signature_type kwargs)
           (script_to_hash kwargs) in
       if negb (ecdsa_verify public_pair sign_value sig_r_s)
       then Raise (InvalidPayerSignature "invalid r s values")
       else Ok payer_sig)
      (InvalidPayerSignature "not in DER format") ;;
  (* sign *)
  '(secret_exponent, public_pair, compressed) <-
     private_key_of kwargs (dep_payee_sec self) ;;
  payee_sig <- _create_sig secret_exponent kwargs ;;
  payer_sig_hex <- b2h_data payer_sig ;;
  script_asm <- format COMMIT_SCRIPTSIG
                  [ ("payer_sig", payer_sig_hex); ("payee_sig", b2h payee_sig) ] ;;
  tools.compile script_asm.

(** [_AbsDepositScript.solve]: dispatch on [kwargs["spend_type"]]. *)
Definition solve_deposit `{Host} (self : _AbsDepositScript) (kwargs : solve_kwargs)
  : result bytes :=
  if String.eqb (spend_type kwargs) "expire" then solve_expire self kwargs
  else if String.eqb (spend_type kwargs) "change" then solve_change self kwargs
  else if String.eqb (spend_type kwargs) "create_commit" then
    solve_create_commit self kwargs
  else if String.eqb (spend_type kwargs) "finalize_commit" then
    solve_finalize_commit self kwargs
  else Raise (ExternalError "KeyError").

Definition solve_payout `{Host} (self : _AbsCommitScript) (kwargs : solve_kwargs)
  : result bytes :=
  '(secret_exponent, public_pair, compressed) <-
     private_key_of kwargs (com_payee_sec self) ;;
  sig <- _create_sig secret_exponent kwargs ;;
  script_asm <- format PAYOUT_SCRIPTSIG
                  [ ("sig", b2h sig);
                    ("spend_secret", format_arg (spend_secret kwargs)) ] ;;
  tools.compile script_asm.

Definition solve_revoke `{Host} (self : _AbsCommitScript) (kwargs : solve_kwargs)
  : result bytes :=
  '(secret_exponent, public_pair, compressed) <-
     private_key_of kwargs (com_payer_sec self) ;;
  sig <- _create_sig secret_exponent kwargs ;;
  script_asm <- format REVOKE_SCRIPTSIG
                  [ ("sig", b2h sig);
                    ("revoke_secret", format_arg (revoke_secret kwargs)) ] ;;
  tools.compile script_asm.

(** [_AbsCommitScript.solve] *)
Definition solve_commit `{Host} (self : _AbsCommitScript) (kwargs : solve_kwargs)
  : result bytes :=
  if String.eqb (spend_type kwargs) "payout" then solve_payout self kwargs
  else if String.eqb (spend_type kwargs) "revoke" then solve_revoke self kwargs
  else Raise (ExternalError "KeyError").

(** ** Scripts as lists of words *)

(** A word as the decoder returns it: the opcode and the pushed data. *)
Definition word : Type := (Z * option bytes)%type.

(** The width of the length prefix of a push opcode. *)
Definition prefix_width (opcode : Z) : nat :=
  if opcode <? OP_PUSHDATA1 then 0%nat
  else if opcode =? OP_PUSHDATA1 then 1%nat
  else if opcode =? OP_PUSHDATA2 then 2%nat
  else 4%nat.

(** The bytes of a word: opcode, length prefix, data. *)
Definition encode_word (w : word) : bytes :=
  match w with
  | (opcode, None) => [byte_of_Z opcode]
  | (opcode, Some d) =>
      byte_of_Z opcode :: tools.le_prefix (length d) (prefix_width opcode) ++ d
  end.

Definition encode_words (ws : list word) : bytes := concat (map encode_word ws).

(** A word with its bytes: a push opcode carries data of the length it
    announces, any other opcode carries none. *)
Definition wf_word (w : word) : bool :=
  match w with
  | (opcode, None) => (OP_PUSHDATA4 <? opcode) && (opcode <=? 255)
  | (opcode, Some d) =>
      (0 <=? opcode) &&
      (if opcode <? OP_PUSHDATA1 then Z.of_nat (length d) =? opcode
       else if opcode =? OP_PUSHDATA1 then Z.of_nat (length d) <? 256
       else if opcode =? OP_PUSHDATA2 then Z.of_nat (length d) <? 65536
       else if opcode =? OP_PUSHDATA4 then Z.of_nat (length d) <? 4294967296
       else false)
  end.

(** A script made of such words. *)
Definition wf_words (ws : list word) : Prop := Forall (fun w => wf_word w = true) ws.

Definition word_eqb (r u : word) : bool :=
  (fst r =? fst u) && data_eqb (snd r) (snd u).

(** What [_validate] accepts, word by word: a placeholder of the reference
    accepts the candidate's word whatever it is, any other word must be
    equal, and the two scripts have the same number of words. *)
Fixpoint words_match (rws uws : list word) : bool :=
  match rws, uws with
  | [], [] => true
  | r :: rws', u :: uws' =>
      (is_placeholder (snd r) || word_eqb r u) && words_match rws' uws'
  | _, _ => false
  end.

Definition is_data_push (w : word) : bool :=
  match snd w with
  | Some _ => true
  | None => false
  end.

(** The rule as the specification words it: a placeholder accepts the
    candidate's word if and only if it is a data push. *)
Fixpoint words_match_as_specified (rws uws : list word) : bool :=
  match rws, uws with
  | [], [] => true
  | r :: rws', u :: uws' =>
      (if is_placeholder (snd r) then is_data_push u else word_eqb r u)
      && words_match_as_specified rws' uws'
  | _, _ => false
  end.

(** The direct push of a field. *)
Definition push (d : bytes) : word := (Z.of_nat (length d), Some d).

Definition op (opcode : Z) : word := (opcode, None).

(** The word the assembler emits for a sequence value. *)
Definition time_word (t : Z) : word :=
  if t =? 0 then (0, Some [])
  else if t <=? 16 then op (80 + t)
  else push (tools.int_to_script_bytes t).

(** The words of a deposit script, after [DEPOSIT_SCRIPT]. *)
Definition deposit_words (payer_pubkey payee_pubkey spend_secret_hash : word)
    (expire_time : word) : list word :=
  [ op 99; op 82; payer_pubkey; payee_pubkey; op 82; op 174;
    op 103; op 99; op 169; spend_secret_hash; op 136; payer_pubkey; op 172;
    op 103; expire_time; op 178; op 117; payer_pubkey; op 172;
    op 104; op 104 ].

(** The words of a commit script, after [COMMIT_SCRIPT]. *)
Definition commit_words (payer_pubkey payee_pubkey spend_secret_hash
    revoke_secret_hash : word) (delay_time : word) : list word :=
  [ op 99; delay_time; op 178; op 117; op 169; spend_secret_hash; op 136;
    payee_pubkey; op 172;
    op 103; op 169; revoke_secret_hash; op 136; payer_pubkey; op 172;
    op 104 ].

(** Well-formed field values: a SEC public key has 33 or 65 bytes, a hash160
    has 20. *)
Definition is_pubkey (d : bytes) : Prop := length d = 33%nat \/ length d = 65%nat.
Definition is_hash160 (d : bytes) : Prop := length d = 20%nat.

(** A script with the byte at offset [p] replaced by [b]. *)
Definition set_byte (script_bin : bytes) (p : nat) (b : byte) : bytes :=
  firstn p script_bin ++ b :: skipn (S p) script_bin.

(** The offsets at which the words of a script start. *)
Fixpoint word_offsets (start : nat) (ws : list word) : list nat :=
  match ws with
  | [] => []
  | w :: ws' => start :: word_offsets (start + length (encode_word w)) ws'
  end.

(** The offsets of the bytes of a script outside the placeholder slots of
    its reference: the opcode bytes of the words whose reference word is
    not a placeholder. *)
Fixpoint fixed_offsets (start : nat) (rws uws : list word) : list nat :=
  match rws, uws with
  | r :: rws', u :: uws' =>
      (if is_placeholder (snd r) then [] else [start])
      ++ fixed_offsets (start + length (encode_word u)) rws' uws'
  | _, _ => []
  end.

Definition placeholder : word := push [xde; xad; xbe; xef].

Definition deposit_reference : list word :=
  deposit_words placeholder placeholder placeholder placeholder.

Definition commit_reference : list word :=
  commit_words placeholder placeholder placeholder placeholder placeholder.

(** ** Tokens *)

Fixpoint no_space (s : string) : bool :=
  match s with
  | EmptyString => true
  | String c s' => negb (tools.is_space c) && no_space s'
  end.

Definition starts_with_space (s : string) : bool :=
  match s with
  | EmptyString => false
  | String c _ => tools.is_space c
  end.

Fixpoint ends_with_space (s : string) : bool :=
  match s with
  | EmptyString => false
  | String c EmptyString => tools.is_space c
  | String _ s' => ends_with_space s'
  end.

(** The tokens of a formatted template: the tokens of its literal text,
    and each field as one token. *)
Fixpoint template_tokens (tpl : list piece) (kw : list (string * string))
  : list string :=
  match tpl with
  | [] => []
  | Lit s :: tpl' => tools.split s ++ template_tokens tpl' kw
  | Field name :: tpl' =>
      match assoc_str kw name with
      | Some v => v :: template_tokens tpl' kw
      | None => []
      end
  end.

(** Every field of the template stands between whitespace. *)
Fixpoint spaced (tpl : list piece) : bool :=
  match tpl with
  | [] => true
  | Lit s :: tpl' =>
      match tpl' with
      | [] => true
      | Field _ :: _ => ends_with_space s
      | Lit s' :: _ => ends_with_space s || starts_with_space s'
      end && spaced tpl'
  | Field _ :: tpl' =>
      match tpl' with
      | [] => true
      | Field _ :: _ => false
      | Lit s' :: _ => starts_with_space s'
      end && spaced tpl'
  end.

Definition is_token (v : string) : Prop := no_space v = true /\ v <> "".

(** The compiled word of every sequence value is checked by evaluation. *)
Definition bytes_eqb (a b : bytes) : bool :=
  if list_eq_dec Byte.byte_eq_dec a b then true else false.

Definition time_token_ok (t : Z) : bool :=
  let tok := str_of_Z t in
  match tools.compile_token tok with
  | Ok b =>
      bytes_eqb b (encode_word (time_word t))
      && wf_word (time_word t)
      && match _parse_sequence_value (fst (time_word t)) (snd (time_word t)) "" with
         | Ok v => v =? t
         | Raise _ => false
         end
      && no_space tok && negb (String.eqb tok "")
  | Raise _ => false
  end.

Fixpoint all_from (f : Z -> bool) (n : nat) (z : Z) : bool :=
  match n with
  | O => true
  | S n' => f z && all_from f n' (z + 1)
  end.

(** A field the assembler compiles to a direct push of its bytes. *)
Definition field_ok (d : bytes) : Prop := (12 <= length d <= 75)%nat.

(** Sample field values. *)
Definition sample_pubkey_a : bytes := x02 :: repeat x11 32.
Definition sample_pubkey_b : bytes := x03 :: repeat x22 32.
Definition sample_hash_s : bytes := repeat x33 20.
Definition sample_hash_r : bytes := repeat x44 20.

(** A key whose second byte is 41, the opcode of a push of 65 bytes. *)
Definition sample_pubkey_c : bytes := x02 :: x41 :: repeat x11 31.

(** The value the code reads from a word: OP_0 is 0, a direct push of 1..75
    bytes is the script number of its bytes ([tools.int_from_script_bytes]),
    OP_1..OP_16 are the opcode minus 80; no other word is a sequence
    value. *)
Definition sequence_value (w : word) : option Z :=
  match w with
  | (opcode, data) =>
      if opcode =? 0 then Some 0
      else if (1 <=? opcode) && (opcode <=? 75) then
        match data with
        | Some d => Some (tools.int_from_script_bytes d)
        | None => None
        end
      else if (81 <=? opcode) && (opcode <=? 96) then Some (opcode - 80)
      else None
  end.

(** The value of a word as the specification words it: OP_0 is 0, a direct
    push of 1..75 bytes is the little-endian integer of its bytes,
    OP_1..OP_16 are the opcode minus 80. *)
Definition sequence_value_as_specified (w : word) : option Z :=
  match w with
  | (opcode, data) =>
      if opcode =? 0 then Some 0
      else if (1 <=? opcode) && (opcode <=? 75) then
        match data with
        | Some d => Some (tools.le_value d)
        | None => None
        end
      else if (81 <=? opcode) && (opcode <=? 96) then Some (opcode - 80)
      else None
  end.

(** A direct push whose last byte has its top bit set: the sign of a script
    number. *)
Definition sign_bit_set (w : word) : bool :=
  match w with
  | (opcode, Some d) =>
      (1 <=? opcode) && (opcode <=? 75) && (128 <=? byte_to_Z (last d x00))
  | (_, None) => false
  end.

(** The weight of that bit in the little-endian integer of the bytes. *)
Definition sign_weight (w : word) : Z :=
  match snd w with
  | Some d => 128 * 256 ^ Z.of_nat (length d - 1)
  | None => 0
  end.

(** The offsets of the bytes of a script inside the placeholder slots of
    its reference: all the bytes of the words whose reference word is a
    placeholder. *)
Fixpoint placeholder_offsets (start : nat) (rws uws : list word) : list nat :=
  match rws, uws with
  | r :: rws', u :: uws' =>
      (if is_placeholder (snd r) then seq start (length (encode_word u)) else [])
      ++ placeholder_offsets (start + length (encode_word u)) rws' uws'
  | _, _ => []
  end.

(** The words of a reference that are not placeholders are bare opcodes. *)
Definition fixed_words_bare (rws : list word) : Prop :=
  Forall (fun r => is_placeholder (snd r) = false -> snd r = None) rws.

(** The words of the deposit and of the commit script compiled from given
    fields. *)
Definition deposit_script_words (payer_pubkey payee_pubkey spend_secret_hash : bytes)
    (expire_time : Z) : list word :=
  deposit_words (push payer_pubkey) (push payee_pubkey) (push spend_secret_hash)
    (time_word expire_time).

Definition commit_script_words
    (payer_pubkey payee_pubkey spend_secret_hash revoke_secret_hash : bytes)
    (delay_time : Z) : list word :=
  commit_words (push payer_pubkey) (push payee_pubkey) (push spend_secret_hash)
    (push revoke_secret_hash) (time_word delay_time).

(** A push that announces more data than the bytes after its length prefix
    hold: the byte strings on whose first word the decoder raises its
    error. *)
Definition short_push (tail : bytes) : bool :=
  match tail with
  | [] => false
  | b :: rest =>
      let opcode := byte_to_Z b in
      (opcode <=? OP_PUSHDATA4)
      && (Z.of_nat (length (skipn (prefix_width opcode) rest))
          <? (if opcode <? OP_PUSHDATA1 then opcode
              else tools.le_value (firstn (prefix_width opcode) rest)))
  end.

(** One of the opcodes OP_PUSHDATA1, OP_PUSHDATA2 and OP_PUSHDATA4, which
    take a length prefix. *)
Definition is_pushdata (b : byte) : bool :=
  (OP_PUSHDATA1 <=? byte_to_Z b) && (byte_to_Z b <=? OP_PUSHDATA4).

(** OP_PUSHDATA1/2/4 followed by fewer bytes than its length prefix takes,
    which read as zero: the decoder gives the length the value of the bytes
    that are there, and returns the push of the empty byte string. *)
Definition cut_pushdata (tail : bytes) : option word :=
  match tail with
  | [] => None
  | b :: rest =>
      if is_pushdata b
         && (length rest <? prefix_width (byte_to_Z b))%nat
         && (tools.le_value rest =? 0)
      then Some (byte_to_Z b, Some [])
      else None
  end.

(** What the validators do with a script whose byte at offset [p] was
    changed: InvalidScript when the decoder returns a word there, the
    decoder's error when it raises. *)
Definition rejected_at (script_bin : bytes) (p : nat) : result unit :=
  match tools.get_opcode script_bin p with
  | Ok _ => Raise (InvalidScript (b2h script_bin))
  | Raise e => Raise e
  end.

(** An accessor [get] validates its input against the reference [rws]
    (whose shape test is [shape]): it returns a value only for an input that
    passed the test; on a script made of words that do not match it raises
    InvalidScript; on an input that is not hex it raises the hex error; on
    words the reference accepts as its first words, followed by a push that
    announces more data than there is, it raises the decoder's error; on
    words followed by a last byte OP_PUSHDATA1/2/4 it raises
    InvalidScript. *)
Definition revalidates {A : Type} (shape : string -> result unit)
    (rws : list word) (get : string -> result A) : Prop :=
  (forall script_hex v, get script_hex = Ok v -> shape script_hex = Ok tt)
  /\ (forall uws,
         wf_words uws -> words_match rws uws = false ->
         get (b2h (encode_words uws))
         = Raise (InvalidScript (b2h (encode_words uws))))
  /\ (forall script_hex,
         unhexlify script_hex = None -> get script_hex = Raise HexError)
  /\ (forall uws tail,
         wf_words uws -> short_push tail = true ->
         (length uws < length rws)%nat ->
         words_match (firstn (length uws) rws) uws = true ->
         get (b2h (encode_words uws ++ tail)) = Raise MalformedScript)
  /\ (forall uws b,
         wf_words uws -> is_pushdata b = true ->
         get (b2h (encode_words uws ++ [b]))
         = Raise (InvalidScript (b2h (encode_words uws ++ [b])))).

(** A stand-in host, to run the module on concrete inputs: its transaction
    decoder reads the raw hex as the scriptSig of a single input, its signer
    leaves the transaction and the registry as they are, a signature blob is
    well-formed when it starts with byte 30 and its last byte is the hash
    type, and a signature verifies when its first number is the signed
    value. *)
Definition sample_host : Host := {|
  Tx_from_hex := fun raw => b <- h2b raw ;; Ok {| txs_in := [ {| script := b |} ] |};
  load_tx := fun _ raw => b <- h2b raw ;; Ok {| txs_in := [ {| script := b |} ] |};
  key_secret_exponent := fun _ => Ok 1;
  build_hash160_lookup :=
    fun l _ => match l with e :: _ => Some (e, (0, 0), true) | [] => None end;
  build_p2sh_lookup := fun l _ => hd_error l;
  tx_sign := fun tx _ _ _ registry => (registry, Ok tx);
  bad_signature_count := fun _ => 0;
  as_hex := fun tx =>
    match txs_in tx with
    | tx_in :: _ => b2h (script tx_in)
    | [] => ""
    end;
  hash160 := fun b => firstn 20 (b ++ repeat x00 20);
  parse_signature_blob := fun blob =>
    match rev blob with
    | [] => Raise UnexpectedDER
    | ty :: body =>
        match rev body with
        | x30 :: r :: s :: _ => Ok ((byte_to_Z r, byte_to_Z s), byte_to_Z ty)
        | _ => Raise UnexpectedDER
        end
    end;
  sec_to_public_pair := fun _ => Ok (0, 0);
  ecdsa_verify := fun _ value sig => fst sig =? value;
  create_script_signature := fun _ f ty script_bin => Ok [x30; x01; x01; byte_of_Z ty];
  DEFAULT_PLACEHOLDER_SIGNATURE := repeat x00 72
|}.

(** The commit script compiled from the sample fields with delay time 7. *)
Definition sample_commit_script : bytes :=
  encode_words (commit_script_words sample_pubkey_a sample_pubkey_b
                  sample_hash_s sample_hash_r 7).

(** The scriptSig [OP_1 OP_1 OP_1 <commit_script>]: no payout of the sample
    commit script, its word 1 pushes no data. *)
Definition non_payout_scriptsig : bytes :=
  encode_words [ op 81; op 81; op 81; (76, Some sample_commit_script) ].

(** A computation leaves the registry as it found it, whatever it returns
    or raises. *)
Definition preserves_registry {A : Type} (m : M A) : Prop :=
  forall w, SUBCLASSES (fst (m w)) = SUBCLASSES w.

(** The host signer reads the registry and hands it back unchanged. *)
Definition signer_frame `{Host} : Prop :=
  forall tx h p kw registry, fst (tx_sign tx h p kw registry) = registry.

(** The world inside the scope of a handler. *)
Definition entered (handler : script_class) (w : world) : world :=
  {| SUBCLASSES := handler :: SUBCLASSES w; sign_calls := sign_calls w |}.

(** The deposit script compiled from the sample fields with expire time
    1000, and a world with two of the host's own matchers registered. *)
Definition sample_deposit_script : bytes :=
  encode_words (deposit_script_words sample_pubkey_a sample_pubkey_b sample_hash_s 1000).

Definition sample_world : world :=
  {| SUBCLASSES := [HostScript "ScriptPayToAddress"; HostScript "ScriptPayToScript"];
     sign_calls := 0 |}.

(** Sample data for finalize commit: the matcher object of the sample deposit
    script, a payer signature blob whose last byte says hash type 2, and the
    scriptSig [OP_0 <payer_sig> <placeholder_sig> OP_1 <deposit_script>] that
    create commit leaves. *)
Definition sample_deposit_object : _AbsDepositScript := {|
  dep_payer_sec := sample_pubkey_a;
  dep_payee_sec := sample_pubkey_b;
  dep_spend_secret_hash := b2h sample_hash_s;
  dep_expire_time := 1000;
  dep_script := sample_deposit_script
|}.






(** All the words of a script, decoded one after the other from [pc]. *)
Fixpoint decode_words (fuel : nat) (script_bin : bytes) (pc : nat)
  : result (list word) :=
  if (pc <? length script_bin)%nat then
    match fuel with
    | O => Raise OutOfFuel
    | S fuel' =>
        '(opcode, data, pc') <- tools.get_opcode script_bin pc ;;
        ws <- decode_words fuel' script_bin pc' ;;
        Ok ((opcode, data) :: ws)
    end
  else Ok [].

Definition script_words (script_bin : bytes) : result (list word) :=
  decode_words (length script_bin) script_bin 0.

(** The words of a script of the deposit shape: the fixed opcodes of
    [DEPOSIT_SCRIPT] around six slots, the payer's public key standing in
    three of them. *)
Definition deposit_slots (payer_pubkey payee_pubkey spend_secret_hash
    payer_pubkey_change expire_time payer_pubkey_expire : word) : list word :=
  [ op 99; op 82; payer_pubkey; payee_pubkey; op 82; op 174;
    op 103; op 99; op 169; spend_secret_hash; op 136; payer_pubkey_change; op 172;
    op 103; expire_time; op 178; op 117; payer_pubkey_expire; op 172;
    op 104; op 104 ].

(** The words of a script of the commit shape: the fixed opcodes of
    [COMMIT_SCRIPT] around five slots. *)
Definition commit_slots (delay_time spend_secret_hash payee_pubkey
    revoke_secret_hash payer_pubkey : word) : list word :=
  [ op 99; delay_time; op 178; op 117; op 169; spend_secret_hash; op 136;
    payee_pubkey; op 172;
    op 103; op 169; revoke_secret_hash; op 136; payer_pubkey; op 172;
    op 104 ].

(** A word stands for a sequence value within [0, MAX_SEQUENCE]. *)
Definition valid_time_word (w : word) : Prop :=
  exists v, sequence_value w = Some v /\ 0 <= v <= MAX_SEQUENCE.

(** The word the assembler emits for a hex token of [d]: the shortest push
    that holds it. *)
Definition script_push (d : bytes) : word :=
  if Z.of_nat (length d) <=? 75 then push d
  else if Z.of_nat (length d) <=? 255 then (OP_PUSHDATA1, Some d)
  else if Z.of_nat (length d) <=? 65535 then (OP_PUSHDATA2, Some d)
  else (OP_PUSHDATA4, Some d).

(** The words of a payout scriptSig, after [PAYOUT_SCRIPTSIG] and the push
    of the commit script that follows it. *)
Definition payout_scriptsig_words (sig spend_secret : word)
    (commit_script_bin : bytes) : list word :=
  [ sig; spend_secret; op 81; script_push commit_script_bin ].

(** The template a deposit (resp. commit) matcher is built with: the script
    with the opcodes OP_PUBKEY and OP_PUBKEYHASH standing in the slots of
    the keys and of the hashes. *)
Definition deposit_template (expire_time : Z) : bytes :=
  encode_words (deposit_words (op 254) (op 254) (op 253) (time_word expire_time)).

Definition commit_template (delay_time : Z) : bytes :=
  encode_words (commit_words (op 254) (op 254) (op 253) (op 253) (time_word delay_time)).

(** A sign operation that went from [w] to [w'] returned the serialization
    of a transaction without bad signatures, after one entry into the host
    signer. *)
Definition fully_signed `{Host} (w w' : world) (rawtx_signed : string) : Prop :=
  exists tx, bad_signature_count tx = 0
             /\ rawtx_signed = as_hex tx
             /\ sign_calls w' = S (sign_calls w).

(** The word of the opcode OP_0: the push of the empty byte string. *)
Definition op_0 : word := (0, Some []).

(** A stand-in host as [sample_host], whose signatures have the length of a
    DER signature with its hash type byte: 71 bytes. *)
Definition sample_signer : Host := {|
  Tx_from_hex := Tx_from_hex (Host := sample_host);
  load_tx := load_tx (Host := sample_host);
  key_secret_exponent := key_secret_exponent (Host := sample_host);
  build_hash160_lookup := build_hash160_lookup (Host := sample_host);
  build_p2sh_lookup := build_p2sh_lookup (Host := sample_host);
  tx_sign := tx_sign (Host := sample_host);
  bad_signature_count := bad_signature_count (Host := sample_host);
  as_hex := as_hex (Host := sample_host);
  hash160 := hash160 (Host := sample_host);
  parse_signature_blob := parse_signature_blob (Host := sample_host);
  sec_to_public_pair := sec_to_public_pair (Host := sample_host);
  ecdsa_verify := ecdsa_verify (Host := sample_host);
  create_script_signature := fun _ f ty script_bin =>
    Ok ([x30; x09; x08] ++ repeat x00 67 ++ [byte_of_Z ty]);
  DEFAULT_PLACEHOLDER_SIGNATURE := repeat x00 72
|}.

(** The signature [sample_signer] makes for hash type [ty]. *)
Definition sample_signature (ty : Z) : bytes :=
  [x30; x09; x08] ++ repeat x00 67 ++ [byte_of_Z ty].

(** Keyword arguments as the host signer passes them to [solve]. *)
Definition sample_kwargs (ty : string) (secret : option string) (existing : bytes)
  : solve_kwargs := {|
  hash160_lookup := fun _ => Some (1, (0, 0), true);
  signature_type := 1;
  existing_script := existing;
  signature_for_hash_type_f := fun _ _ => 9;
  script_to_hash := sample_deposit_script;
  spend_type := ty;
  spend_secret := secret;
  revoke_secret := secret;
  signature_placeholder := None
|}.

Definition sample_commit_object : _AbsCommitScript := {|
  com_delay_time := 7;
  com_spend_secret_hash := b2h sample_hash_s;
  com_payee_sec := sample_pubkey_b;
  com_payer_sec := sample_pubkey_a;
  com_revoke_secret_hash := b2h sample_hash_r;
  com_script := sample_commit_script
|}.

(** The keyword arguments [sign_created_commit] passes to the host signer. *)
Definition create_commit_kwargs : sign_kwargs :=
  {| kw_spend_type := Some "create_commit"; kw_spend_secret := None;
     kw_revoke_secret := None |}.

(** * Properties *)

(** ** Bytes and hex *)

Lemma byte_to_Z_range (b : byte) : 0 <= byte_to_Z b < 256.
Proof. unfold byte_to_Z. pose proof (Byte.to_N_bounded b). lia. Qed.

Lemma byte_of_to_Z (b : byte) : byte_of_Z (byte_to_Z b) = b.
Proof. destruct b; reflexivity. Qed.

Lemma byte_to_of_Z (z : Z) : 0 <= z < 256 -> byte_to_Z (byte_of_Z z) = z.
Proof.
  intros Hz. unfold byte_of_Z, byte_to_Z. rewrite Z.mod_small by lia.
  destruct (Byte.of_N (Z.to_N z)) as [b|] eqn:E.
  - apply Byte.to_of_N in E. rewrite E. lia.
  - apply Byte.of_N_None_iff in E. lia.
Qed.

Lemma unhexlify_b2h_byte (b : byte) (rest : string) :
  unhexlify (String (hex_digit (byte_to_Z b / 16))
               (String (hex_digit (byte_to_Z b mod 16)) rest))
  = match unhexlify rest with Some bs => Some (b :: bs) | None => None end.
Proof. destruct b; reflexivity. Qed.

Lemma unhexlify_b2h (bs : bytes) : unhexlify (b2h bs) = Some bs.
Proof.
  induction bs as [|b bs IH]; [reflexivity|].
  cbn [b2h]. rewrite unhexlify_b2h_byte, IH. reflexivity.
Qed.

Lemma h2b_b2h (bs : bytes) : h2b (b2h bs) = Ok bs.
Proof. unfold h2b. rewrite unhexlify_b2h. reflexivity. Qed.

Lemma b2h_inj (a b : bytes) : b2h a = b2h b -> a = b.
Proof.
  intros E. pose proof (unhexlify_b2h a) as Ha. rewrite E, unhexlify_b2h in Ha.
  congruence.
Qed.

Lemma b2h_length (bs : bytes) : String.length (b2h bs) = (2 * length bs)%nat.
Proof. induction bs; cbn [b2h String.length length]; lia. Qed.

Lemma byte_to_of_Z_mod (z : Z) : byte_to_Z (byte_of_Z z) = z mod 256.
Proof.
  unfold byte_of_Z.
  rewrite <- (byte_to_of_Z (z mod 256)) at 2 by (apply Z.mod_pos_bound; lia).
  unfold byte_of_Z. rewrite Z.mod_mod by lia. reflexivity.
Qed.

(** ** Lists *)

Lemma skipn_app_length {A} (pre l : list A) (k : nat) :
  skipn (length pre + k) (pre ++ l) = skipn k l.
Proof. induction pre; [reflexivity | exact IHpre]. Qed.

Lemma firstn_app_length {A} (a b : list A) : firstn (length a) (a ++ b) = a.
Proof. induction a; cbn; [reflexivity | now f_equal]. Qed.

Lemma nth_error_app_length {A} (pre l : list A) :
  nth_error (pre ++ l) (length pre) = nth_error l 0.
Proof. induction pre; [reflexivity | exact IHpre]. Qed.

(** ** The decoder on an encoded word *)

Lemma le_prefix_length (n width : nat) : length (tools.le_prefix n width) = width.
Proof. unfold tools.le_prefix. now rewrite length_map, length_seq. Qed.

Lemma le_value_prefix (n width : nat) :
  (width = 1 \/ width = 2 \/ width = 4)%nat ->
  Z.of_nat n < 256 ^ Z.of_nat width ->
  tools.le_value (tools.le_prefix n width) = Z.of_nat n.
Proof.
  intros Hw Hn. unfold tools.le_prefix.
  destruct Hw as [-> | [-> | ->]]; cbn [seq map tools.le_value];
    rewrite ?byte_to_of_Z_mod;
    change (Z.of_nat 0) with 0 in *; change (Z.of_nat 1) with 1 in *;
    change (Z.of_nat 2) with 2 in *; change (Z.of_nat 3) with 3 in *;
    change (Z.of_nat 4) with 4 in *;
    change (256 ^ 0) with 1 in *; change (256 ^ 1) with 256 in *;
    change (256 ^ 2) with 65536 in *; change (256 ^ 3) with 16777216 in *;
    change (256 ^ 4) with 4294967296 in *;
    Z.div_mod_to_equations; lia.
Qed.

Lemma encode_word_length (w : word) : (1 <= length (encode_word w))%nat.
Proof. destruct w as [opc [d|]]; cbn; lia. Qed.

Lemma get_opcode_encode (pre post : bytes) (w : word) :
  wf_word w = true ->
  tools.get_opcode (pre ++ encode_word w ++ post) (length pre)
  = Ok (fst w, snd w, (length pre + length (encode_word w))%nat).
Proof.
  destruct w as [opc [d|]]; unfold wf_word; intros Hwf.
  - apply andb_prop in Hwf as [H0 Hlen]. apply Z.leb_le in H0.
    assert (Hop : 0 <= opc <= 78).
    { unfold OP_PUSHDATA1, OP_PUSHDATA2, OP_PUSHDATA4 in Hlen.
      destruct (opc <? 76) eqn:E1; [apply Z.ltb_lt in E1; lia|].
      destruct (opc =? 76) eqn:E2; [apply Z.eqb_eq in E2; lia|].
      destruct (opc =? 77) eqn:E3; [apply Z.eqb_eq in E3; lia|].
      destruct (opc =? 78) eqn:E4; [apply Z.eqb_eq in E4; lia|discriminate]. }
    unfold tools.get_opcode. rewrite nth_error_app_length. cbn [encode_word app nth_error].
    rewrite byte_to_of_Z by lia.
    replace (opc <=? OP_PUSHDATA4) with true by (symmetry; apply Z.leb_le; unfold OP_PUSHDATA4; lia).
    fold (prefix_width opc).
    set (pfx := tools.le_prefix (length d) (prefix_width opc)).
    assert (Hpfx : length pfx = prefix_width opc) by apply le_prefix_length.
    assert (Hsize : (if opc <? OP_PUSHDATA1 then Z.to_nat opc
                     else Z.to_nat (tools.le_value
                            (firstn (prefix_width opc)
                               (skipn (S (length pre)) (pre ++ byte_of_Z opc :: (pfx ++ d) ++ post)))))
                    = length d).
    { replace (S (length pre)) with (length pre + 1)%nat by lia.
      rewrite skipn_app_length. cbn [skipn].
      rewrite <- Hpfx, <- app_assoc, firstn_app_length. subst pfx.
      unfold prefix_width, OP_PUSHDATA1, OP_PUSHDATA2, OP_PUSHDATA4 in *.
      destruct (opc <? 76) eqn:E1.
      - apply Z.eqb_eq in Hlen. lia.
      - destruct (opc =? 76) eqn:E2;
          [|destruct (opc =? 77) eqn:E3; [|destruct (opc =? 78) eqn:E4; [|discriminate]]];
          apply Z.ltb_lt in Hlen; rewrite le_value_prefix; cbn; lia. }
    rewrite Hsize.
    assert (Hdata : firstn (length d)
                      (skipn (S (length pre) + prefix_width opc)
                         (pre ++ byte_of_Z opc :: (pfx ++ d) ++ post)) = d).
    { replace (S (length pre) + prefix_width opc)%nat
        with (length (pre ++ byte_of_Z opc :: pfx) + 0)%nat
        by (rewrite length_app; cbn [length]; lia).
      replace (pre ++ byte_of_Z opc :: (pfx ++ d) ++ post)
        with ((pre ++ byte_of_Z opc :: pfx) ++ d ++ post)
        by (rewrite <- ?app_assoc; cbn [app]; rewrite <- ?app_assoc; reflexivity).
      rewrite skipn_app_length. cbn [skipn]. apply firstn_app_length. }
    rewrite Hdata, Nat.ltb_irrefl.
    cbn [fst snd]. do 2 f_equal.
    cbn [length]. rewrite length_app. lia.
  - apply andb_prop in Hwf as [H1 H2]. apply Z.ltb_lt in H1. apply Z.leb_le in H2.
    unfold OP_PUSHDATA4 in H1.
    unfold tools.get_opcode. rewrite nth_error_app_length. cbn [encode_word app nth_error].
    rewrite byte_to_of_Z by lia.
    replace (opc <=? OP_PUSHDATA4) with false by (symmetry; apply Z.leb_gt; unfold OP_PUSHDATA4; lia).
    cbn [fst snd length]. do 2 f_equal. lia.
Qed.

(** ** [get_word] on a script made of words *)

Lemma encode_words_cons (w : word) (ws : list word) :
  encode_words (w :: ws) = encode_word w ++ encode_words ws.
Proof. reflexivity. Qed.

Lemma encode_words_length (ws : list word) : (length ws <= length (encode_words ws))%nat.
Proof.
  induction ws as [|w ws IH]; [cbn; lia|].
  rewrite encode_words_cons, length_app. pose proof (encode_word_length w). cbn [length]. lia.
Qed.

Lemma get_word_loop_eq fuel script_bin index pc i last :
  get_word_loop fuel script_bin index pc i last
  = if (pc <? length script_bin)%nat && (i <=? index)%nat then
      match fuel with
      | O => Raise OutOfFuel
      | S fuel' =>
          '(opcode, data, pc') <- tools.get_opcode script_bin pc ;;
          get_word_loop fuel' script_bin index pc' (S i) (Some (opcode, data))
      end
    else Ok (i, last).
Proof. destruct fuel; reflexivity. Qed.

Lemma get_word_loop_found (ws : list word) :
  forall pre post index i last fuel,
    wf_words ws ->
    (length ws <= fuel)%nat ->
    (i <= index)%nat -> (index - i < length ws)%nat ->
    get_word_loop fuel (pre ++ encode_words ws ++ post) index (length pre) i last
    = Ok (S index, nth_error ws (index - i)).
Proof.
  induction ws as [|w ws IH]; intros pre post index i last fuel Hwf Hfuel Hi Hlt.
  - cbn in Hlt. lia.
  - inversion Hwf as [|? ? Hw Hws]; subst.
    rewrite get_word_loop_eq.
    assert (Hpc : (length pre <? length (pre ++ encode_words (w :: ws) ++ post))%nat = true).
    { apply Nat.ltb_lt. rewrite encode_words_cons, !length_app.
      pose proof (encode_word_length w). lia. }
    rewrite Hpc. replace (i <=? index)%nat with true by (symmetry; apply Nat.leb_le; lia).
    cbn [andb]. destruct fuel as [|fuel]; [cbn in Hfuel; lia|].
    rewrite encode_words_cons, <- app_assoc, get_opcode_encode by assumption.
    cbn [bind]. destruct w as [opc d]. cbn [fst snd].
    replace (length pre + length (encode_word (opc, d)))%nat
      with (length (pre ++ encode_word (opc, d))) by (rewrite length_app; reflexivity).
    replace (pre ++ encode_word (opc, d) ++ encode_words ws ++ post)
      with ((pre ++ encode_word (opc, d)) ++ encode_words ws ++ post)
      by (rewrite <- app_assoc; reflexivity).
    destruct (Nat.eq_dec i index) as [->|Hne].
    + rewrite get_word_loop_eq.
      replace (S index <=? index)%nat with false by (symmetry; apply Nat.leb_gt; lia).
      rewrite andb_false_r, Nat.sub_diag. reflexivity.
    + rewrite IH; try assumption; cbn [length] in *; try lia.
      replace (index - i)%nat with (S (index - S i)) by lia. reflexivity.
Qed.

Lemma get_word_loop_exhausted (ws : list word) :
  forall pre index i last fuel,
    wf_words ws ->
    (length ws <= fuel)%nat ->
    (i + length ws <= index)%nat ->
    exists last',
      get_word_loop fuel (pre ++ encode_words ws) index (length pre) i last
      = Ok ((i + length ws)%nat, last').
Proof.
  induction ws as [|w ws IH]; intros pre index i last fuel Hwf Hfuel Hi.
  - exists last. rewrite get_word_loop_eq. cbn [encode_words map concat].
    rewrite app_nil_r, Nat.ltb_irrefl. cbn [andb length]. do 2 f_equal. lia.
  - inversion Hwf as [|? ? Hw Hws]; subst. cbn [length] in *.
    rewrite get_word_loop_eq.
    assert (Hpc : (length pre <? length (pre ++ encode_words (w :: ws)))%nat = true).
    { apply Nat.ltb_lt. rewrite encode_words_cons, !length_app.
      pose proof (encode_word_length w). lia. }
    rewrite Hpc. replace (i <=? index)%nat with true by (symmetry; apply Nat.leb_le; lia).
    cbn [andb]. destruct fuel as [|fuel]; [lia|].
    rewrite encode_words_cons, get_opcode_encode by assumption.
    cbn [bind]. destruct w as [opc d]. cbn [fst snd].
    replace (length pre + length (encode_word (opc, d)))%nat
      with (length (pre ++ encode_word (opc, d))) by (rewrite length_app; reflexivity).
    rewrite app_assoc.
    destruct (IH (pre ++ encode_word (opc, d)) index (S i) (Some (opc, d)) fuel)
      as [last' E]; try assumption; try lia.
    exists last'. rewrite E. do 2 f_equal. lia.
Qed.

Lemma get_word_found (ws : list word) (post : bytes) (k : nat) (w : word) :
  wf_words ws ->
  nth_error ws k = Some w ->
  get_word (encode_words ws ++ post) k
  = Ok (fst w, snd w, tools.disassemble_for_opcode_data (fst w) (snd w)).
Proof.
  intros Hwf Hk. unfold get_word.
  assert (Hlt : (k < length ws)%nat) by (apply nth_error_Some; congruence).
  pose proof (get_word_loop_found ws [] post k 0%nat None
                (length (encode_words ws ++ post)) Hwf) as H.
  cbn [app length] in H. rewrite H.
  - cbn [bind]. rewrite Nat.add_1_r, Nat.eqb_refl. cbn [negb].
    rewrite Nat.sub_0_r, Hk. destruct w; reflexivity.
  - rewrite length_app. pose proof (encode_words_length ws). lia.
  - lia.
  - lia.
Qed.

Lemma get_word_exhausted (ws : list word) (k : nat) :
  wf_words ws ->
  (length ws <= k)%nat ->
  get_word (encode_words ws) k = Raise (ValueError k).
Proof.
  intros Hwf Hk. unfold get_word.
  destruct (get_word_loop_exhausted ws [] k 0%nat None
              (length (encode_words ws)) Hwf) as [last' E].
  - apply encode_words_length.
  - lia.
  - cbn [app length] in E. rewrite E. cbn [bind].
    replace (0 + length ws =? k + 1)%nat with false
      by (symmetry; apply Nat.eqb_neq; lia).
    reflexivity.
Qed.

(** ** [_validate] on scripts made of words *)

Lemma _validate_loop_eq fuel ref_script_bin untrusted_script_bin r_pc u_pc :
  _validate_loop fuel ref_script_bin untrusted_script_bin r_pc u_pc
  = if (r_pc <? length ref_script_bin)%nat
       && (u_pc <? length untrusted_script_bin)%nat then
      match fuel with
      | O => Raise OutOfFuel
      | S fuel' =>
          '(r_opcode, r_data, r_pc') <- tools.get_opcode ref_script_bin r_pc ;;
          '(u_opcode, u_data, u_pc') <- tools.get_opcode untrusted_script_bin u_pc ;;
          if is_placeholder r_data then
            _validate_loop fuel' ref_script_bin untrusted_script_bin r_pc' u_pc'
          else if negb (r_opcode =? u_opcode) || negb (data_eqb r_data u_data) then
            Raise (InvalidScript (b2h untrusted_script_bin))
          else
            _validate_loop fuel' ref_script_bin untrusted_script_bin r_pc' u_pc'
      end
    else Ok (r_pc, u_pc).
Proof. destruct fuel; reflexivity. Qed.

Lemma length_lt_app_word (pre : bytes) (w : word) (rest : bytes) :
  (length pre <? length (pre ++ encode_word w ++ rest))%nat = true.
Proof.
  apply Nat.ltb_lt. rewrite !length_app. pose proof (encode_word_length w). lia.
Qed.

Lemma mismatch_word_eqb (r u : word) :
  negb (fst r =? fst u) || negb (data_eqb (snd r) (snd u)) = negb (word_eqb r u).
Proof. unfold word_eqb. now rewrite negb_andb. Qed.

(** The loop and the final test of [_validate] decide [words_match]. *)
Lemma validate_loop_words (rws : list word) :
  forall uws rpre upre R U fuel,
    R = rpre ++ encode_words rws ->
    U = upre ++ encode_words uws ->
    wf_words rws -> wf_words uws ->
    (length rws <= fuel)%nat ->
    ('(r_pc, u_pc) <- _validate_loop fuel R U (length rpre) (length upre) ;;
     if negb (r_pc =? length R)%nat || negb (u_pc =? length U)%nat
     then Raise (InvalidScript (b2h U))
     else Ok tt)
    = if words_match rws uws then Ok tt else Raise (InvalidScript (b2h U)).
Proof.
  induction rws as [|r rws IH]; intros uws rpre upre R U fuel HR HU Hr Hu Hfuel.
  - rewrite _validate_loop_eq.
    assert (HlenR : length R = length rpre) by (subst R; cbn; now rewrite app_nil_r).
    rewrite HlenR, Nat.ltb_irrefl. cbn [andb bind]. rewrite Nat.eqb_refl. cbn [negb orb].
    destruct uws as [|u uws].
    + subst U. cbn. rewrite app_nil_r, Nat.eqb_refl. reflexivity.
    + cbn [words_match].
      replace (length upre =? length U)%nat with false; [reflexivity|].
      symmetry. apply Nat.eqb_neq. subst U. rewrite encode_words_cons, !length_app.
      pose proof (encode_word_length u). lia.
  - apply Forall_cons_iff in Hr as [Hwr Hwrs].
    destruct uws as [|u uws].
    + rewrite _validate_loop_eq.
      assert (HlenU : length U = length upre) by (subst U; cbn; now rewrite app_nil_r).
      rewrite HlenU, Nat.ltb_irrefl, andb_false_r. cbn [bind words_match].
      replace (length rpre =? length R)%nat with false; [reflexivity|].
      symmetry. apply Nat.eqb_neq. subst R. rewrite encode_words_cons, !length_app.
      pose proof (encode_word_length r). lia.
    + apply Forall_cons_iff in Hu as [Hwu Hwus].
      rewrite _validate_loop_eq.
      rewrite encode_words_cons in HR, HU.
      assert (HltR : (length rpre <? length R)%nat = true)
        by (rewrite HR; apply length_lt_app_word).
      assert (HltU : (length upre <? length U)%nat = true)
        by (rewrite HU; apply length_lt_app_word).
      assert (HgR : tools.get_opcode R (length rpre)
                    = Ok (fst r, snd r, (length rpre + length (encode_word r))%nat))
        by (rewrite HR; now apply get_opcode_encode).
      assert (HgU : tools.get_opcode U (length upre)
                    = Ok (fst u, snd u, (length upre + length (encode_word u))%nat))
        by (rewrite HU; now apply get_opcode_encode).
      rewrite HltR, HltU. cbn [andb].
      destruct fuel as [|fuel]; [cbn in Hfuel; lia|].
      rewrite HgR, HgU. cbn [bind].
      replace (length rpre + length (encode_word r))%nat
        with (length (rpre ++ encode_word r)) by now rewrite length_app.
      replace (length upre + length (encode_word u))%nat
        with (length (upre ++ encode_word u)) by now rewrite length_app.
      cbn [words_match]. cbn [length] in Hfuel.
      destruct (is_placeholder (snd r)) eqn:Hp; cbn [orb andb].
      * apply IH; try assumption; try lia; rewrite <- app_assoc; assumption.
      * rewrite mismatch_word_eqb. destruct (word_eqb r u); cbn [negb].
        -- apply IH; try assumption; try lia; rewrite <- app_assoc; assumption.
        -- reflexivity.
Qed.

Lemma validate_words (rws uws : list word) :
  wf_words rws -> wf_words uws ->
  _validate (b2h (encode_words rws)) (b2h (encode_words uws))
  = if words_match rws uws then Ok tt
    else Raise (InvalidScript (b2h (encode_words uws))).
Proof.
  intros Hr Hu. unfold _validate. rewrite !h2b_b2h. cbn [bind].
  apply (validate_loop_words rws uws [] []); try assumption; try reflexivity.
  apply encode_words_length.
Qed.

(** A matching run of words at the front of both scripts is walked through. *)
Lemma validate_loop_prefix (rws : list word) :
  forall uws rpre upre rrest urest R U fuel,
    R = rpre ++ encode_words rws ++ rrest ->
    U = upre ++ encode_words uws ++ urest ->
    wf_words rws -> wf_words uws ->
    words_match rws uws = true ->
    _validate_loop (length rws + fuel) R U (length rpre) (length upre)
    = _validate_loop fuel R U (length (rpre ++ encode_words rws))
        (length (upre ++ encode_words uws)).
Proof.
  induction rws as [|r rws IH]; intros uws rpre upre rrest urest R U fuel HR HU Hr Hu Hm.
  - destruct uws; [|discriminate]. cbn. now rewrite !app_nil_r.
  - destruct uws as [|u uws]; [discriminate|].
    apply Forall_cons_iff in Hr as [Hwr Hwrs].
    apply Forall_cons_iff in Hu as [Hwu Hwus].
    cbn [words_match] in Hm. apply andb_prop in Hm as [Hacc Hm].
    cbn [length Nat.add]. rewrite _validate_loop_eq.
    rewrite encode_words_cons in HR, HU. rewrite <- !app_assoc in HR, HU.
    assert (HltR : (length rpre <? length R)%nat = true)
      by (rewrite HR; apply length_lt_app_word).
    assert (HltU : (length upre <? length U)%nat = true)
      by (rewrite HU; apply length_lt_app_word).
    assert (HgR : tools.get_opcode R (length rpre)
                  = Ok (fst r, snd r, (length rpre + length (encode_word r))%nat))
      by (rewrite HR; now apply get_opcode_encode).
    assert (HgU : tools.get_opcode U (length upre)
                  = Ok (fst u, snd u, (length upre + length (encode_word u))%nat))
      by (rewrite HU; now apply get_opcode_encode).
    rewrite HltR, HltU. cbn [andb]. rewrite HgR, HgU. cbn [bind].
    replace (length rpre + length (encode_word r))%nat
      with (length (rpre ++ encode_word r)) by now rewrite length_app.
    replace (length upre + length (encode_word u))%nat
      with (length (upre ++ encode_word u)) by now rewrite length_app.
    rewrite !encode_words_cons, !(app_assoc _ (encode_word _)).
    destruct (is_placeholder (snd r)) eqn:Hp; cbn [orb] in Hacc.
    + apply (IH uws _ _ rrest urest); try assumption; rewrite <- app_assoc; assumption.
    + rewrite mismatch_word_eqb, Hacc. cbn [negb].
      apply (IH uws _ _ rrest urest); try assumption; rewrite <- app_assoc; assumption.
Qed.

Lemma get_opcode_cases (script_bin : bytes) (pc : nat) (b : byte) :
  nth_error script_bin pc = Some b ->
  tools.get_opcode script_bin pc = Raise MalformedScript
  \/ exists data pc', tools.get_opcode script_bin pc = Ok (byte_to_Z b, data, pc').
Proof.
  intros Hb. unfold tools.get_opcode. rewrite Hb.
  destruct (byte_to_Z b <=? OP_PUSHDATA4); [|right; eauto].
  cbv zeta.
  match goal with |- context [if ?c then Raise MalformedScript else _] =>
    destruct c; [left; reflexivity|] end.
  right; eauto.
Qed.

(** ** The decoder on any byte string *)

(** Decoding at the end of [pre] is decoding what follows from offset 0. *)
Lemma get_opcode_at (pre tail : bytes) :
  tools.get_opcode (pre ++ tail) (length pre)
  = match tools.get_opcode tail 0 with
    | Ok (opcode, data, pc') => Ok (opcode, data, (length pre + pc')%nat)
    | Raise e => Raise e
    end.
Proof.
  unfold tools.get_opcode. rewrite nth_error_app_length.
  destruct tail as [|b rest]; [reflexivity|]. cbn [nth_error].
  cbv zeta.
  set (w := if byte_to_Z b <? OP_PUSHDATA1 then 0%nat else _).
  replace (S (length pre)) with (length pre + 1)%nat by lia.
  replace (length pre + 1 + w)%nat with (length pre + (1 + w))%nat by lia.
  rewrite !skipn_app_length.
  destruct (byte_to_Z b <=? OP_PUSHDATA4); [|f_equal; f_equal; lia].
  match goal with |- context [if ?c then Raise MalformedScript else _] =>
    destruct c; [reflexivity|] end.
  f_equal. f_equal. lia.
Qed.

Lemma get_opcode_head (b : byte) (rest : bytes) :
  tools.get_opcode (b :: rest) 0
  = if byte_to_Z b <=? OP_PUSHDATA4 then
      let size :=
        Z.to_nat (if byte_to_Z b <? OP_PUSHDATA1 then byte_to_Z b
                  else tools.le_value (firstn (prefix_width (byte_to_Z b)) rest)) in
      let data := firstn size (skipn (prefix_width (byte_to_Z b)) rest) in
      if (length data <? size)%nat then Raise MalformedScript
      else Ok (byte_to_Z b, Some data, (1 + prefix_width (byte_to_Z b) + size)%nat)
    else Ok (byte_to_Z b, None, 1%nat).
Proof.
  unfold tools.get_opcode. cbn [nth_error]. cbv zeta. fold (prefix_width (byte_to_Z b)).
  destruct (byte_to_Z b <=? OP_PUSHDATA4); [|reflexivity].
  cbn [skipn Nat.add].
  destruct (byte_to_Z b <? OP_PUSHDATA1); reflexivity.
Qed.

Lemma le_value_nonneg (bs : bytes) : 0 <= tools.le_value bs.
Proof.
  induction bs as [|b bs IH]; cbn [tools.le_value]; [lia|].
  pose proof (byte_to_Z_range b). lia.
Qed.

Lemma firstn_short {A} (n : nat) (l : list A) :
  (length (firstn n l) <? n)%nat = (length l <? n)%nat.
Proof.
  rewrite length_firstn.
  destruct (Nat.ltb_spec (length l) n) as [H|H].
  - apply Nat.ltb_lt. lia.
  - apply Nat.ltb_ge. lia.
Qed.

Lemma short_push_spec (b : byte) (rest : bytes) :
  short_push (b :: rest)
  = (byte_to_Z b <=? OP_PUSHDATA4)
    && (let size :=
          Z.to_nat (if byte_to_Z b <? OP_PUSHDATA1 then byte_to_Z b
                    else tools.le_value (firstn (prefix_width (byte_to_Z b)) rest)) in
        (length (firstn size (skipn (prefix_width (byte_to_Z b)) rest)) <? size)%nat).
Proof.
  unfold short_push. cbv zeta. f_equal. rewrite firstn_short.
  pose proof (byte_to_Z_range b) as Hb.
  set (sz := if byte_to_Z b <? OP_PUSHDATA1 then byte_to_Z b else _).
  assert (Hsz : 0 <= sz).
  { subst sz. destruct (byte_to_Z b <? OP_PUSHDATA1); [lia | apply le_value_nonneg]. }
  destruct (Nat.ltb_spec (length (skipn (prefix_width (byte_to_Z b)) rest)) (Z.to_nat sz))
    as [H|H].
  - apply Z.ltb_lt. lia.
  - apply Z.ltb_ge. lia.
Qed.

(** The decoder raises exactly on a push that announces more data than
    there is. *)
Lemma get_opcode_short (tail : bytes) :
  short_push tail = true -> tools.get_opcode tail 0 = Raise MalformedScript.
Proof.
  destruct tail as [|b rest]; [discriminate|].
  rewrite short_push_spec, get_opcode_head. cbv zeta. intros H.
  apply andb_prop in H as [H1 H2]. now rewrite H1, H2.
Qed.

Lemma get_opcode_not_short (b : byte) (rest : bytes) :
  short_push (b :: rest) = false ->
  exists data pc', tools.get_opcode (b :: rest) 0 = Ok (byte_to_Z b, data, pc').
Proof.
  rewrite short_push_spec, get_opcode_head. cbv zeta. intros H.
  destruct (byte_to_Z b <=? OP_PUSHDATA4); [|eauto].
  cbn [andb] in H. rewrite H. eauto.
Qed.

Lemma is_pushdata_width (b : byte) :
  is_pushdata b = true -> (1 <= prefix_width (byte_to_Z b))%nat.
Proof.
  unfold is_pushdata. intros Hb. apply andb_prop in Hb as [Hb1 Hb2].
  apply Z.leb_le in Hb1. unfold prefix_width.
  replace (byte_to_Z b <? OP_PUSHDATA1) with false by (symmetry; apply Z.ltb_ge; lia).
  destruct (byte_to_Z b =? OP_PUSHDATA1); [lia|].
  destruct (byte_to_Z b =? OP_PUSHDATA2); lia.
Qed.

(** OP_PUSHDATA1/2/4 as the last byte of a script is read as a push of the
    empty byte string; the next offset lies past the end. *)
Lemma get_opcode_pushdata_end (b : byte) :
  is_pushdata b = true ->
  tools.get_opcode [b] 0
  = Ok (byte_to_Z b, Some [], (1 + prefix_width (byte_to_Z b))%nat).
Proof. destruct b; intros H; vm_compute in H |- *; first [discriminate H | reflexivity]. Qed.


(** ** Splitting the formatted template into tokens *)

Lemma append_nil_r (s : string) : s +++ "" = s.
Proof. induction s; cbn; [reflexivity | now f_equal]. Qed.

Lemma append_assoc (a b c : string) : (a +++ b) +++ c = a +++ b +++ c.
Proof. induction a; cbn; [reflexivity | now f_equal]. Qed.

Lemma append_length (a b : string) :
  String.length (a +++ b) = (String.length a + String.length b)%nat.
Proof. induction a; cbn; [reflexivity | now f_equal]. Qed.

Lemma split_aux_ends (s1 : string) :
  forall cur s2,
    ends_with_space s1 = true ->
    tools.split_aux (s1 +++ s2) cur = tools.split_aux s1 cur ++ tools.split_aux s2 "".
Proof.
  induction s1 as [|c s1 IH]; intros cur s2 He; [discriminate|].
  destruct s1 as [|c' s1'].
  - cbn in He. cbn. rewrite He. cbn. now rewrite app_nil_r.
  - change (ends_with_space (String c (String c' s1')))
      with (ends_with_space (String c' s1')) in He.
    cbn [String.append tools.split_aux] in *.
    destruct (tools.is_space c).
    + rewrite <- app_assoc. f_equal. now apply IH.
    + now apply IH.
Qed.

Lemma split_aux_starts (s1 : string) :
  forall cur s2,
    starts_with_space s2 = true ->
    tools.split_aux (s1 +++ s2) cur = tools.split_aux s1 cur ++ tools.split_aux s2 "".
Proof.
  induction s1 as [|c s1 IH]; intros cur s2 Hs.
  - destruct s2 as [|c s2]; [discriminate|]. cbn in Hs. cbn. now rewrite Hs.
  - cbn [String.append tools.split_aux].
    destruct (tools.is_space c).
    + rewrite <- app_assoc. f_equal. now apply IH.
    + now apply IH.
Qed.

Lemma split_aux_token (a : string) :
  forall cur, no_space a = true -> tools.split_aux a cur = tools.flush (cur +++ a).
Proof.
  induction a as [|c a IH]; intros cur Hn.
  - cbn. now rewrite append_nil_r.
  - cbn in Hn. apply andb_prop in Hn as [Hc Hn]. apply negb_true_iff in Hc.
    cbn [tools.split_aux]. rewrite Hc, IH by assumption.
    now rewrite append_assoc.
Qed.

Lemma split_ends (s1 s2 : string) :
  ends_with_space s1 = true ->
  tools.split (s1 +++ s2) = tools.split s1 ++ tools.split s2.
Proof. apply split_aux_ends. Qed.

Lemma split_starts (s1 s2 : string) :
  starts_with_space s2 = true ->
  tools.split (s1 +++ s2) = tools.split s1 ++ tools.split s2.
Proof. apply split_aux_starts. Qed.

Lemma split_token (a : string) :
  no_space a = true -> a <> "" -> tools.split a = [a].
Proof.
  intros Hn Ha. unfold tools.split. rewrite split_aux_token by assumption.
  cbn. destruct a; [contradiction | reflexivity].
Qed.

Lemma compile_tokens_app (ts1 ts2 : list string) :
  tools.compile_tokens (ts1 ++ ts2)
  = (b1 <- tools.compile_tokens ts1 ;; b2 <- tools.compile_tokens ts2 ;; Ok (b1 ++ b2)).
Proof.
  induction ts1 as [|t ts1 IH]; cbn [app tools.compile_tokens bind].
  - destruct (tools.compile_tokens ts2); reflexivity.
  - destruct (tools.compile_token t) as [b|e]; cbn [bind]; [|reflexivity].
    rewrite IH. destruct (tools.compile_tokens ts1) as [b1|e]; cbn [bind]; [|reflexivity].
    destruct (tools.compile_tokens ts2) as [b2|e]; cbn [bind]; [|reflexivity].
    now rewrite app_assoc.
Qed.

(** ** The assembler on the hex of a field *)

Lemma assoc_name_In (tbl : list (string * Z)) (name : string) (v : Z) :
  assoc_name tbl name = Some v -> In (name, v) tbl.
Proof.
  induction tbl as [|[n x] tbl IH]; cbn; [discriminate|].
  destruct (String.eqb n name) eqn:E.
  - apply String.eqb_eq in E. intros [= ->]. left. now subst.
  - intros H. right. now apply IH.
Qed.

Lemma opcode_names_short :
  forallb (fun e => (String.length (fst e) <=? 22)%nat) OPCODE_LIST = true.
Proof. vm_compute. reflexivity. Qed.

Lemma OPCODE_TO_INT_long (name : string) :
  (22 < String.length name)%nat -> OPCODE_TO_INT name = None.
Proof.
  intros Hlen. unfold OPCODE_TO_INT.
  destruct (assoc_name OPCODE_LIST name) as [v|] eqn:E; [|reflexivity].
  apply assoc_name_In in E.
  pose proof opcode_names_short as Hs. rewrite forallb_forall in Hs.
  specialize (Hs _ E). cbn in Hs. apply Nat.leb_le in Hs. lia.
Qed.

Lemma digit_value_range (c : ascii) (d : Z) :
  tools.digit_value c = Some d -> 0 <= d <= 9.
Proof.
  unfold tools.digit_value.
  destruct ((48 <=? Z.of_N (N_of_ascii c)) && (Z.of_N (N_of_ascii c) <=? 57)) eqn:E;
    [|discriminate].
  intros [= <-]. apply andb_prop in E as [E1 E2].
  apply Z.leb_le in E1. apply Z.leb_le in E2. lia.
Qed.

Lemma digit_value_zero (c : ascii) :
  tools.digit_value c = Some 0 -> Ascii.eqb "0" c = true.
Proof.
  unfold tools.digit_value.
  destruct ((48 <=? Z.of_N (N_of_ascii c)) && (Z.of_N (N_of_ascii c) <=? 57)) eqn:E;
    [|discriminate].
  intros [= H]. assert (Hc : N_of_ascii c = 48%N) by lia.
  apply Ascii.eqb_eq. rewrite <- (ascii_N_embedding c), Hc. reflexivity.
Qed.

Lemma parse_digits_step (c : ascii) (s : string) (acc : Z) :
  c <> "_"%char ->
  tools.parse_digits (String c s) acc
  = match tools.digit_value c with
    | Some d => tools.parse_digits s (10 * acc + d)
    | None => None
    end.
Proof.
  intros Hc. cbn [tools.parse_digits].
  destruct (tools.digit_value c); [reflexivity|].
  destruct (Ascii.eqb_spec c "_"); [contradiction | reflexivity].
Qed.

(** Without underscores, every character is a digit of the number. *)
Lemma parse_digits_lower (s : string) :
  forall acc v,
    0 <= acc ->
    (forall n, String.get n s <> Some "_"%char) ->
    tools.parse_digits s acc = Some v ->
    acc * 10 ^ Z.of_nat (String.length s) <= v.
Proof.
  induction s as [|c s IH]; intros acc v Hacc Hu H.
  - cbn in *. injection H as <-. lia.
  - rewrite parse_digits_step in H
      by (intros ->; exact (Hu 0%nat eq_refl)).
    destruct (tools.digit_value c) as [d|] eqn:Ed; [|discriminate].
    apply digit_value_range in Ed.
    apply IH in H; [|lia|intros n; exact (Hu (S n))].
    cbn [String.length]. rewrite Nat2Z.inj_succ, Z.pow_succ_r by lia.
    assert (0 < 10 ^ Z.of_nat (String.length s)) by (apply Z.pow_pos_nonneg; lia).
    nia.
Qed.

Lemma parse_digits_big (c : ascii) (s : string) (v : Z) :
  (20 <= String.length s)%nat ->
  (forall n, String.get n (String c s) <> Some "_"%char) ->
  Ascii.eqb "0" c = false ->
  tools.parse_digits (String c s) 0 = Some v ->
  0xffffffffffffffff < v.
Proof.
  intros Hlen Hu Hc H.
  rewrite parse_digits_step in H by (intros ->; exact (Hu 0%nat eq_refl)).
  destruct (tools.digit_value c) as [d|] eqn:Ed; [|discriminate].
  assert (Hd : 1 <= d).
  { pose proof (digit_value_range _ _ Ed).
    destruct (Z.eq_dec d 0) as [->|]; [|lia].
    apply digit_value_zero in Ed. congruence. }
  apply parse_digits_lower in H; [|lia|intros n; exact (Hu (S n))].
  assert (10 ^ 20 <= 10 ^ Z.of_nat (String.length s))
    by (apply Z.pow_le_mono_r; lia).
  change (10 ^ 20) with 100000000000000000000 in *. nia.
Qed.

Lemma hex_digits_no_underscore (b : byte) :
  hex_digit (byte_to_Z b / 16) <> "_"%char
  /\ hex_digit (byte_to_Z b mod 16) <> "_"%char.
Proof. destruct b; split; discriminate. Qed.

Lemma b2h_no_underscore (d : bytes) :
  forall n, String.get n (b2h d) <> Some "_"%char.
Proof.
  induction d as [|b d IH]; intros n; [destruct n; discriminate|].
  destruct (hex_digits_no_underscore b) as [H1 H2].
  cbn [b2h]. destruct n as [|[|n]]; cbn [String.get].
  - intros [= E]. now apply H1.
  - intros [= E]. now apply H2.
  - apply IH.
Qed.

Lemma b2h_head_facts (b : byte) (rest : string) :
  let t := String (hex_digit (byte_to_Z b / 16))
             (String (hex_digit (byte_to_Z b mod 16)) rest) in
  tools.is_char "[" (tools.first_char t) = false
  /\ tools.is_char "'" (tools.first_char t) = false
  /\ String.prefix "0x" t = false
  /\ tools.py_int t = tools.parse_digits t 0
  /\ no_space (String (hex_digit (byte_to_Z b / 16))
                 (String (hex_digit (byte_to_Z b mod 16)) "")) = true.
Proof. destruct b; repeat split; reflexivity. Qed.

Lemma no_space_b2h (d : bytes) : no_space (b2h d) = true.
Proof.
  induction d as [|b d IH]; [reflexivity|].
  cbn [b2h]. pose proof (b2h_head_facts b "") as (_ & _ & _ & _ & H).
  cbn [no_space] in *. rewrite IH.
  apply andb_prop in H as [H1 H2]. apply andb_prop in H2 as [H2 _].
  now rewrite H1, H2.
Qed.

Lemma compile_expression_b2h (d : bytes) :
  (11 <= length d)%nat -> tools.compile_expression (b2h d) = Ok d.
Proof.
  intros Hlen. destruct d as [|b d]; [cbn in Hlen; lia|].
  unfold tools.compile_expression.
  pose proof (b2h_head_facts b (b2h d)) as (H1 & H2 & _ & H4 & _).
  cbn [b2h]. cbv zeta in H1, H2, H4. rewrite H1, H2, H4. cbn [andb].
  set (t := String _ _).
  assert (Hint : match tools.parse_digits t 0 with
                 | Some t0 =>
                     if (Z.abs t0 <=? 0xffffffffffffffff)
                        && negb (tools.is_char "0" (tools.first_char t))
                     then Some (tools.int_to_script_bytes t0) else None
                 | None => None
                 end = None).
  { destruct (tools.parse_digits t 0) as [v|] eqn:E; [|reflexivity].
    subst t. cbn [tools.first_char tools.is_char].
    destruct (Ascii.eqb "0" (hex_digit (byte_to_Z b / 16))) eqn:E0;
      [now rewrite andb_false_r|].
    apply parse_digits_big in E; try assumption.
    - replace (Z.abs v <=? 0xffffffffffffffff) with false; [reflexivity|].
      symmetry. apply Z.leb_gt. lia.
    - cbn [String.length]. rewrite b2h_length. cbn [length] in Hlen. lia.
    - exact (b2h_no_underscore (b :: d)). }
  rewrite Hint.
  change t with (b2h (b :: d)). rewrite unhexlify_b2h. reflexivity.
Qed.

Lemma write_push_data_direct (d : bytes) :
  (2 <= length d <= 75)%nat -> tools.write_push_data d = encode_word (push d).
Proof.
  intros Hlen. destruct d as [|b1 [|b2 d]]; cbn [length] in Hlen; try lia.
  unfold tools.write_push_data, push, encode_word.
  set (l := b1 :: b2 :: d) in *.
  replace (Z.of_nat (length l) <=? 255) with true
    by (symmetry; apply Z.leb_le; subst l; cbn [length]; lia).
  replace (75 <? Z.of_nat (length l)) with false
    by (symmetry; apply Z.ltb_ge; subst l; cbn [length]; lia).
  unfold prefix_width, OP_PUSHDATA1.
  replace (Z.of_nat (length l) <? 76) with true
    by (symmetry; apply Z.ltb_lt; subst l; cbn [length]; lia).
  unfold tools.le_prefix. cbn [seq map app]. now rewrite Z.div_1_r.
Qed.

Lemma wf_push (d : bytes) : (length d <= 75)%nat -> wf_word (push d) = true.
Proof.
  intros Hlen. unfold wf_word, push, OP_PUSHDATA1.
  replace (Z.of_nat (length d) <? 76) with true by (symmetry; apply Z.ltb_lt; lia).
  rewrite Z.eqb_refl. replace (0 <=? Z.of_nat (length d)) with true; [reflexivity|].
  symmetry. apply Z.leb_le. lia.
Qed.

Lemma compile_token_b2h (d : bytes) :
  (12 <= length d <= 75)%nat ->
  tools.compile_token (b2h d) = Ok (encode_word (push d)).
Proof.
  intros Hlen. unfold tools.compile_token.
  rewrite OPCODE_TO_INT_long by (rewrite b2h_length; lia).
  rewrite OPCODE_TO_INT_long
    by (rewrite append_length, b2h_length; cbn [String.length]; lia).
  destruct d as [|b d]; [cbn in Hlen; lia|].
  pose proof (b2h_head_facts b (b2h d)) as (_ & _ & H3 & _).
  cbv zeta in H3. cbn [b2h]. rewrite H3.
  change (String _ (String _ (b2h d))) with (b2h (b :: d)).
  rewrite compile_expression_b2h by lia. cbn [bind].
  now rewrite write_push_data_direct by lia.
Qed.


Lemma format_starts (tpl : list piece) (kw : list (string * string)) (s' r : string) :
  starts_with_space s' = true ->
  format (Lit s' :: tpl) kw = Ok r ->
  starts_with_space r = true.
Proof.
  intros Hs. cbn [format].
  destruct (format tpl kw) as [r'|]; cbn [bind]; [|discriminate].
  intros [= <-]. destruct s'; [discriminate | exact Hs].
Qed.

Lemma split_format (tpl : list piece) (kw : list (string * string)) :
  forall s,
    spaced tpl = true ->
    Forall (fun e => is_token (snd e)) kw ->
    format tpl kw = Ok s ->
    tools.split s = template_tokens tpl kw.
Proof.
  assert (Hkw : forall name v, Forall (fun e => is_token (snd e)) kw ->
                               assoc_str kw name = Some v -> is_token v).
  { intros name v Hf. induction Hf as [|[n x] kw' Hx _ IH]; cbn; [discriminate|].
    destruct (String.eqb n name); [intros [= <-]; exact Hx | exact IH]. }
  induction tpl as [|p tpl IH]; intros s Hsp Hf Hfmt.
  - cbn in Hfmt. injection Hfmt as <-. reflexivity.
  - destruct p as [lit|name].
    + cbn [format] in Hfmt.
      destruct (format tpl kw) as [r|] eqn:Er; cbn [bind] in Hfmt; [|discriminate].
      injection Hfmt as <-. cbn [spaced] in Hsp. apply andb_prop in Hsp as [Hb Hsp].
      cbn [template_tokens]. rewrite <- (IH r Hsp Hf eq_refl).
      destruct tpl as [|[lit'|name'] tpl'].
      * cbn in Er. injection Er as <-. rewrite append_nil_r.
        change (tools.split "") with (@nil string). now rewrite app_nil_r.
      * apply orb_prop in Hb as [Hb|Hb]; [now apply split_ends|].
        apply split_starts. eapply format_starts; eassumption.
      * now apply split_ends.
    + cbn [format] in Hfmt. cbn [template_tokens].
      destruct (assoc_str kw name) as [v|] eqn:Ev; [|discriminate].
      destruct (format tpl kw) as [r|] eqn:Er; cbn [bind] in Hfmt; [|discriminate].
      injection Hfmt as <-. cbn [spaced] in Hsp. apply andb_prop in Hsp as [Hb Hsp].
      destruct (Hkw _ _ Hf Ev) as [Hns Hne].
      rewrite <- (IH r Hsp Hf eq_refl).
      destruct tpl as [|[lit'|name'] tpl'].
      * cbn in Er. injection Er as <-. rewrite append_nil_r.
        change (tools.split "") with (@nil string). now rewrite split_token.
      * rewrite split_starts by (eapply format_starts; eassumption).
        now rewrite split_token.
      * discriminate.
Qed.

(** ** The word of a sequence value *)

Lemma all_from_spec (f : Z -> bool) (n : nat) :
  forall z, all_from f n z = true ->
            forall t, z <= t < z + Z.of_nat n -> f t = true.
Proof.
  induction n as [|n IH]; intros z H t Ht; [lia|].
  cbn [all_from] in H. apply andb_prop in H as [Hz H].
  destruct (Z.eq_dec t z) as [->|Hne]; [assumption|].
  apply (IH (z + 1)); [assumption | lia].
Qed.

Lemma time_tokens_checked : all_from time_token_ok (Z.to_nat 65536) 0 = true.
Proof. vm_compute. reflexivity. Qed.

Lemma parse_sequence_value_dis (opcode : Z) (data : option bytes) (d1 d2 : string) (v : Z) :
  _parse_sequence_value opcode data d1 = Ok v ->
  _parse_sequence_value opcode data d2 = Ok v.
Proof.
  unfold _parse_sequence_value.
  destruct (if opcode =? 0 then _ else _) as [[value|]|]; cbn [bind]; try discriminate.
  destruct (negb _); [discriminate | trivial].
Qed.

Lemma time_token_facts (t : Z) :
  0 <= t <= 0xFFFF ->
  tools.compile_token (str_of_Z t) = Ok (encode_word (time_word t))
  /\ wf_word (time_word t) = true
  /\ (forall dis, _parse_sequence_value (fst (time_word t)) (snd (time_word t)) dis = Ok t)
  /\ is_token (str_of_Z t).
Proof.
  intros Ht.
  pose proof (all_from_spec _ _ _ time_tokens_checked t) as H.
  specialize (H ltac:(lia)). unfold time_token_ok in H. cbv zeta in H.
  destruct (tools.compile_token (str_of_Z t)) as [b|]; [|discriminate].
  repeat (apply andb_prop in H as [H ?]).
  repeat split.
  - unfold bytes_eqb in H. destruct (list_eq_dec _ b _); [now subst | discriminate].
  - assumption.
  - intros dis.
    destruct (_parse_sequence_value _ _ "") as [v|] eqn:E; [|discriminate].
    match goal with Hv : (v =? t) = true |- _ => apply Z.eqb_eq in Hv; subst v end.
    eapply parse_sequence_value_dis; eassumption.
  - assumption.
  - match goal with Hn : negb (String.eqb _ "") = true |- _ =>
      apply negb_true_iff, String.eqb_neq in Hn; exact Hn end.
Qed.


(** ** The compiled scripts as lists of words *)

Ltac eval_tokens :=
  repeat match goal with
  | |- context [tools.compile_token ?t] =>
      let r := eval vm_compute in (tools.compile_token t) in
      change (tools.compile_token t) with r
  end.

Lemma compile_deposit_tokens (a b c d : string) (wa wb wc wd : word) :
  is_token a -> is_token b -> is_token c -> is_token d ->
  tools.compile_token a = Ok (encode_word wa) ->
  tools.compile_token b = Ok (encode_word wb) ->
  tools.compile_token c = Ok (encode_word wc) ->
  tools.compile_token d = Ok (encode_word wd) ->
  compile_deposit_script a b c (StrArg d)
  = Ok (b2h (encode_words (deposit_words wa wb wc wd))).
Proof.
  intros Ta Tb Tc Td Ha Hb Hc Hd. unfold compile_deposit_script. cbn [str].
  destruct (format DEPOSIT_SCRIPT _) as [s|e] eqn:E; [|vm_compute in E; discriminate].
  cbn [bind]. unfold tools.compile.
  rewrite (fun H => split_format DEPOSIT_SCRIPT _ s eq_refl H E)
    by (repeat (apply Forall_cons; [assumption|]); apply Forall_nil).
  change (template_tokens DEPOSIT_SCRIPT _)
    with ["OP_IF"; "2"; a; b; "2"; "OP_CHECKMULTISIG"; "OP_ELSE"; "OP_IF";
          "OP_HASH160"; c; "OP_EQUALVERIFY"; a; "OP_CHECKSIG"; "OP_ELSE"; d;
          "OP_NOP3"; "OP_DROP"; a; "OP_CHECKSIG"; "OP_ENDIF"; "OP_ENDIF"].
  cbn [tools.compile_tokens]. rewrite Ha, Hb, Hc, Hd. eval_tokens.
  cbn [bind]. reflexivity.
Qed.

Lemma compile_commit_tokens (a b c r d : string) (wa wb wc wr wd : word) :
  is_token a -> is_token b -> is_token c -> is_token r -> is_token d ->
  tools.compile_token a = Ok (encode_word wa) ->
  tools.compile_token b = Ok (encode_word wb) ->
  tools.compile_token c = Ok (encode_word wc) ->
  tools.compile_token r = Ok (encode_word wr) ->
  tools.compile_token d = Ok (encode_word wd) ->
  compile_commit_script a b c r (StrArg d)
  = Ok (b2h (encode_words (commit_words wa wb wc wr wd))).
Proof.
  intros Ta Tb Tc Tr Td Ha Hb Hc Hr Hd. unfold compile_commit_script. cbn [str].
  destruct (format COMMIT_SCRIPT _) as [s|e] eqn:E; [|vm_compute in E; discriminate].
  cbn [bind]. unfold tools.compile.
  rewrite (fun H => split_format COMMIT_SCRIPT _ s eq_refl H E)
    by (repeat (apply Forall_cons; [assumption|]); apply Forall_nil).
  change (template_tokens COMMIT_SCRIPT _)
    with ["OP_IF"; d; "OP_NOP3"; "OP_DROP"; "OP_HASH160"; c; "OP_EQUALVERIFY";
          b; "OP_CHECKSIG"; "OP_ELSE"; "OP_HASH160"; r; "OP_EQUALVERIFY"; a;
          "OP_CHECKSIG"; "OP_ENDIF"].
  cbn [tools.compile_tokens]. rewrite Ha, Hb, Hc, Hr, Hd. eval_tokens.
  cbn [bind]. reflexivity.
Qed.


Lemma is_token_b2h (d : bytes) : field_ok d -> is_token (b2h d).
Proof.
  intros Hd. split; [apply no_space_b2h|].
  destruct d; [unfold field_ok in Hd; cbn in Hd; lia | discriminate].
Qed.

Lemma is_pubkey_ok (d : bytes) : is_pubkey d -> field_ok d.
Proof. unfold is_pubkey, field_ok. intros [H|H]; rewrite H; lia. Qed.

Lemma is_hash160_ok (d : bytes) : is_hash160 d -> field_ok d.
Proof. unfold is_hash160, field_ok. intros H; rewrite H; lia. Qed.

Lemma wf_op (opcode : Z) : 78 < opcode <= 255 -> wf_word (op opcode) = true.
Proof.
  intros H. unfold wf_word, op, OP_PUSHDATA4.
  apply andb_true_intro. split; [apply Z.ltb_lt | apply Z.leb_le]; lia.
Qed.

Lemma wf_deposit_words (wa wb wc wd : word) :
  wf_word wa = true -> wf_word wb = true -> wf_word wc = true -> wf_word wd = true ->
  wf_words (deposit_words wa wb wc wd).
Proof.
  intros. unfold wf_words, deposit_words.
  repeat (apply Forall_cons; [first [assumption | reflexivity]|]). apply Forall_nil.
Qed.

Lemma wf_commit_words (wa wb wc wr wd : word) :
  wf_word wa = true -> wf_word wb = true -> wf_word wc = true ->
  wf_word wr = true -> wf_word wd = true ->
  wf_words (commit_words wa wb wc wr wd).
Proof.
  intros. unfold wf_words, commit_words.
  repeat (apply Forall_cons; [first [assumption | reflexivity]|]). apply Forall_nil.
Qed.

Lemma compile_deposit_reference :
  compile_deposit_script "deadbeef" "deadbeef" "deadbeef" (StrArg "deadbeef")
  = Ok (b2h (encode_words deposit_reference)).
Proof. vm_compute. reflexivity. Qed.

Lemma compile_commit_reference :
  compile_commit_script "deadbeef" "deadbeef" "deadbeef" "deadbeef" (StrArg "deadbeef")
  = Ok (b2h (encode_words commit_reference)).
Proof. vm_compute. reflexivity. Qed.

Lemma wf_deposit_reference : wf_words deposit_reference.
Proof. apply wf_deposit_words; reflexivity. Qed.

Lemma wf_commit_reference : wf_words commit_reference.
Proof. apply wf_commit_words; reflexivity. Qed.

(** The shape test of the validators, on a script made of words. *)
Lemma validate_deposit_shape_words (uws : list word) :
  wf_words uws ->
  validate_deposit_script_shape (b2h (encode_words uws))
  = if words_match deposit_reference uws then Ok tt
    else Raise (InvalidScript (b2h (encode_words uws))).
Proof.
  intros Hu. unfold validate_deposit_script_shape.
  rewrite compile_deposit_reference. cbn [bind].
  apply validate_words; [apply wf_deposit_reference | assumption].
Qed.

Lemma validate_commit_shape_words (uws : list word) :
  wf_words uws ->
  validate_commit_script_shape (b2h (encode_words uws))
  = if words_match commit_reference uws then Ok tt
    else Raise (InvalidScript (b2h (encode_words uws))).
Proof.
  intros Hu. unfold validate_commit_script_shape.
  rewrite compile_commit_reference. cbn [bind].
  apply validate_words; [apply wf_commit_reference | assumption].
Qed.

Lemma validate_deposit_script_flag (script_hex : string) (flag : bool) :
  validate_deposit_script script_hex flag
  = (_ <- validate_deposit_script_shape script_hex ;;
     if flag then _ <- get_deposit_expire_time script_hex ;; Ok tt else Ok tt).
Proof.
  unfold validate_deposit_script, validate_deposit_script_shape.
  destruct (compile_deposit_script _ _ _ _); reflexivity.
Qed.

Lemma validate_commit_script_flag (script_hex : string) (flag : bool) :
  validate_commit_script script_hex flag
  = (_ <- validate_commit_script_shape script_hex ;;
     if flag then _ <- get_commit_delay_time script_hex ;; Ok tt else Ok tt).
Proof.
  unfold validate_commit_script, validate_commit_script_shape.
  destruct (compile_commit_script _ _ _ _ _); reflexivity.
Qed.

Lemma get_word_words (ws : list word) (k : nat) (w : word) :
  wf_words ws ->
  nth_error ws k = Some w ->
  get_word (encode_words ws) k
  = Ok (fst w, snd w, tools.disassemble_for_opcode_data (fst w) (snd w)).
Proof.
  intros Hwf Hk. rewrite <- (app_nil_r (encode_words ws)). now apply get_word_found.
Qed.

Lemma word_data_hex_words (ws : list word) (k : nat) (w : word) :
  wf_words ws ->
  nth_error ws k = Some w ->
  word_data_hex (b2h (encode_words ws)) k = b2h_data (snd w).
Proof.
  intros Hwf Hk. unfold word_data_hex. rewrite h2b_b2h. cbn [bind].
  rewrite (get_word_words ws k w) by assumption. reflexivity.
Qed.

Section DepositFields.
Variables (payer_pubkey payee_pubkey spend_secret_hash : bytes) (expire_time : Z).
Hypothesis Hpayer : field_ok payer_pubkey.
Hypothesis Hpayee : field_ok payee_pubkey.
Hypothesis Hhash : field_ok spend_secret_hash.
Hypothesis Htime : 0 <= expire_time <= 0xFFFF.

Let ws := deposit_words (push payer_pubkey) (push payee_pubkey)
            (push spend_secret_hash) (time_word expire_time).
Let script_hex := b2h (encode_words ws).

Lemma deposit_compiled :
  compile_deposit_script (b2h payer_pubkey) (b2h payee_pubkey)
    (b2h spend_secret_hash) (IntArg expire_time) = Ok script_hex.
Proof.
  destruct (time_token_facts expire_time Htime) as (Hc & Hw & Hp & Ht).
  apply (compile_deposit_tokens _ _ _ (str_of_Z expire_time));
    try (apply is_token_b2h; assumption); try assumption;
    apply compile_token_b2h; assumption.
Qed.

Lemma deposit_wf : wf_words ws.
Proof.
  destruct (time_token_facts expire_time Htime) as (Hc & Hw & Hp & Ht).
  apply wf_deposit_words; try assumption; apply wf_push;
    unfold field_ok in *; lia.
Qed.

Lemma deposit_shape : validate_deposit_script_shape script_hex = Ok tt.
Proof.
  unfold script_hex. rewrite validate_deposit_shape_words by apply deposit_wf.
  reflexivity.
Qed.

Lemma deposit_expire_time : get_deposit_expire_time script_hex = Ok expire_time.
Proof.
  destruct (time_token_facts expire_time Htime) as (Hc & Hw & Hp & Ht).
  unfold get_deposit_expire_time. rewrite deposit_shape. cbn [bind].
  unfold script_hex. rewrite h2b_b2h. cbn [bind].
  rewrite (get_word_words ws 14 (time_word expire_time)) by (apply deposit_wf || reflexivity).
  cbn [bind]. apply Hp.
Qed.

Lemma deposit_valid : validate_deposit_script script_hex true = Ok tt.
Proof.
  rewrite validate_deposit_script_flag, deposit_shape. cbn [bind].
  now rewrite deposit_expire_time.
Qed.

Lemma deposit_payer_pubkey : get_deposit_payer_pubkey script_hex = Ok (b2h payer_pubkey).
Proof.
  unfold get_deposit_payer_pubkey. rewrite deposit_valid. cbn [bind].
  unfold script_hex.
  now rewrite (word_data_hex_words ws 2 (push payer_pubkey)) by (apply deposit_wf || reflexivity).
Qed.

Lemma deposit_payee_pubkey : get_deposit_payee_pubkey script_hex = Ok (b2h payee_pubkey).
Proof.
  unfold get_deposit_payee_pubkey. rewrite deposit_valid. cbn [bind].
  unfold script_hex.
  now rewrite (word_data_hex_words ws 3 (push payee_pubkey)) by (apply deposit_wf || reflexivity).
Qed.

Lemma deposit_spend_secret_hash :
  get_deposit_spend_secret_hash script_hex = Ok (b2h spend_secret_hash).
Proof.
  unfold get_deposit_spend_secret_hash. rewrite deposit_valid. cbn [bind].
  unfold script_hex.
  now rewrite (word_data_hex_words ws 9 (push spend_secret_hash)) by (apply deposit_wf || reflexivity).
Qed.
End DepositFields.


Section CommitFields.
Variables (payer_pubkey payee_pubkey spend_secret_hash revoke_secret_hash : bytes)
          (delay_time : Z).
Hypothesis Hpayer : field_ok payer_pubkey.
Hypothesis Hpayee : field_ok payee_pubkey.
Hypothesis Hspend : field_ok spend_secret_hash.
Hypothesis Hrevoke : field_ok revoke_secret_hash.
Hypothesis Htime : 0 <= delay_time <= 0xFFFF.

Let ws := commit_words (push payer_pubkey) (push payee_pubkey)
            (push spend_secret_hash) (push revoke_secret_hash)
            (time_word delay_time).
Let script_hex := b2h (encode_words ws).

Lemma commit_compiled :
  compile_commit_script (b2h payer_pubkey) (b2h payee_pubkey)
    (b2h spend_secret_hash) (b2h revoke_secret_hash) (IntArg delay_time)
  = Ok script_hex.
Proof.
  destruct (time_token_facts delay_time Htime) as (Hc & Hw & Hp & Ht).
  apply (compile_commit_tokens _ _ _ _ (str_of_Z delay_time));
    try (apply is_token_b2h; assumption); try assumption;
    apply compile_token_b2h; assumption.
Qed.

Lemma commit_wf : wf_words ws.
Proof.
  destruct (time_token_facts delay_time Htime) as (Hc & Hw & Hp & Ht).
  apply wf_commit_words; try assumption; apply wf_push;
    unfold field_ok in *; lia.
Qed.

Lemma commit_shape : validate_commit_script_shape script_hex = Ok tt.
Proof.
  unfold script_hex. rewrite validate_commit_shape_words by apply commit_wf.
  reflexivity.
Qed.

Lemma commit_delay_time : get_commit_delay_time script_hex = Ok delay_time.
Proof.
  destruct (time_token_facts delay_time Htime) as (Hc & Hw & Hp & Ht).
  unfold get_commit_delay_time. rewrite commit_shape. cbn [bind].
  unfold script_hex. rewrite h2b_b2h. cbn [bind].
  rewrite (get_word_words ws 1 (time_word delay_time)) by (apply commit_wf || reflexivity).
  cbn [bind]. apply Hp.
Qed.

Lemma commit_valid : validate_commit_script script_hex true = Ok tt.
Proof.
  rewrite validate_commit_script_flag, commit_shape. cbn [bind].
  now rewrite commit_delay_time.
Qed.

Lemma commit_payer_pubkey : get_commit_payer_pubkey script_hex = Ok (b2h payer_pubkey).
Proof.
  unfold get_commit_payer_pubkey. rewrite commit_valid. cbn [bind].
  unfold script_hex.
  now rewrite (word_data_hex_words ws 13 (push payer_pubkey)) by (apply commit_wf || reflexivity).
Qed.

Lemma commit_payee_pubkey : get_commit_payee_pubkey script_hex = Ok (b2h payee_pubkey).
Proof.
  unfold get_commit_payee_pubkey. rewrite commit_valid. cbn [bind].
  unfold script_hex.
  now rewrite (word_data_hex_words ws 7 (push payee_pubkey)) by (apply commit_wf || reflexivity).
Qed.

Lemma commit_spend_secret_hash :
  get_commit_spend_secret_hash script_hex = Ok (b2h spend_secret_hash).
Proof.
  unfold get_commit_spend_secret_hash. rewrite commit_valid. cbn [bind].
  unfold script_hex.
  now rewrite (word_data_hex_words ws 5 (push spend_secret_hash)) by (apply commit_wf || reflexivity).
Qed.

Lemma commit_revoke_secret_hash :
  get_commit_revoke_secret_hash script_hex = Ok (b2h revoke_secret_hash).
Proof.
  unfold get_commit_revoke_secret_hash. rewrite commit_valid. cbn [bind].
  unfold script_hex.
  now rewrite (word_data_hex_words ws 11 (push revoke_secret_hash)) by (apply commit_wf || reflexivity).
Qed.
End CommitFields.

(** C1. Compiling a deposit script (resp. a commit script) from well-formed
    fields -- public keys of 33 or 65 bytes, hash160 values of 20 bytes, all
    given as hex, and a time in [0, 0xFFFF] -- and applying each field
    accessor to the compiled script returns the field that was compiled. *)
Theorem template_round_trip
    (payer_pubkey payee_pubkey spend_secret_hash revoke_secret_hash : bytes)
    (expire_time delay_time : Z) :
  is_pubkey payer_pubkey -> is_pubkey payee_pubkey ->
  is_hash160 spend_secret_hash -> is_hash160 revoke_secret_hash ->
  0 <= expire_time <= 0xFFFF -> 0 <= delay_time <= 0xFFFF ->
  (exists deposit_script_hex,
      compile_deposit_script (b2h payer_pubkey) (b2h payee_pubkey)
        (b2h spend_secret_hash) (IntArg expire_time) = Ok deposit_script_hex
      /\ get_deposit_payer_pubkey deposit_script_hex = Ok (b2h payer_pubkey)
      /\ get_deposit_payee_pubkey deposit_script_hex = Ok (b2h payee_pubkey)
      /\ get_deposit_spend_secret_hash deposit_script_hex = Ok (b2h spend_secret_hash)
      /\ get_deposit_expire_time deposit_script_hex = Ok expire_time)
  /\ (exists commit_script_hex,
      compile_commit_script (b2h payer_pubkey) (b2h payee_pubkey)
        (b2h spend_secret_hash) (b2h revoke_secret_hash) (IntArg delay_time)
      = Ok commit_script_hex
      /\ get_commit_payer_pubkey commit_script_hex = Ok (b2h payer_pubkey)
      /\ get_commit_payee_pubkey commit_script_hex = Ok (b2h payee_pubkey)
      /\ get_commit_spend_secret_hash commit_script_hex = Ok (b2h spend_secret_hash)
      /\ get_commit_revoke_secret_hash commit_script_hex = Ok (b2h revoke_secret_hash)
      /\ get_commit_delay_time commit_script_hex = Ok delay_time).
Proof.
  intros Hp1 Hp2 Hh1 Hh2 Ht1 Ht2.
  apply is_pubkey_ok in Hp1, Hp2. apply is_hash160_ok in Hh1, Hh2.
  split; eexists.
  - split; [now apply deposit_compiled|].
    repeat split.
    + now apply deposit_payer_pubkey.
    + now apply deposit_payee_pubkey.
    + now apply deposit_spend_secret_hash.
    + now apply deposit_expire_time.
  - split; [now apply commit_compiled|].
    repeat split.
    + now apply commit_payer_pubkey.
    + now apply commit_payee_pubkey.
    + now apply commit_spend_secret_hash.
    + now apply commit_revoke_secret_hash.
    + now apply commit_delay_time.
Qed.


Lemma template_round_trip_witness :
  is_pubkey sample_pubkey_a /\ is_pubkey sample_pubkey_b
  /\ is_hash160 sample_hash_s /\ is_hash160 sample_hash_r
  /\ 0 <= 1000 <= 0xFFFF /\ 0 <= 0xFFFF <= 0xFFFF
  /\ (exists deposit_script_hex,
      compile_deposit_script (b2h sample_pubkey_a) (b2h sample_pubkey_b)
        (b2h sample_hash_s) (IntArg 1000) = Ok deposit_script_hex
      /\ get_deposit_payer_pubkey deposit_script_hex = Ok (b2h sample_pubkey_a)
      /\ get_deposit_payee_pubkey deposit_script_hex = Ok (b2h sample_pubkey_b)
      /\ get_deposit_spend_secret_hash deposit_script_hex = Ok (b2h sample_hash_s)
      /\ get_deposit_expire_time deposit_script_hex = Ok 1000)
  /\ (exists commit_script_hex,
      compile_commit_script (b2h sample_pubkey_a) (b2h sample_pubkey_b)
        (b2h sample_hash_s) (b2h sample_hash_r) (IntArg 0xFFFF)
      = Ok commit_script_hex
      /\ get_commit_payer_pubkey commit_script_hex = Ok (b2h sample_pubkey_a)
      /\ get_commit_payee_pubkey commit_script_hex = Ok (b2h sample_pubkey_b)
      /\ get_commit_spend_secret_hash commit_script_hex = Ok (b2h sample_hash_s)
      /\ get_commit_revoke_secret_hash commit_script_hex = Ok (b2h sample_hash_r)
      /\ get_commit_delay_time commit_script_hex = Ok 0xFFFF).
Proof.
  assert (Ha : is_pubkey sample_pubkey_a) by (left; reflexivity).
  assert (Hb : is_pubkey sample_pubkey_b) by (left; reflexivity).
  assert (Hs : is_hash160 sample_hash_s) by reflexivity.
  assert (Hr : is_hash160 sample_hash_r) by reflexivity.
  assert (H1 : 0 <= 1000 <= 0xFFFF) by lia.
  assert (H2 : 0 <= 0xFFFF <= 0xFFFF) by lia.
  repeat (split; [assumption|]).
  exact (template_round_trip sample_pubkey_a sample_pubkey_b sample_hash_s
           sample_hash_r 1000 0xFFFF Ha Hb Hs Hr H1 H2).
Defined.


(** ** Sequence values *)


Lemma shiftl_8 (v : Z) : Z.shiftl v 8 = v * 256.
Proof. now rewrite Z.shiftl_mul_pow2 by lia. Qed.

Lemma le_value_snoc (a : bytes) (b : byte) :
  tools.le_value (a ++ [b])
  = tools.le_value a + 256 ^ Z.of_nat (length a) * byte_to_Z b.
Proof.
  induction a as [|x a IH]; cbn [app tools.le_value length].
  - change (256 ^ Z.of_nat 0) with 1. lia.
  - rewrite IH, Nat2Z.inj_succ, Z.pow_succ_r by lia. lia.
Qed.

Lemma shift_in_spec (bs : bytes) :
  forall v, tools.shift_in v bs
            = v * 256 ^ Z.of_nat (length bs) + tools.le_value (rev bs).
Proof.
  induction bs as [|b bs IH]; intros v; cbn [tools.shift_in rev length tools.le_value].
  - change (256 ^ Z.of_nat 0) with 1. lia.
  - rewrite IH, shiftl_8, le_value_snoc, length_rev, Nat2Z.inj_succ, Z.pow_succ_r by lia. lia.
Qed.

Lemma sign_bit_clear (b : byte) :
  byte_to_Z b < 128 ->
  Z.land (byte_to_Z b) 0x7f = byte_to_Z b /\ Z.land (byte_to_Z b) 0x80 = 0.
Proof.
  destruct b; intros H; vm_compute in H |- *;
    first [discriminate H | split; reflexivity].
Qed.

(** A push whose last byte has its top bit clear stands for the plain
    little-endian integer of its bytes. *)
Lemma int_from_script_bytes_le (d : bytes) (i : byte) :
  byte_to_Z i < 128 ->
  tools.int_from_script_bytes (d ++ [i]) = tools.le_value (d ++ [i]).
Proof.
  intros Hi. unfold tools.int_from_script_bytes. rewrite rev_unit.
  destruct (sign_bit_clear i Hi) as [H1 H2]. rewrite H1, H2. cbn [Z.ltb Z.compare].
  rewrite shift_in_spec, length_rev, rev_involutive, le_value_snoc. lia.
Qed.

Lemma sign_bit_taken (b : byte) :
  128 <= byte_to_Z b ->
  Z.land (byte_to_Z b) 0x7f = byte_to_Z b - 128 /\ Z.land (byte_to_Z b) 0x80 = 128.
Proof.
  destruct b; intros H; vm_compute in H |- *;
    first [exfalso; apply H; reflexivity | split; reflexivity].
Qed.

(** A push whose last byte has its top bit set stands for minus the
    little-endian integer of its bytes without that bit. *)
Lemma int_from_script_bytes_sign (d : bytes) (i : byte) :
  128 <= byte_to_Z i ->
  tools.int_from_script_bytes (d ++ [i])
  = - (tools.le_value (d ++ [i]) - 128 * 256 ^ Z.of_nat (length d)).
Proof.
  intros Hi. unfold tools.int_from_script_bytes. rewrite rev_unit.
  destruct (sign_bit_taken i Hi) as [H1 H2]. rewrite H1, H2. cbn [Z.ltb Z.compare].
  rewrite shift_in_spec, length_rev, rev_involutive, le_value_snoc. lia.
Qed.

(** The parser decides by the value the code reads from the word. *)
Lemma parse_sequence_value_decides (opcode : Z) (data : option bytes)
    (disassembled : string) (v : Z) :
  sequence_value (opcode, data) = Some v ->
  _parse_sequence_value opcode data disassembled
  = if (0 <=? v) && (v <=? 0xFFFF) then Ok v
    else Raise (InvalidSequenceValue disassembled).
Proof.
  unfold sequence_value, _parse_sequence_value, MAX_SEQUENCE.
  destruct (opcode =? 0) eqn:E0.
  - intros [= <-]. reflexivity.
  - replace ((0 <? opcode) && (opcode <? 76)) with ((1 <=? opcode) && (opcode <=? 75))
      by (destruct (1 <=? opcode) eqn:A, (opcode <=? 75) eqn:B,
                   (0 <? opcode) eqn:C, (opcode <? 76) eqn:D; try reflexivity; lia).
    replace ((80 <? opcode) && (opcode <? 97)) with ((81 <=? opcode) && (opcode <=? 96))
      by (destruct (81 <=? opcode) eqn:A, (opcode <=? 96) eqn:B,
                   (80 <? opcode) eqn:C, (opcode <? 97) eqn:D; try reflexivity; lia).
    assert (Hfin : forall x, (if negb ((65535 >=? x) && (x >=? 0))
                              then Raise (InvalidSequenceValue disassembled)
                              else Ok x)
                             = if (0 <=? x) && (x <=? 65535) then Ok x
                               else Raise (InvalidSequenceValue disassembled)).
    { intros x. rewrite !Z.geb_leb, andb_comm. now destruct ((0 <=? x) && (x <=? 65535)). }
    destruct ((1 <=? opcode) && (opcode <=? 75)).
    + destruct data as [d|]; [|discriminate]. intros [= <-]. cbn [bind]. apply Hfin.
    + destruct ((81 <=? opcode) && (opcode <=? 96)); [|discriminate].
      intros [= <-]. cbn [bind]. apply Hfin.
Qed.

(** C3, as stated, fails: the parser does not read a direct push as the
    little-endian integer of its bytes but as a script number, whose sign is
    the top bit of the last byte.  The push of [ff ff] is 65535 as a
    little-endian integer, within [0, 0xFFFF], yet the parser reads -32767
    and raises InvalidSequenceValue; the push of [00 00 80] is 0x800000 as a
    little-endian integer, above 0xFFFF, yet the parser reads minus zero and
    returns 0. *)
Lemma sequence_value_not_little_endian :
  sequence_value_as_specified (2, Some [xff; xff]) = Some 65535
  /\ tools.int_from_script_bytes [xff; xff] = -32767
  /\ _parse_sequence_value 2 (Some [xff; xff]) "[ffff]"
     = Raise (InvalidSequenceValue "[ffff]")
  /\ sequence_value_as_specified (3, Some [x00; x00; x80]) = Some 0x800000
  /\ _parse_sequence_value 3 (Some [x00; x00; x80]) "[000080]" = Ok 0.
Proof. repeat split; vm_compute; reflexivity. Qed.

(** C3, amended.  Of a word that stands for a value -- OP_0 for 0, a direct
    push of 1..75 bytes for the little-endian integer of its bytes,
    OP_1..OP_16 for the opcode minus 80 -- the parser returns the value
    exactly when it lies in [0, 0xFFFF] and raises InvalidSequenceValue
    otherwise, 0x10000 and above included, provided the word is not a push
    whose last byte has its top bit set.  Such a push is read as minus the
    integer of its bytes without that bit: the parser returns 0 when that bit
    is the only one set, and raises InvalidSequenceValue otherwise. *)
Theorem parse_sequence_value_range (opcode : Z) (data : option bytes)
    (disassembled : string) (v : Z) :
  sequence_value_as_specified (opcode, data) = Some v ->
  _parse_sequence_value opcode data disassembled
  = if sign_bit_set (opcode, data) then
      if v =? sign_weight (opcode, data) then Ok 0
      else Raise (InvalidSequenceValue disassembled)
    else if (0 <=? v) && (v <=? 0xFFFF) then Ok v
    else Raise (InvalidSequenceValue disassembled).
Proof.
  intros Hv.
  assert (Hcases :
    (sign_bit_set (opcode, data) = false /\ sequence_value (opcode, data) = Some v)
    \/ (sign_bit_set (opcode, data) = true
        /\ sign_weight (opcode, data) <= v
        /\ sequence_value (opcode, data) = Some (- (v - sign_weight (opcode, data))))).
  { unfold sequence_value_as_specified in Hv.
    unfold sign_bit_set, sign_weight, sequence_value. cbn [snd].
    destruct (opcode =? 0) eqn:E0.
    - left. apply Z.eqb_eq in E0. subst opcode.
      split; [destruct data; reflexivity | exact Hv].
    - destruct ((1 <=? opcode) && (opcode <=? 75)) eqn:E1.
      + destruct data as [d|]; [|discriminate]. injection Hv as <-. cbn [andb].
        destruct d as [|b d] using rev_ind; [left; split; reflexivity|].
        rewrite last_last.
        destruct (Z.leb_spec 128 (byte_to_Z b)) as [Hb|Hb].
        * right. split; [reflexivity|].
          rewrite length_app. cbn [length].
          replace (length d + 1 - 1)%nat with (length d) by lia.
          split.
          -- rewrite le_value_snoc. pose proof (le_value_nonneg d).
             assert (0 < 256 ^ Z.of_nat (length d)) by (apply Z.pow_pos_nonneg; lia).
             nia.
          -- now rewrite int_from_script_bytes_sign.
        * left. split; [reflexivity|]. now rewrite int_from_script_bytes_le.
      + left. split; [destruct data; reflexivity | exact Hv]. }
  destruct Hcases as [[Hs Hsv] | (Hs & Hge & Hsv)]; rewrite Hs.
  - now apply parse_sequence_value_decides.
  - rewrite (parse_sequence_value_decides _ _ _ _ Hsv).
    destruct (Z.eqb_spec v (sign_weight (opcode, data))) as [->|Hne].
    + now rewrite Z.sub_diag.
    + replace (0 <=? - (v - sign_weight (opcode, data))) with false
        by (symmetry; apply Z.leb_gt; lia).
      reflexivity.
Qed.

Lemma parse_sequence_value_range_witness :
  sequence_value_as_specified (2, Some [xe8; x03]) = Some 1000
  /\ _parse_sequence_value 2 (Some [xe8; x03]) "[e803]" = Ok 1000
  /\ sequence_value_as_specified (3, Some [x00; x00; x01]) = Some 0x10000
  /\ _parse_sequence_value 3 (Some [x00; x00; x01]) "[000001]"
     = Raise (InvalidSequenceValue "[000001]").
Proof.
  assert (H1 : sequence_value_as_specified (2, Some [xe8; x03]) = Some 1000)
    by reflexivity.
  assert (H2 : sequence_value_as_specified (3, Some [x00; x00; x01]) = Some 0x10000)
    by reflexivity.
  split; [exact H1|].
  split; [exact (parse_sequence_value_range 2 (Some [xe8; x03]) "[e803]" 1000 H1)|].
  split; [exact H2|].
  exact (parse_sequence_value_range 3 (Some [x00; x00; x01]) "[000001]" 0x10000 H2).
Defined.


(** ** Validation against a reference: what a placeholder accepts *)

(** C4, as stated, fails: against the reference [04 deadbeef] (one
    placeholder push) the candidate [ac] (the single opcode OP_CHECKSIG,
    which pushes no data) passes validation, although the rule "accepted
    if and only if it is a data push" rejects it. *)
Lemma placeholder_accepts_non_push :
  _validate (b2h (encode_words [placeholder])) (b2h (encode_words [op 172])) = Ok tt
  /\ b2h (encode_words [placeholder]) = "04deadbeef"
  /\ b2h (encode_words [op 172]) = "ac"
  /\ is_data_push (op 172) = false
  /\ words_match_as_specified [placeholder] [op 172] = false.
Proof. repeat split; vm_compute; reflexivity. Qed.

(** C4, amended.  For a reference and a candidate script made of words,
    [_validate] succeeds exactly when both have the same number of words and,
    position by position, either the reference word is a data push of
    deadbeef -- then the candidate word is accepted whatever it is, a data
    push or not -- or the two words have the same opcode and the same data;
    in every other case it raises InvalidScript. *)
Theorem validate_placeholder_any_word (rws uws : list word) :
  wf_words rws -> wf_words uws ->
  _validate (b2h (encode_words rws)) (b2h (encode_words uws))
  = if words_match rws uws then Ok tt
    else Raise (InvalidScript (b2h (encode_words uws))).
Proof. apply validate_words. Qed.

Lemma validate_placeholder_any_word_witness :
  wf_words [placeholder; op 99] /\ wf_words [op 172; op 99]
  /\ _validate (b2h (encode_words [placeholder; op 99]))
       (b2h (encode_words [op 172; op 99])) = Ok tt.
Proof.
  assert (Hr : wf_words [placeholder; op 99]) by (repeat constructor).
  assert (Hu : wf_words [op 172; op 99]) by (repeat constructor).
  split; [exact Hr|]. split; [exact Hu|].
  exact (validate_placeholder_any_word [placeholder; op 99] [op 172; op 99] Hr Hu).
Defined.

(** ** [get_word] *)

(** The loop walks through the words in front of the one it looks for. *)
Lemma get_word_loop_prefix (ws : list word) :
  forall pre rest index i last fuel,
    wf_words ws ->
    (i + length ws <= index)%nat ->
    exists last',
      get_word_loop (length ws + fuel) (pre ++ encode_words ws ++ rest) index
        (length pre) i last
      = get_word_loop fuel (pre ++ encode_words ws ++ rest) index
          (length (pre ++ encode_words ws)) (i + length ws) last'.
Proof.
  induction ws as [|w ws IH]; intros pre rest index i last fuel Hwf Hi.
  - exists last. cbn [encode_words map concat length Nat.add app].
    rewrite app_nil_r, Nat.add_0_r. reflexivity.
  - inversion Hwf as [|? ? Hw Hws]; subst. cbn [length] in Hi.
    cbn [length Nat.add]. rewrite get_word_loop_eq.
    assert (Hpc : (length pre <? length (pre ++ encode_words (w :: ws) ++ rest))%nat = true).
    { apply Nat.ltb_lt. rewrite encode_words_cons, !length_app.
      pose proof (encode_word_length w). lia. }
    rewrite Hpc. replace (i <=? index)%nat with true by (symmetry; apply Nat.leb_le; lia).
    cbn [andb].
    rewrite encode_words_cons, <- app_assoc, get_opcode_encode by assumption.
    cbn [bind]. destruct w as [opc d]. cbn [fst snd].
    replace (length pre + length (encode_word (opc, d)))%nat
      with (length (pre ++ encode_word (opc, d))) by (rewrite length_app; reflexivity).
    destruct (IH (pre ++ encode_word (opc, d)) rest index (S i) (Some (opc, d)) fuel Hws)
      as [last' E]; [lia|].
    exists last'.
    rewrite <- !app_assoc in E. rewrite E.
    rewrite !(app_assoc pre), <- !app_assoc.
    replace (S i + length ws)%nat with (i + S (length ws))%nat by lia.
    reflexivity.
Qed.

(** [get_word] does not catch the decoder's error. *)
Lemma get_word_short (ws : list word) (tail : bytes) (k : nat) :
  wf_words ws ->
  (length ws <= k)%nat ->
  short_push tail = true ->
  get_word (encode_words ws ++ tail) k = Raise MalformedScript.
Proof.
  intros Hwf Hk Hs. unfold get_word.
  assert (Htail : (1 <= length tail)%nat) by (destruct tail; [discriminate | cbn; lia]).
  pose proof (encode_words_length ws) as Hl.
  set (U := encode_words ws ++ tail).
  assert (HU : length U = (length (encode_words ws) + length tail)%nat)
    by (unfold U; apply length_app).
  replace (length U) with (length ws + S (length U - length ws - 1))%nat by lia.
  destruct (get_word_loop_prefix ws [] tail k 0 None (S (length U - length ws - 1)) Hwf)
    as [last' E]; [lia|].
  cbn [app length Nat.add] in E. fold U in E. rewrite E.
  rewrite get_word_loop_eq.
  replace (length (encode_words ws) <? length U)%nat with true
    by (symmetry; apply Nat.ltb_lt; lia).
  replace (length ws <=? k)%nat with true by (symmetry; apply Nat.leb_le; lia).
  cbn [andb]. unfold U. rewrite get_opcode_at, (get_opcode_short tail Hs). reflexivity.
Qed.

(** A last byte OP_PUSHDATA1/2/4 counts as one more word, a push of the
    empty byte string. *)
Lemma get_word_pushdata_end (ws : list word) (b : byte) (k : nat) :
  wf_words ws ->
  (length ws <= k)%nat ->
  is_pushdata b = true ->
  get_word (encode_words ws ++ [b]) k
  = if (k =? length ws)%nat
    then Ok (byte_to_Z b, Some [],
             tools.disassemble_for_opcode_data (byte_to_Z b) (Some []))
    else Raise (ValueError k).
Proof.
  intros Hwf Hk Hb. unfold get_word.
  pose proof (encode_words_length ws) as Hl.
  set (U := encode_words ws ++ [b]).
  assert (HU : length U = (length (encode_words ws) + 1)%nat)
    by (unfold U; rewrite length_app; reflexivity).
  replace (length U) with (length ws + S (length U - length ws - 1))%nat by lia.
  destruct (get_word_loop_prefix ws [] [b] k 0 None (S (length U - length ws - 1)) Hwf)
    as [last' E]; [lia|].
  cbn [app length Nat.add] in E. fold U in E. rewrite E.
  rewrite get_word_loop_eq.
  replace (length (encode_words ws) <? length U)%nat with true
    by (symmetry; apply Nat.ltb_lt; lia).
  replace (length ws <=? k)%nat with true by (symmetry; apply Nat.leb_le; lia).
  cbn [andb]. unfold U at 1. rewrite get_opcode_at, (get_opcode_pushdata_end b Hb).
  cbn [bind]. rewrite get_word_loop_eq.
  replace (length (encode_words ws) + (1 + prefix_width (byte_to_Z b)) <? length U)%nat
    with false by (symmetry; apply Nat.ltb_ge; lia).
  cbn [andb bind].
  replace (k + 1)%nat with (S k) by lia. cbn [Nat.eqb].
  rewrite (Nat.eqb_sym (length ws) k).
  destruct (k =? length ws)%nat; reflexivity.
Qed.

(** C9, as stated, fails: the byte string [05 aa] (a push that announces
    five bytes, followed by one) holds no complete word, yet [get_word] at
    index 0 does not fail with the out-of-range error: the decoder's error
    comes out. *)
Lemma get_word_truncated :
  get_word [x05; xaa] 0 = Raise MalformedScript
  /\ get_word [x05; xaa] 0 <> Raise (ValueError 0).
Proof. split; [vm_compute; reflexivity | vm_compute; discriminate]. Qed.

(** C9, amended.  For a byte string that starts with the words [ws],
    [get_word] at an index below their number returns that word with its
    disassembly, whatever follows; for a byte string that is exactly the
    words [ws], [get_word] at an index from their number on raises
    ValueError(index), the out-of-range error.  [get_word] does not catch the
    decoder's error: when the words [ws] are followed by a push that announces
    more data than the byte string holds, [get_word] at an index from their
    number on fails with the decoder's error.  When they are followed by a
    last byte OP_PUSHDATA1, OP_PUSHDATA2 or OP_PUSHDATA4 without length
    bytes, the decoder reads it as a push of the empty byte string, which
    [get_word] returns at the index equal to their number; beyond it
    [get_word] raises ValueError(index). *)
Theorem get_word_kth (ws : list word) (post : bytes) (k : nat) :
  wf_words ws ->
  (forall w, nth_error ws k = Some w ->
             get_word (encode_words ws ++ post) k
             = Ok (fst w, snd w, tools.disassemble_for_opcode_data (fst w) (snd w)))
  /\ ((length ws <= k)%nat -> get_word (encode_words ws) k = Raise (ValueError k))
  /\ ((length ws <= k)%nat -> short_push post = true ->
      get_word (encode_words ws ++ post) k = Raise MalformedScript)
  /\ (forall b, (length ws <= k)%nat -> is_pushdata b = true ->
        get_word (encode_words ws ++ [b]) k
        = if (k =? length ws)%nat
          then Ok (byte_to_Z b, Some [],
                   tools.disassemble_for_opcode_data (byte_to_Z b) (Some []))
          else Raise (ValueError k)).
Proof.
  intros Hwf. split; [|split; [|split]].
  - intros w Hk. now apply get_word_found.
  - intros Hk. now apply get_word_exhausted.
  - intros Hk Hs. now apply get_word_short.
  - intros b Hk Hb. now apply get_word_pushdata_end.
Qed.

Lemma get_word_kth_witness :
  wf_words [op 81; push [xe8; x03]; op 104]
  /\ get_word (encode_words [op 81; push [xe8; x03]; op 104] ++ [x05; xaa]) 1
     = Ok (2, Some [xe8; x03], "[e803]")
  /\ get_word (encode_words [op 81; push [xe8; x03]; op 104]) 3
     = Raise (ValueError 3)
  /\ get_word (encode_words [op 81; push [xe8; x03]; op 104] ++ [x05; xaa]) 3
     = Raise MalformedScript
  /\ get_word (encode_words [op 81; push [xe8; x03]; op 104] ++ [x4c]) 3
     = Ok (76, Some [], "OP_PUSHDATA1").
Proof.
  assert (Hwf : wf_words [op 81; push [xe8; x03]; op 104]) by (repeat constructor).
  split; [exact Hwf|].
  destruct (get_word_kth [op 81; push [xe8; x03]; op 104] [x05; xaa] 1 Hwf) as (H1 & _).
  destruct (get_word_kth [op 81; push [xe8; x03]; op 104] [x05; xaa] 3 Hwf)
    as (_ & H2 & H3 & H4).
  split; [exact (H1 (push [xe8; x03]) eq_refl)|].
  split; [apply H2; cbn; lia|].
  split; [apply H3; [cbn; lia | reflexivity]|].
  apply (H4 x4c); [cbn; lia | reflexivity].
Defined.


(** ** A changed byte outside the placeholder slots *)

Lemma encode_words_app (a b : list word) :
  encode_words (a ++ b) = encode_words a ++ encode_words b.
Proof. unfold encode_words. now rewrite map_app, concat_app. Qed.

Lemma wf_words_app (a b : list word) :
  wf_words (a ++ b) <-> wf_words a /\ wf_words b.
Proof. apply Forall_app. Qed.

Lemma wf_word_opcode (w : word) : wf_word w = true -> 0 <= fst w <= 255.
Proof.
  destruct w as [opc [d|]]; unfold wf_word, OP_PUSHDATA1, OP_PUSHDATA2, OP_PUSHDATA4;
    cbn [fst]; intros H; apply andb_prop in H as [H1 H2].
  - apply Z.leb_le in H1.
    destruct (opc <? 76) eqn:E1; [apply Z.ltb_lt in E1; lia|].
    destruct (opc =? 76) eqn:E2; [apply Z.eqb_eq in E2; lia|].
    destruct (opc =? 77) eqn:E3; [apply Z.eqb_eq in E3; lia|].
    destruct (opc =? 78) eqn:E4; [apply Z.eqb_eq in E4; lia|discriminate].
  - apply Z.ltb_lt in H1. apply Z.leb_le in H2. lia.
Qed.

Lemma encode_word_head (w : word) :
  exists tail, encode_word w = byte_of_Z (fst w) :: tail.
Proof. destruct w as [opc [d|]]; cbn; eauto. Qed.

(** A fixed offset is the start of a word whose reference word is no
    placeholder, after a run of accepted words. *)
Lemma fixed_offsets_split (rws : list word) :
  forall uws start p,
    words_match rws uws = true ->
    In p (fixed_offsets start rws uws) ->
    exists rws1 r rws2 uws1 u uws2,
      rws = rws1 ++ r :: rws2 /\ uws = uws1 ++ u :: uws2
      /\ words_match rws1 uws1 = true
      /\ is_placeholder (snd r) = false /\ word_eqb r u = true
      /\ p = (start + length (encode_words uws1))%nat.
Proof.
  induction rws as [|r rws IH]; intros uws start p Hm Hin; [destruct uws; contradiction|].
  destruct uws as [|u uws]; [contradiction|].
  cbn [words_match] in Hm. apply andb_prop in Hm as [Hacc Hm].
  cbn [fixed_offsets] in Hin. apply in_app_or in Hin as [Hin|Hin].
  - destruct (is_placeholder (snd r)) eqn:Hp; [contradiction|].
    destruct Hin as [<-|[]]. cbn [orb] in Hacc.
    exists [], r, rws, [], u, uws. repeat split; try assumption.
    cbn. lia.
  - destruct (IH uws _ p Hm Hin)
      as (rws1 & r' & rws2 & uws1 & u' & uws2 & -> & -> & Hm1 & Hp & He & ->).
    exists (r :: rws1), r', rws2, (u :: uws1), u', uws2.
    repeat split; try assumption.
    + cbn [words_match]. now rewrite Hacc, Hm1.
    + rewrite encode_words_cons, length_app. lia.
Qed.

Lemma set_byte_at (pre : bytes) (x b : byte) (post : bytes) :
  set_byte (pre ++ x :: post) (length pre) b = pre ++ b :: post.
Proof.
  unfold set_byte. rewrite firstn_app_length. f_equal. f_equal.
  replace (S (length pre)) with (length pre + 1)%nat by lia.
  now rewrite skipn_app_length.
Qed.

Lemma word_eqb_fst (r u : word) : word_eqb r u = true -> fst r = fst u.
Proof. unfold word_eqb. intros H. apply andb_prop in H as [H _]. now apply Z.eqb_eq. Qed.

(** The candidate takes a wrong opcode byte where the reference has a
    fixed word, after a run of accepted words: the validation fails there. *)
Lemma validate_wrong_opcode (rws1 : list word) (r : word) (rws2 uws1 : list word)
    (b : byte) (tail : bytes) :
  wf_words rws1 -> wf_word r = true -> wf_words rws2 -> wf_words uws1 ->
  words_match rws1 uws1 = true ->
  is_placeholder (snd r) = false ->
  byte_to_Z b <> fst r ->
  let R := encode_words (rws1 ++ r :: rws2) in
  let U := encode_words uws1 ++ b :: tail in
  _validate (b2h R) (b2h U)
  = match tools.get_opcode U (length (encode_words uws1)) with
    | Ok _ => Raise (InvalidScript (b2h U))
    | Raise e => Raise e
    end.
Proof.
  intros H1 Hr H2 Hu Hm Hp Hb R U.
  assert (HR : R = [] ++ encode_words rws1 ++ encode_word r ++ encode_words rws2)
    by (unfold R; now rewrite encode_words_app, encode_words_cons).
  assert (HU : U = [] ++ encode_words uws1 ++ b :: tail) by reflexivity.
  assert (Hloop : forall n, (length rws1 < n)%nat ->
             _validate_loop n R U 0 0
             = match tools.get_opcode U (length (encode_words uws1)) with
               | Ok _ => Raise (InvalidScript (b2h U))
               | Raise e => Raise e
               end).
  { intros n Hn.
    replace n with (length rws1 + S (n - length rws1 - 1))%nat by lia.
    pose proof (validate_loop_prefix rws1 uws1 [] [] _ _ R U
                  (S (n - length rws1 - 1)) HR HU H1 Hu Hm) as Hpre.
    cbn [app length] in Hpre. rewrite Hpre. clear Hpre.
    rewrite _validate_loop_eq.
    replace (length (encode_words rws1) <? length R)%nat with true
      by (symmetry; apply Nat.ltb_lt; rewrite HR; cbn [app]; rewrite !length_app;
          pose proof (encode_word_length r); lia).
    replace (length (encode_words uws1) <? length U)%nat with true
      by (symmetry; apply Nat.ltb_lt; rewrite HU; cbn [app]; rewrite !length_app;
          cbn [length]; lia).
    cbn [andb].
    assert (HgR : tools.get_opcode R (length (encode_words rws1))
                  = Ok (fst r, snd r,
                        (length (encode_words rws1) + length (encode_word r))%nat))
      by (rewrite HR; cbn [app]; now apply get_opcode_encode).
    rewrite HgR. cbn [bind].
    assert (Hnth : nth_error U (length (encode_words uws1)) = Some b)
      by (rewrite HU; cbn [app]; now rewrite nth_error_app_length).
    destruct (get_opcode_cases U _ b Hnth) as [E | (data & pc' & E)]; rewrite E; cbn [bind].
    - reflexivity.
    - rewrite Hp.
      replace (fst r =? byte_to_Z b) with false
        by (symmetry; apply Z.eqb_neq; congruence).
      reflexivity. }
  unfold _validate. rewrite !h2b_b2h. cbn [bind].
  rewrite Hloop.
  - destruct (tools.get_opcode U _); reflexivity.
  - pose proof (encode_words_length (rws1 ++ r :: rws2)) as Hl. fold R in Hl.
    rewrite length_app in Hl. cbn [length] in Hl. lia.
Qed.

(** Changing the byte at a fixed offset of a script that matches the
    reference makes [_validate] fail. *)
Lemma validate_set_byte (rws uws : list word) (p : nat) (b : byte) :
  wf_words rws -> wf_words uws ->
  words_match rws uws = true ->
  In p (fixed_offsets 0 rws uws) ->
  nth_error (encode_words uws) p <> Some b ->
  let U := set_byte (encode_words uws) p b in
  _validate (b2h (encode_words rws)) (b2h U)
  = match tools.get_opcode U p with
    | Ok _ => Raise (InvalidScript (b2h U))
    | Raise e => Raise e
    end.
Proof.
  intros Hr Hu Hm Hin Hb. cbv zeta.
  destruct (fixed_offsets_split rws uws 0 p Hm Hin)
    as (rws1 & r & rws2 & uws1 & u & uws2 & -> & -> & Hm1 & Hp & He & ->).
  apply wf_words_app in Hr as [Hr1 Hr2]. apply Forall_cons_iff in Hr2 as [Hwr Hr2].
  apply wf_words_app in Hu as [Hu1 Hu2]. apply Forall_cons_iff in Hu2 as [Hwu Hu2].
  destruct (encode_word_head u) as [tail Hh].
  cbn [Nat.add] in *.
  rewrite (encode_words_app uws1 (u :: uws2)), (encode_words_cons u uws2), Hh in Hb.
  rewrite (encode_words_app uws1 (u :: uws2)), (encode_words_cons u uws2), Hh.
  cbn [app] in *.
  rewrite nth_error_app_length in Hb. cbn [nth_error] in Hb.
  rewrite set_byte_at.
  apply validate_wrong_opcode; try assumption.
  intros Hbr. apply Hb. f_equal.
  rewrite <- (word_eqb_fst _ _ He), <- Hbr. apply byte_of_to_Z.
Qed.


(** When the fixed words of the reference are bare opcodes, every byte of a
    matching script is the opcode of a fixed word or lies in a
    placeholder slot. *)
Lemma offsets_cover (rws : list word) :
  forall uws start p,
    fixed_words_bare rws ->
    words_match rws uws = true ->
    (start <= p < start + length (encode_words uws))%nat ->
    In p (fixed_offsets start rws uws) \/ In p (placeholder_offsets start rws uws).
Proof.
  induction rws as [|r rws IH]; intros uws start p Hbare Hm Hp.
  - destruct uws; [cbn in Hp; lia | discriminate].
  - destruct uws as [|u uws]; [discriminate|].
    apply Forall_cons_iff in Hbare as [Hr Hbare].
    cbn [words_match] in Hm. apply andb_prop in Hm as [Hacc Hm].
    rewrite encode_words_cons, length_app in Hp.
    cbn [fixed_offsets placeholder_offsets].
    destruct (Nat.lt_ge_cases p (start + length (encode_word u))) as [Hlt|Hge].
    + destruct (is_placeholder (snd r)) eqn:E.
      * right. apply in_or_app. left. apply in_seq. lia.
      * left. apply in_or_app. left. cbn [orb] in Hacc.
        specialize (Hr eq_refl).
        assert (Hu : snd u = None).
        { unfold word_eqb in Hacc. apply andb_prop in Hacc as [_ Hd].
          rewrite Hr in Hd. destruct (snd u); [discriminate | reflexivity]. }
        destruct u as [opc d]. cbn [snd] in Hu. subst d. cbn [encode_word length] in Hlt.
        left. lia.
    + destruct (IH uws (start + length (encode_word u))%nat p Hbare Hm) as [H|H];
        [lia | left | right]; apply in_or_app; right; exact H.
Qed.

Lemma fixed_not_placeholder_offsets (rws : list word) :
  forall uws start p,
    fixed_words_bare rws ->
    words_match rws uws = true ->
    (p < start + length (encode_words uws))%nat ->
    (start <= p)%nat ->
    ~ In p (placeholder_offsets start rws uws) ->
    In p (fixed_offsets start rws uws).
Proof.
  intros uws start p Hbare Hm Hlt Hge Hn.
  destruct (offsets_cover rws uws start p Hbare Hm) as [H|H]; [lia | exact H | contradiction].
Qed.


Ltac bare_reference :=
  repeat (apply Forall_cons;
          [first [intros _; reflexivity
                 | let H := fresh in intros H; vm_compute in H; discriminate H]|]);
  apply Forall_nil.

Lemma deposit_reference_bare : fixed_words_bare deposit_reference.
Proof. unfold fixed_words_bare, deposit_reference, deposit_words. bare_reference. Qed.

Lemma commit_reference_bare : fixed_words_bare commit_reference.
Proof. unfold fixed_words_bare, commit_reference, commit_words. bare_reference. Qed.

Lemma validate_deposit_changed (uws : list word) (p : nat) (b : byte) :
  wf_words uws ->
  words_match deposit_reference uws = true ->
  (p < length (encode_words uws))%nat ->
  ~ In p (placeholder_offsets 0 deposit_reference uws) ->
  nth_error (encode_words uws) p <> Some b ->
  validate_deposit_script (b2h (set_byte (encode_words uws) p b)) true
  = rejected_at (set_byte (encode_words uws) p b) p.
Proof.
  intros Hwf Hm Hp Hn Hb.
  rewrite validate_deposit_script_flag. unfold validate_deposit_script_shape.
  rewrite compile_deposit_reference. cbn [bind].
  rewrite (validate_set_byte deposit_reference uws p b);
    try assumption; try apply wf_deposit_reference.
  - unfold rejected_at. destruct (tools.get_opcode _ p); reflexivity.
  - apply fixed_not_placeholder_offsets; try assumption; try lia.
    apply deposit_reference_bare.
Qed.

Lemma validate_commit_changed (uws : list word) (p : nat) (b : byte) :
  wf_words uws ->
  words_match commit_reference uws = true ->
  (p < length (encode_words uws))%nat ->
  ~ In p (placeholder_offsets 0 commit_reference uws) ->
  nth_error (encode_words uws) p <> Some b ->
  validate_commit_script (b2h (set_byte (encode_words uws) p b)) true
  = rejected_at (set_byte (encode_words uws) p b) p.
Proof.
  intros Hwf Hm Hp Hn Hb.
  rewrite validate_commit_script_flag. unfold validate_commit_script_shape.
  rewrite compile_commit_reference. cbn [bind].
  rewrite (validate_set_byte commit_reference uws p b);
    try assumption; try apply wf_commit_reference.
  - unfold rejected_at. destruct (tools.get_opcode _ p); reflexivity.
  - apply fixed_not_placeholder_offsets; try assumption; try lia.
    apply commit_reference_bare.
Qed.

Lemma not_in_by_eqb (l : list nat) (p : nat) :
  existsb (Nat.eqb p) l = false -> ~ In p l.
Proof.
  intros H Hin. assert (existsb (Nat.eqb p) l = true); [|congruence].
  apply existsb_exists. exists p. split; [assumption | apply Nat.eqb_refl].
Qed.

Lemma set_byte_length (script_bin : bytes) (p : nat) (b : byte) :
  (p < length script_bin)%nat -> length (set_byte script_bin p b) = length script_bin.
Proof.
  intros Hp. unfold set_byte.
  rewrite length_app, length_firstn. cbn [length]. rewrite length_skipn. lia.
Qed.

(** At an offset inside the script, the decoder raises on a push that
    announces more data than there is and returns a word otherwise. *)
Lemma rejected_at_short (script_bin : bytes) (p : nat) :
  (p < length script_bin)%nat ->
  rejected_at script_bin p
  = if short_push (skipn p script_bin) then Raise MalformedScript
    else Raise (InvalidScript (b2h script_bin)).
Proof.
  intros Hp. unfold rejected_at.
  pose proof (get_opcode_at (firstn p script_bin) (skipn p script_bin)) as E.
  rewrite firstn_skipn, length_firstn, Nat.min_l in E by lia. rewrite E.
  destruct (skipn p script_bin) as [|b rest] eqn:Es.
  - apply (f_equal (@length byte)) in Es. rewrite length_skipn in Es. cbn in Es. lia.
  - destruct (short_push (b :: rest)) eqn:Hs.
    + now rewrite (get_opcode_short _ Hs).
    + destruct (get_opcode_not_short b rest Hs) as (data & pc' & ->). reflexivity.
Qed.

(** C5, as stated, fails: in the deposit script compiled from the sample
    fields and expire time 1000, the last byte is the closing OP_ENDIF, outside
    every placeholder slot; changed to 05 (a push of five bytes, with no byte
    left for it) it makes the validator raise the decoder's error, not
    InvalidScript. *)
Lemma changed_byte_not_invalid_script :
  let ws := deposit_script_words sample_pubkey_a sample_pubkey_b sample_hash_s 1000 in
  let script_bin := encode_words ws in
  let p := (length script_bin - 1)%nat in
  compile_deposit_script (b2h sample_pubkey_a) (b2h sample_pubkey_b)
    (b2h sample_hash_s) (IntArg 1000) = Ok (b2h script_bin)
  /\ nth_error script_bin p = Some x68
  /\ ~ In p (placeholder_offsets 0 deposit_reference ws)
  /\ validate_deposit_script (b2h (set_byte script_bin p x05)) true
     = Raise MalformedScript
  /\ validate_deposit_script (b2h (set_byte script_bin p x05)) true
     <> Raise (InvalidScript (b2h (set_byte script_bin p x05))).
Proof.
  cbv zeta. split; [|split; [|split; [|split]]].
  - vm_compute. reflexivity.
  - vm_compute. reflexivity.
  - apply not_in_by_eqb. vm_compute. reflexivity.
  - vm_compute. reflexivity.
  - vm_compute. discriminate.
Qed.

(** The push opcode of a placeholder word belongs to its slot: the whole
    word of the candidate is left uncompared.  In the deposit script
    compiled from a payer key whose second byte is 41, the push opcode 21 of
    the first key changed to 01 leaves a push of one byte followed by a push
    of 65 bytes, which the two placeholder words of the keys accept: the
    changed script passes the validator. *)
Lemma slot_push_opcode_change_accepted :
  let ws := deposit_script_words sample_pubkey_c sample_pubkey_b sample_hash_s 1000 in
  let script_bin := encode_words ws in
  compile_deposit_script (b2h sample_pubkey_c) (b2h sample_pubkey_b)
    (b2h sample_hash_s) (IntArg 1000) = Ok (b2h script_bin)
  /\ nth_error script_bin 2 = Some x21
  /\ In 2%nat (placeholder_offsets 0 deposit_reference ws)
  /\ validate_deposit_script (b2h (set_byte script_bin 2 x01)) true = Ok tt.
Proof.
  cbv zeta. split; [|split; [|split]].
  - vm_compute. reflexivity.
  - vm_compute. reflexivity.
  - vm_compute. left. reflexivity.
  - vm_compute. reflexivity.
Qed.

(** C5, amended.  A deposit (resp. commit) script compiled from well-formed
    fields and a time in [0, 0xFFFF] passes [validate_deposit_script] (resp.
    [validate_commit_script]); and changing any single byte of it at a
    position outside the placeholder slots -- a slot being a whole placeholder
    word, its push opcode and its data -- makes the validator fail: with the
    decoder's error when the new byte is a push opcode that announces more
    data than the script holds after it, with InvalidScript otherwise. *)
Theorem validation_identity
    (payer_pubkey payee_pubkey spend_secret_hash revoke_secret_hash : bytes)
    (expire_time delay_time : Z) :
  is_pubkey payer_pubkey -> is_pubkey payee_pubkey ->
  is_hash160 spend_secret_hash -> is_hash160 revoke_secret_hash ->
  0 <= expire_time <= 0xFFFF -> 0 <= delay_time <= 0xFFFF ->
  let dws := deposit_script_words payer_pubkey payee_pubkey spend_secret_hash
               expire_time in
  let cws := commit_script_words payer_pubkey payee_pubkey spend_secret_hash
               revoke_secret_hash delay_time in
  (compile_deposit_script (b2h payer_pubkey) (b2h payee_pubkey)
     (b2h spend_secret_hash) (IntArg expire_time) = Ok (b2h (encode_words dws))
   /\ validate_deposit_script (b2h (encode_words dws)) true = Ok tt
   /\ forall p b,
        (p < length (encode_words dws))%nat ->
        ~ In p (placeholder_offsets 0 deposit_reference dws) ->
        nth_error (encode_words dws) p <> Some b ->
        validate_deposit_script (b2h (set_byte (encode_words dws) p b)) true
        = if short_push (skipn p (set_byte (encode_words dws) p b))
          then Raise MalformedScript
          else Raise (InvalidScript (b2h (set_byte (encode_words dws) p b))))
  /\ (compile_commit_script (b2h payer_pubkey) (b2h payee_pubkey)
        (b2h spend_secret_hash) (b2h revoke_secret_hash) (IntArg delay_time)
      = Ok (b2h (encode_words cws))
      /\ validate_commit_script (b2h (encode_words cws)) true = Ok tt
      /\ forall p b,
           (p < length (encode_words cws))%nat ->
           ~ In p (placeholder_offsets 0 commit_reference cws) ->
           nth_error (encode_words cws) p <> Some b ->
           validate_commit_script (b2h (set_byte (encode_words cws) p b)) true
           = if short_push (skipn p (set_byte (encode_words cws) p b))
             then Raise MalformedScript
             else Raise (InvalidScript (b2h (set_byte (encode_words cws) p b)))).
Proof.
  intros Hp1 Hp2 Hh1 Hh2 Ht1 Ht2 dws cws.
  apply is_pubkey_ok in Hp1, Hp2. apply is_hash160_ok in Hh1, Hh2.
  split; (split; [|split]).
  - now apply deposit_compiled.
  - now apply deposit_valid.
  - intros p b Hp Hn Hb.
    rewrite <- rejected_at_short by (rewrite set_byte_length; assumption).
    apply validate_deposit_changed; try assumption.
    + now apply deposit_wf.
    + reflexivity.
  - now apply commit_compiled.
  - now apply commit_valid.
  - intros p b Hp Hn Hb.
    rewrite <- rejected_at_short by (rewrite set_byte_length; assumption).
    apply validate_commit_changed; try assumption.
    + now apply commit_wf.
    + reflexivity.
Qed.

Lemma validation_identity_witness :
  let dws := deposit_script_words sample_pubkey_a sample_pubkey_b sample_hash_s 1000 in
  let cws := commit_script_words sample_pubkey_a sample_pubkey_b sample_hash_s
               sample_hash_r 7 in
  is_pubkey sample_pubkey_a /\ is_pubkey sample_pubkey_b
  /\ is_hash160 sample_hash_s /\ is_hash160 sample_hash_r
  /\ 0 <= 1000 <= 0xFFFF /\ 0 <= 7 <= 0xFFFF
  /\ validate_deposit_script (b2h (encode_words dws)) true = Ok tt
  /\ validate_commit_script (b2h (encode_words cws)) true = Ok tt
  /\ (174 < length (encode_words dws))%nat
  /\ ~ In 174%nat (placeholder_offsets 0 deposit_reference dws)
  /\ nth_error (encode_words dws) 174 <> Some x4c
  /\ validate_deposit_script (b2h (set_byte (encode_words dws) 174 x4c)) true
     = Raise (InvalidScript (b2h (set_byte (encode_words dws) 174 x4c)))
  /\ nth_error (encode_words dws) 174 <> Some x05
  /\ validate_deposit_script (b2h (set_byte (encode_words dws) 174 x05)) true
     = Raise MalformedScript.
Proof.
  intros dws cws.
  assert (Ha : is_pubkey sample_pubkey_a) by (left; reflexivity).
  assert (Hb : is_pubkey sample_pubkey_b) by (left; reflexivity).
  assert (Hs : is_hash160 sample_hash_s) by reflexivity.
  assert (Hr : is_hash160 sample_hash_r) by reflexivity.
  assert (H1 : 0 <= 1000 <= 0xFFFF) by lia.
  assert (H2 : 0 <= 7 <= 0xFFFF) by lia.
  assert (Hp : (174 < length (encode_words dws))%nat)
    by (apply Nat.ltb_lt; vm_compute; reflexivity).
  assert (Hn : ~ In 174%nat (placeholder_offsets 0 deposit_reference dws))
    by (apply not_in_by_eqb; vm_compute; reflexivity).
  assert (Hc4 : nth_error (encode_words dws) 174 <> Some x4c)
    by (vm_compute; discriminate).
  assert (Hc5 : nth_error (encode_words dws) 174 <> Some x05)
    by (vm_compute; discriminate).
  repeat (split; [assumption|]).
  destruct (validation_identity sample_pubkey_a sample_pubkey_b sample_hash_s
              sample_hash_r 1000 7 Ha Hb Hs Hr H1 H2)
    as [(_ & Hd & Hmd) (_ & Hc & _)].
  split; [exact Hd|]. split; [exact Hc|].
  repeat (split; [assumption|]).
  split; [exact (Hmd 174%nat x4c Hp Hn Hc4)|].
  split; [assumption|].
  exact (Hmd 174%nat x05 Hp Hn Hc5).
Defined.


(** ** The accessors validate their input *)

Lemma validate_not_hex (reference_script_bin : bytes) (script_hex : string) :
  unhexlify script_hex = None ->
  _validate (b2h reference_script_bin) script_hex = Raise HexError.
Proof.
  intros H. unfold _validate. rewrite h2b_b2h. cbn [bind]. unfold h2b. now rewrite H.
Qed.

(** [_validate] does not catch the decoder's error: it comes out when the
    walk reaches a push that announces more data than there is, that is when
    the words before it are fewer than those of the reference and accepted
    by them. *)
Lemma validate_loop_short (tail : bytes) (rws : list word) :
  forall uws rpre upre R U fuel,
    R = rpre ++ encode_words rws ->
    U = upre ++ encode_words uws ++ tail ->
    wf_words rws -> wf_words uws ->
    short_push tail = true ->
    (length rws <= fuel)%nat ->
    ('(r_pc, u_pc) <- _validate_loop fuel R U (length rpre) (length upre) ;;
     if negb (r_pc =? length R)%nat || negb (u_pc =? length U)%nat
     then Raise (InvalidScript (b2h U))
     else Ok tt)
    = if (length uws <? length rws)%nat && words_match (firstn (length uws) rws) uws
      then Raise MalformedScript
      else Raise (InvalidScript (b2h U)).
Proof.
  induction rws as [|r rws IH]; intros uws rpre upre R U fuel HR HU Hr Hu Hs Hfuel.
  - rewrite _validate_loop_eq.
    assert (HlenR : length R = length rpre) by (subst R; cbn; now rewrite app_nil_r).
    rewrite HlenR, Nat.ltb_irrefl. cbn [andb bind]. rewrite Nat.eqb_refl. cbn [negb orb].
    cbn [length]. replace (length uws <? 0)%nat with false
      by (symmetry; apply Nat.ltb_ge; lia).
    cbn [andb].
    replace (length upre =? length U)%nat with false; [reflexivity|].
    symmetry. apply Nat.eqb_neq. subst U. rewrite !length_app.
    destruct tail; [discriminate | cbn [length]; lia].
  - apply Forall_cons_iff in Hr as [Hwr Hwrs].
    rewrite _validate_loop_eq.
    rewrite encode_words_cons in HR.
    assert (HltR : (length rpre <? length R)%nat = true)
      by (rewrite HR; apply length_lt_app_word).
    assert (HgR : tools.get_opcode R (length rpre)
                  = Ok (fst r, snd r, (length rpre + length (encode_word r))%nat))
      by (rewrite HR; now apply get_opcode_encode).
    destruct fuel as [|fuel]; [cbn in Hfuel; lia|]. cbn [length] in Hfuel.
    destruct uws as [|u uws].
    + cbn [encode_words map concat app] in HU.
      assert (HltU : (length upre <? length U)%nat = true).
      { apply Nat.ltb_lt. subst U. rewrite length_app.
        destruct tail; [discriminate | cbn [length]; lia]. }
      rewrite HltR, HltU. cbn [andb]. rewrite HgR. cbn [bind].
      rewrite HU, get_opcode_at, (get_opcode_short tail Hs). reflexivity.
    + apply Forall_cons_iff in Hu as [Hwu Hwus].
      rewrite encode_words_cons, <- app_assoc in HU.
      assert (HltU : (length upre <? length U)%nat = true)
        by (rewrite HU; apply length_lt_app_word).
      assert (HgU : tools.get_opcode U (length upre)
                    = Ok (fst u, snd u, (length upre + length (encode_word u))%nat))
        by (rewrite HU; now apply get_opcode_encode).
      rewrite HltR, HltU. cbn [andb]. rewrite HgR, HgU. cbn [bind].
      replace (length rpre + length (encode_word r))%nat
        with (length (rpre ++ encode_word r)) by now rewrite length_app.
      replace (length upre + length (encode_word u))%nat
        with (length (upre ++ encode_word u)) by now rewrite length_app.
      cbn [length firstn words_match].
      change (S (length uws) <? S (length rws))%nat with (length uws <? length rws)%nat.
      destruct (is_placeholder (snd r)) eqn:Hp; cbn [orb andb].
      * apply IH; try assumption; try lia; rewrite <- app_assoc; assumption.
      * rewrite mismatch_word_eqb. destruct (word_eqb r u); cbn [negb andb].
        -- apply IH; try assumption; try lia; rewrite <- app_assoc; assumption.
        -- now rewrite andb_false_r.
Qed.

Lemma validate_short (rws uws : list word) (tail : bytes) :
  wf_words rws -> wf_words uws ->
  short_push tail = true ->
  _validate (b2h (encode_words rws)) (b2h (encode_words uws ++ tail))
  = if (length uws <? length rws)%nat && words_match (firstn (length uws) rws) uws
    then Raise MalformedScript
    else Raise (InvalidScript (b2h (encode_words uws ++ tail))).
Proof.
  intros Hr Hu Hs. unfold _validate. rewrite !h2b_b2h. cbn [bind].
  apply (validate_loop_short tail rws uws [] []); try assumption; try reflexivity.
  apply encode_words_length.
Qed.

(** A script that ends in OP_PUSHDATA1/2/4 without length bytes is
    rejected with InvalidScript: the decoder returns a word there, with the
    next offset past the end of the script. *)
Lemma validate_loop_pushdata_end (b : byte) (rws : list word) :
  forall uws rpre upre R U fuel,
    R = rpre ++ encode_words rws ->
    U = upre ++ encode_words uws ++ [b] ->
    wf_words rws -> wf_words uws ->
    is_pushdata b = true ->
    (length rws <= fuel)%nat ->
    ('(r_pc, u_pc) <- _validate_loop fuel R U (length rpre) (length upre) ;;
     if negb (r_pc =? length R)%nat || negb (u_pc =? length U)%nat
     then Raise (InvalidScript (b2h U))
     else Ok tt)
    = Raise (InvalidScript (b2h U)).
Proof.
  induction rws as [|r rws IH]; intros uws rpre upre R U fuel HR HU Hr Hu Hb Hfuel.
  - rewrite _validate_loop_eq.
    assert (HlenR : length R = length rpre) by (subst R; cbn; now rewrite app_nil_r).
    rewrite HlenR, Nat.ltb_irrefl. cbn [andb bind]. rewrite Nat.eqb_refl. cbn [negb orb].
    replace (length upre =? length U)%nat with false; [reflexivity|].
    symmetry. apply Nat.eqb_neq. subst U. rewrite !length_app. cbn [length]. lia.
  - apply Forall_cons_iff in Hr as [Hwr Hwrs].
    rewrite _validate_loop_eq.
    rewrite encode_words_cons in HR.
    assert (HltR : (length rpre <? length R)%nat = true)
      by (rewrite HR; apply length_lt_app_word).
    assert (HgR : tools.get_opcode R (length rpre)
                  = Ok (fst r, snd r, (length rpre + length (encode_word r))%nat))
      by (rewrite HR; now apply get_opcode_encode).
    destruct fuel as [|fuel]; [cbn in Hfuel; lia|]. cbn [length] in Hfuel.
    destruct uws as [|u uws].
    + cbn [encode_words map concat app] in HU.
      assert (HlenU : length U = S (length upre))
        by (subst U; rewrite length_app; cbn [length]; lia).
      assert (HltU : (length upre <? length U)%nat = true)
        by (apply Nat.ltb_lt; lia).
      rewrite HltR, HltU. cbn [andb]. rewrite HgR. cbn [bind].
      assert (HgU : tools.get_opcode U (length upre)
                    = Ok (byte_to_Z b, Some [],
                          (length upre + (1 + prefix_width (byte_to_Z b)))%nat))
        by (rewrite HU, get_opcode_at, (get_opcode_pushdata_end b Hb); reflexivity).
      rewrite HgU. cbn [bind].
      pose proof (is_pushdata_width b Hb) as Hw.
      assert (Hstop : forall r_pc,
                 ('(r_pc0, u_pc0) <- _validate_loop fuel R U r_pc
                                      (length upre + (1 + prefix_width (byte_to_Z b))) ;;
                  if negb (r_pc0 =? length R)%nat || negb (u_pc0 =? length U)%nat
                  then Raise (InvalidScript (b2h U))
                  else Ok tt)
                 = Raise (InvalidScript (b2h U))).
      { intros r_pc. rewrite _validate_loop_eq.
        replace (length upre + (1 + prefix_width (byte_to_Z b)) <? length U)%nat
          with false by (symmetry; apply Nat.ltb_ge; lia).
        rewrite andb_false_r. cbn [bind].
        replace (length upre + (1 + prefix_width (byte_to_Z b)) =? length U)%nat
          with false by (symmetry; apply Nat.eqb_neq; lia).
        cbn [negb]. now rewrite orb_true_r. }
      destruct (is_placeholder (snd r)); [apply Hstop|].
      destruct (negb (fst r =? byte_to_Z b) || negb (data_eqb (snd r) (Some [])));
        [reflexivity | apply Hstop].
    + apply Forall_cons_iff in Hu as [Hwu Hwus].
      rewrite encode_words_cons, <- app_assoc in HU.
      assert (HltU : (length upre <? length U)%nat = true)
        by (rewrite HU; apply length_lt_app_word).
      assert (HgU : tools.get_opcode U (length upre)
                    = Ok (fst u, snd u, (length upre + length (encode_word u))%nat))
        by (rewrite HU; now apply get_opcode_encode).
      rewrite HltR, HltU. cbn [andb]. rewrite HgR, HgU. cbn [bind].
      replace (length rpre + length (encode_word r))%nat
        with (length (rpre ++ encode_word r)) by now rewrite length_app.
      replace (length upre + length (encode_word u))%nat
        with (length (upre ++ encode_word u)) by now rewrite length_app.
      destruct (is_placeholder (snd r)) eqn:Hp.
      * apply (IH uws); try assumption; try lia; rewrite <- app_assoc; assumption.
      * destruct (negb (fst r =? fst u) || negb (data_eqb (snd r) (snd u)));
          [reflexivity|].
        apply (IH uws); try assumption; try lia; rewrite <- app_assoc; assumption.
Qed.

Lemma validate_pushdata_end (rws uws : list word) (b : byte) :
  wf_words rws -> wf_words uws ->
  is_pushdata b = true ->
  _validate (b2h (encode_words rws)) (b2h (encode_words uws ++ [b]))
  = Raise (InvalidScript (b2h (encode_words uws ++ [b]))).
Proof.
  intros Hr Hu Hb. unfold _validate. rewrite !h2b_b2h. cbn [bind].
  apply (validate_loop_pushdata_end b rws uws [] []); try assumption; try reflexivity.
  apply encode_words_length.
Qed.

(** An accessor that runs the shape test first, and the rest only after
    it, validates its input. *)
Lemma revalidates_intro {A : Type} (shape : string -> result unit) (rws : list word)
    (get : string -> result A) (rest : string -> result A) :
  wf_words rws ->
  (forall script_hex, shape script_hex = _validate (b2h (encode_words rws)) script_hex) ->
  (forall script_hex, get script_hex = (_ <- shape script_hex ;; rest script_hex)) ->
  revalidates shape rws get.
Proof.
  intros Hr Hshape Hget.
  assert (Hraise : forall script_hex e,
             _validate (b2h (encode_words rws)) script_hex = Raise e ->
             get script_hex = Raise e).
  { intros s e He. now rewrite Hget, Hshape, He. }
  split; [|split; [|split; [|split]]].
  - intros s v. rewrite Hget.
    destruct (shape s) as [[]|]; [reflexivity | discriminate].
  - intros uws Hu Hm. apply Hraise. now rewrite validate_words, Hm.
  - intros s Hs. apply Hraise. now apply validate_not_hex.
  - intros uws tail Hu Hs Hlen Hm. apply Hraise.
    rewrite validate_short by assumption.
    apply Nat.ltb_lt in Hlen. now rewrite Hlen, Hm.
  - intros uws b Hu Hb. apply Hraise. now apply validate_pushdata_end.
Qed.

Lemma deposit_shape_validate (script_hex : string) :
  validate_deposit_script_shape script_hex
  = _validate (b2h (encode_words deposit_reference)) script_hex.
Proof.
  unfold validate_deposit_script_shape. now rewrite compile_deposit_reference.
Qed.

Lemma commit_shape_validate (script_hex : string) :
  validate_commit_script_shape script_hex
  = _validate (b2h (encode_words commit_reference)) script_hex.
Proof.
  unfold validate_commit_script_shape. now rewrite compile_commit_reference.
Qed.

Lemma revalidates_deposit_time :
  revalidates validate_deposit_script_shape deposit_reference get_deposit_expire_time.
Proof.
  apply (revalidates_intro _ _ _
           (fun script_hex =>
              script_bin <- h2b script_hex ;;
              '(opcode, data, disassembled) <- get_word script_bin 14 ;;
              _parse_sequence_value opcode data disassembled)).
  - apply wf_deposit_reference.
  - apply deposit_shape_validate.
  - reflexivity.
Qed.

Lemma revalidates_commit_time :
  revalidates validate_commit_script_shape commit_reference get_commit_delay_time.
Proof.
  apply (revalidates_intro _ _ _
           (fun script_hex =>
              script_bin <- h2b script_hex ;;
              '(opcode, data, disassembled) <- get_word script_bin 1 ;;
              _parse_sequence_value opcode data disassembled)).
  - apply wf_commit_reference.
  - apply commit_shape_validate.
  - reflexivity.
Qed.

Lemma revalidates_deposit_field (index : nat) :
  revalidates validate_deposit_script_shape deposit_reference
    (fun script_hex =>
       _ <- validate_deposit_script script_hex true ;; word_data_hex script_hex index).
Proof.
  apply (revalidates_intro _ _ _
           (fun script_hex =>
              _ <- (_ <- get_deposit_expire_time script_hex ;; Ok tt) ;;
              word_data_hex script_hex index)).
  - apply wf_deposit_reference.
  - apply deposit_shape_validate.
  - intros s. rewrite validate_deposit_script_flag.
    destruct (validate_deposit_script_shape s); reflexivity.
Qed.

Lemma revalidates_commit_field (index : nat) :
  revalidates validate_commit_script_shape commit_reference
    (fun script_hex =>
       _ <- validate_commit_script script_hex true ;; word_data_hex script_hex index).
Proof.
  apply (revalidates_intro _ _ _
           (fun script_hex =>
              _ <- (_ <- get_commit_delay_time script_hex ;; Ok tt) ;;
              word_data_hex script_hex index)).
  - apply wf_commit_reference.
  - apply commit_shape_validate.
  - intros s. rewrite validate_commit_script_flag.
    destruct (validate_commit_script_shape s); reflexivity.
Qed.

(** C10, as stated, fails: the inputs 05aa (a push that announces five
    bytes, followed by one) and zz (not hex) do not match the deposit
    template, yet the accessor raises the decoder's error on the first and
    the hex error on the second, not InvalidScript. *)
Lemma accessor_truncated_input :
  validate_deposit_script "05aa" true <> Ok tt
  /\ get_deposit_payer_pubkey "05aa" = Raise MalformedScript
  /\ get_deposit_payer_pubkey "05aa" <> Raise (InvalidScript "05aa")
  /\ validate_deposit_script "zz" true <> Ok tt
  /\ get_deposit_payer_pubkey "zz" = Raise HexError
  /\ get_deposit_payer_pubkey "zz" <> Raise (InvalidScript "zz").
Proof.
  repeat split; vm_compute; first [reflexivity | discriminate].
Qed.

(** C10, amended.  Each of the nine public field accessors validates its
    input script against the deposit (resp. commit) template before it
    extracts the word, so the caller need not have validated the script: it
    returns a value only for an input that passed the template validation,
    and for every input that is a script made of words which do not match
    the template it raises InvalidScript.  An input that is not hex raises
    the hex error.  An input in which words accepted by the first words of
    the template, fewer than the template has, are followed by a push that
    announces more data than the script holds raises the decoder's error.
    An input made of words followed by a last byte OP_PUSHDATA1,
    OP_PUSHDATA2 or OP_PUSHDATA4 without length bytes raises
    InvalidScript. *)
Theorem accessors_revalidate :
  revalidates validate_deposit_script_shape deposit_reference get_deposit_payer_pubkey
  /\ revalidates validate_deposit_script_shape deposit_reference get_deposit_payee_pubkey
  /\ revalidates validate_deposit_script_shape deposit_reference
       get_deposit_spend_secret_hash
  /\ revalidates validate_deposit_script_shape deposit_reference get_deposit_expire_time
  /\ revalidates validate_commit_script_shape commit_reference get_commit_payer_pubkey
  /\ revalidates validate_commit_script_shape commit_reference get_commit_payee_pubkey
  /\ revalidates validate_commit_script_shape commit_reference
       get_commit_spend_secret_hash
  /\ revalidates validate_commit_script_shape commit_reference
       get_commit_revoke_secret_hash
  /\ revalidates validate_commit_script_shape commit_reference get_commit_delay_time.
Proof.
  split; [exact (revalidates_deposit_field 2)|].
  split; [exact (revalidates_deposit_field 3)|].
  split; [exact (revalidates_deposit_field 9)|].
  split; [exact revalidates_deposit_time|].
  split; [exact (revalidates_commit_field 13)|].
  split; [exact (revalidates_commit_field 7)|].
  split; [exact (revalidates_commit_field 5)|].
  split; [exact (revalidates_commit_field 11)|].
  exact revalidates_commit_time.
Qed.

Lemma accessors_revalidate_witness :
  wf_words [op 99; op 104]
  /\ words_match deposit_reference [op 99; op 104] = false
  /\ get_deposit_payer_pubkey (b2h (encode_words [op 99; op 104]))
     = Raise (InvalidScript "6368")
  /\ get_commit_delay_time "zz" = Raise HexError
  /\ get_deposit_payee_pubkey (b2h (encode_words [op 99; op 82] ++ [x05; xaa]))
     = Raise MalformedScript
  /\ get_deposit_payer_pubkey (b2h (encode_words [] ++ [x4c]))
     = Raise (InvalidScript "4c").
Proof.
  assert (Hwf : wf_words [op 99; op 104]) by (repeat constructor).
  assert (Hwf2 : wf_words [op 99; op 82]) by (repeat constructor).
  assert (Hm : words_match deposit_reference [op 99; op 104] = false) by reflexivity.
  split; [exact Hwf|]. split; [exact Hm|].
  destruct accessors_revalidate
    as ((_ & H1 & _ & _ & H5) & (_ & _ & _ & H4 & _) & _ & _ & _ & _ & _ & _
        & (_ & _ & H3 & _)).
  split; [exact (H1 [op 99; op 104] Hwf Hm)|].
  split; [exact (H3 "zz" eq_refl)|].
  split.
  - apply (H4 [op 99; op 82] [x05; xaa] Hwf2 eq_refl); [cbn; lia | reflexivity].
  - exact (H5 [] x4c (Forall_nil _) eq_refl).
Defined.


(** ** The spend secret of a payout *)


Lemma non_payout_scriptsig_accepted :
  validate_commit_script (b2h sample_commit_script) true = Ok tt
  /\ _validate_payout_scriptsig (b2h non_payout_scriptsig) (b2h sample_commit_script)
     = Ok tt
  /\ get_word non_payout_scriptsig 1 = Ok (81, None, "OP_1").
Proof. repeat split; vm_compute; reflexivity. Qed.

(** C6, the failing input.  On a payout transaction whose input 0 carries the
    scriptSig [OP_1 OP_1 OP_1 <commit_script>], which is no payout scriptSig
    (word 1 is no push of a secret), [get_spend_secret] does not return
    [None]: the placeholders of the reference accept the three opcodes, and
    [b2h] of the missing data of word 1 raises TypeError. *)
Theorem get_spend_secret_non_payout `{Host} (payout_rawtx : string) (tx : Tx)
    (rest : list TxIn) :
  Tx_from_hex payout_rawtx = Ok tx ->
  txs_in tx = {| script := non_payout_scriptsig |} :: rest ->
  get_spend_secret payout_rawtx (b2h sample_commit_script) = Raise TypeError.
Proof.
  intros Htx Hin. unfold get_spend_secret.
  destruct non_payout_scriptsig_accepted as (Hv & Hp & Hw).
  rewrite Hv. cbn [bind]. rewrite Htx. cbn [bind]. rewrite Hin. cbn [nth_error script].
  rewrite Hp.
  replace (get_word non_payout_scriptsig 3)
    with (@Ok (Z * option bytes * string)
            (76, Some sample_commit_script,
             tools.disassemble_for_opcode_data 76 (Some sample_commit_script)))
    by (vm_compute; reflexivity).
  cbn [bind]. rewrite Hw. reflexivity.
Qed.

Lemma get_spend_secret_non_payout_witness :
  Tx_from_hex (Host := sample_host) (b2h non_payout_scriptsig)
  = Ok {| txs_in := [ {| script := non_payout_scriptsig |} ] |}
  /\ get_spend_secret (H := sample_host) (b2h non_payout_scriptsig)
       (b2h sample_commit_script) = Raise TypeError.
Proof.
  assert (Htx : Tx_from_hex (Host := sample_host) (b2h non_payout_scriptsig)
                = Ok {| txs_in := [ {| script := non_payout_scriptsig |} ] |})
    by (cbn [Tx_from_hex sample_host]; now rewrite h2b_b2h).
  split; [exact Htx|].
  exact (get_spend_secret_non_payout (H := sample_host) _ _ [] Htx eq_refl).
Defined.


(** ** The matcher registry across a sign call *)


Lemma preserves_lift {A} (r : result A) : preserves_registry (lift r).
Proof. intros w. reflexivity. Qed.

Lemma preserves_ret {A} (a : A) : preserves_registry (ret a).
Proof. intros w. reflexivity. Qed.

Lemma preserves_bind {A B} (m : M A) (f : A -> M B) :
  preserves_registry m -> (forall a, preserves_registry (f a)) ->
  preserves_registry (bindM m f).
Proof.
  intros Hm Hf w. unfold bindM. specialize (Hm w).
  destruct (m w) as [w' [a|e]]; cbn [fst] in *.
  - now rewrite Hf.
  - assumption.
Qed.

Lemma preserves_sign `{Host} (tx : Tx) (h : hash160_lookup_t)
    (p : option p2sh_lookup_t) (kw : sign_kwargs) :
  signer_frame -> preserves_registry (sign tx h p kw).
Proof.
  intros Hf w. unfold sign. specialize (Hf tx h p kw (SUBCLASSES w)).
  destruct (tx_sign tx h p kw (SUBCLASSES w)) as [reg r]. exact Hf.
Qed.

(** The scope of a handler: the body runs with the matcher at the front of
    the registry; on the way out, by return or by exception, the matcher is
    removed and the result of the body is the result of the scope. *)
Lemma with_handler_scope {A} (handler : script_class) (body : M A) (w : world) :
  preserves_registry body ->
  with_handler handler body w
  = ({| SUBCLASSES := SUBCLASSES w;
        sign_calls := sign_calls (fst (body (entered handler w))) |},
     snd (body (entered handler w))).
Proof.
  intros Hb. unfold with_handler, registry_insert0. fold (entered handler w).
  specialize (Hb (entered handler w)).
  destruct (body (entered handler w)) as [w2 r]. cbn [fst snd] in *.
  unfold registry_pop0. rewrite Hb. reflexivity.
Qed.

Lemma preserves_with_handler {A} (handler : script_class) (body : M A) :
  preserves_registry body -> preserves_registry (with_handler handler body).
Proof. intros Hb w. now rewrite with_handler_scope. Qed.

Ltac frame :=
  cbv zeta;
  repeat match goal with
  | |- preserves_registry (bindM _ _) => apply preserves_bind; [|intros ?]
  | |- preserves_registry (lift _) => apply preserves_lift
  | |- preserves_registry (ret _) => apply preserves_ret
  | |- preserves_registry (with_handler _ _) => apply preserves_with_handler
  | |- preserves_registry (sign _ _ _ _) => apply preserves_sign; assumption
  end.

Lemma preserves_sign_deposit_recover `{Host} get_txs_func wif rawtx script_hex
    spend_type spend_secret :
  signer_frame ->
  preserves_registry
    (_sign_deposit_recover get_txs_func wif rawtx script_hex spend_type spend_secret).
Proof. intros Hf. unfold _sign_deposit_recover. frame. Qed.

Lemma preserves_sign_commit_recover `{Host} get_txs_func wif rawtx script_hex
    spend_type spend_secret revoke_secret :
  signer_frame ->
  preserves_registry
    (_sign_commit_recover get_txs_func wif rawtx script_hex spend_type spend_secret
       revoke_secret).
Proof. intros Hf. unfold _sign_commit_recover. frame. Qed.

(** C7. Provided the host signer hands the registry back as it received it,
    each of the seven sign operations leaves the matcher registry
    [SUBCLASSES] as it found it, in whatever world it starts and whether it
    returns or raises; and the scope that installs a matcher runs its body
    with the matcher pushed at the front and pops it on the way out, by
    return or by exception. *)
Theorem sign_registry_restored `{Host}
    (get_txs_func : list string -> list string)
    (wif rawtx script_hex secret : string) :
  signer_frame ->
  preserves_registry (sign_deposit get_txs_func wif rawtx)
  /\ preserves_registry (sign_created_commit get_txs_func wif rawtx script_hex)
  /\ preserves_registry (sign_finalize_commit get_txs_func wif rawtx script_hex)
  /\ preserves_registry (sign_change_recover get_txs_func wif rawtx script_hex secret)
  /\ preserves_registry (sign_expire_recover get_txs_func wif rawtx script_hex)
  /\ preserves_registry (sign_payout_recover get_txs_func wif rawtx script_hex secret)
  /\ preserves_registry (sign_revoke_recover get_txs_func wif rawtx script_hex secret)
  /\ (forall (handler : script_class) (tx : Tx) h p kw (w : world),
         with_handler handler (sign tx h p kw) w
         = ({| SUBCLASSES := SUBCLASSES w;
               sign_calls := sign_calls (fst (sign tx h p kw (entered handler w))) |},
            snd (sign tx h p kw (entered handler w)))).
Proof.
  intros Hf. split; [|split; [|split; [|split; [|split; [|split; [|split]]]]]].
  - unfold sign_deposit. frame.
  - unfold sign_created_commit. frame.
  - unfold sign_finalize_commit. frame.
  - unfold sign_change_recover. frame. now apply preserves_sign_deposit_recover.
  - unfold sign_expire_recover. frame. now apply preserves_sign_deposit_recover.
  - unfold sign_payout_recover. frame. now apply preserves_sign_commit_recover.
  - unfold sign_revoke_recover. frame. now apply preserves_sign_commit_recover.
  - intros. apply with_handler_scope. now apply preserves_sign.
Qed.


Lemma sign_registry_restored_witness :
  signer_frame (H := sample_host)
  /\ SUBCLASSES (fst (sign_expire_recover (H := sample_host) (fun _ => []) "wif" "00"
                        (b2h sample_deposit_script) sample_world))
     = SUBCLASSES sample_world
  /\ SUBCLASSES (fst (sign_payout_recover (H := sample_host) (fun _ => []) "wif" "zz"
                        (b2h sample_commit_script) "00" sample_world))
     = SUBCLASSES sample_world.
Proof.
  assert (Hf : signer_frame (H := sample_host)) by (intros tx h p kw registry; reflexivity).
  split; [exact Hf|].
  destruct (sign_registry_restored (H := sample_host) (fun _ => []) "wif" "00"
              (b2h sample_deposit_script) "00" Hf) as (_ & _ & _ & _ & He & _).
  destruct (sign_registry_restored (H := sample_host) (fun _ => []) "wif" "zz"
              (b2h sample_commit_script) "00" Hf) as (_ & _ & _ & _ & _ & Hp & _).
  split; [exact (He sample_world) | exact (Hp sample_world)].
Defined.


(** ** The spend secret of a change recover *)

(** C8. When the hash160 of the given spend secret differs from the spend
    secret hash embedded in the deposit script, [sign_change_recover] fails on
    its assertion and leaves the world as it was: the host signer is not
    entered, so no signature is computed, and the registry is untouched.  The
    host signer is entered only when the two hashes are equal. *)
Theorem sign_change_recover_precondition `{Host}
    (get_txs_func : list string -> list string)
    (payer_wif rawtx deposit_script_hex spend_secret : string) (w : world) :
  (forall embedded secret_bin,
      get_deposit_spend_secret_hash deposit_script_hex = Ok embedded ->
      h2b spend_secret = Ok secret_bin ->
      b2h (hash160 secret_bin) <> embedded ->
      sign_change_recover get_txs_func payer_wif rawtx deposit_script_hex
        spend_secret w = (w, Raise AssertionError))
  /\ (sign_calls (fst (sign_change_recover get_txs_func payer_wif rawtx
                         deposit_script_hex spend_secret w)) <> sign_calls w ->
      exists secret_bin,
        h2b spend_secret = Ok secret_bin
        /\ get_deposit_spend_secret_hash deposit_script_hex
           = Ok (b2h (hash160 secret_bin))).
Proof.
  split.
  - intros embedded secret_bin Hh Hs Hne.
    assert (Hv : validate_deposit_script deposit_script_hex true = Ok tt).
    { unfold get_deposit_spend_secret_hash in Hh.
      destruct (validate_deposit_script deposit_script_hex true) as [[]|];
        [reflexivity | discriminate]. }
    unfold sign_change_recover, bindM, lift. rewrite Hv, Hh, Hs. cbv zeta.
    apply String.eqb_neq in Hne. rewrite Hne. reflexivity.
  - unfold sign_change_recover, bindM, lift.
    destruct (validate_deposit_script deposit_script_hex true) as [[]|];
      [|cbn; congruence].
    destruct (get_deposit_spend_secret_hash deposit_script_hex) as [embedded|];
      [|cbn; congruence].
    destruct (h2b spend_secret) as [secret_bin|]; [|cbn; congruence].
    cbv zeta.
    destruct (String.eqb (b2h (hash160 secret_bin)) embedded) eqn:E;
      [|cbn; congruence].
    intros _. exists secret_bin. apply String.eqb_eq in E. now subst.
Qed.

Lemma sign_change_recover_precondition_witness :
  get_deposit_spend_secret_hash (b2h sample_deposit_script) = Ok (b2h sample_hash_s)
  /\ h2b "00" = Ok [x00]
  /\ b2h (hash160 (Host := sample_host) [x00]) <> b2h sample_hash_s
  /\ sign_change_recover (H := sample_host) (fun _ => []) "wif" "00"
       (b2h sample_deposit_script) "00" sample_world
     = (sample_world, Raise AssertionError).
Proof.
  assert (Hh : get_deposit_spend_secret_hash (b2h sample_deposit_script)
               = Ok (b2h sample_hash_s)) by (vm_compute; reflexivity).
  assert (Hs : h2b "00" = Ok [x00]) by reflexivity.
  assert (Hne : b2h (hash160 (Host := sample_host) [x00]) <> b2h sample_hash_s)
    by (vm_compute; discriminate).
  split; [exact Hh|]. split; [exact Hs|]. split; [exact Hne|].
  destruct (sign_change_recover_precondition (H := sample_host) (fun _ => []) "wif"
              "00" (b2h sample_deposit_script) "00" sample_world) as [H1 _].
  exact (H1 _ _ Hh Hs Hne).
Defined.


(** ** The payer signature in finalize commit *)







(** ** The loops never run out of fuel *)

Lemma get_opcode_advances (script_bin : bytes) (pc : nat)
    (opcode : Z) (data : option bytes) (pc' : nat) :
  tools.get_opcode script_bin pc = Ok (opcode, data, pc') ->
  (pc < pc')%nat.
Proof.
  unfold tools.get_opcode.
  destruct (nth_error script_bin pc) as [b|] eqn:Hb; [|discriminate].
  cbv zeta.
  destruct (byte_to_Z b <=? OP_PUSHDATA4).
  - match goal with |- context [if ?c then Raise MalformedScript else _] =>
      destruct c; [discriminate|] end.
    intros Heq. injection Heq as _ _ <-. lia.
  - intros Heq. injection Heq as _ _ <-. lia.
Qed.

Lemma get_opcode_not_out_of_fuel (script_bin : bytes) (pc : nat) :
  tools.get_opcode script_bin pc <> Raise OutOfFuel.
Proof.
  unfold tools.get_opcode.
  destruct (nth_error script_bin pc); [|discriminate].
  destruct (_ <=? OP_PUSHDATA4); [|discriminate].
  cbv zeta.
  match goal with |- context [if ?c then Raise MalformedScript else _] =>
    destruct c; discriminate end.
Qed.

Lemma _validate_loop_fuel (fuel : nat) :
  forall ref_script_bin untrusted_script_bin r_pc u_pc,
    (length ref_script_bin - r_pc <= fuel)%nat ->
    _validate_loop fuel ref_script_bin untrusted_script_bin r_pc u_pc
    <> Raise OutOfFuel.
Proof.
  induction fuel as [|fuel IH]; intros R U r_pc u_pc Hfuel; rewrite _validate_loop_eq.
  - replace (r_pc <? length R)%nat with false by (symmetry; apply Nat.ltb_ge; lia).
    discriminate.
  - destruct ((r_pc <? length R)%nat && (u_pc <? length U)%nat); [|discriminate].
    destruct (tools.get_opcode R r_pc) as [[[r_opcode r_data] r_pc']|e] eqn:Er;
      cbn [bind].
    + apply get_opcode_advances in Er.
      destruct (tools.get_opcode U u_pc) as [[[u_opcode u_data] u_pc']|e] eqn:Eu;
        cbn [bind].
      * destruct (is_placeholder r_data); [apply IH; lia|].
        destruct (negb _ || negb _); [discriminate | apply IH; lia].
      * intros [= ->]. now apply (get_opcode_not_out_of_fuel U u_pc).
    + intros [= ->]. now apply (get_opcode_not_out_of_fuel R r_pc).
Qed.

Lemma get_word_loop_fuel (fuel : nat) :
  forall script_bin index pc i last,
    (length script_bin - pc <= fuel)%nat ->
    get_word_loop fuel script_bin index pc i last <> Raise OutOfFuel.
Proof.
  induction fuel as [|fuel IH]; intros S index pc i last Hfuel; rewrite get_word_loop_eq.
  - replace (pc <? length S)%nat with false by (symmetry; apply Nat.ltb_ge; lia).
    discriminate.
  - destruct ((pc <? length S)%nat && (i <=? index)%nat); [|discriminate].
    destruct (tools.get_opcode S pc) as [[[opcode data] pc']|e] eqn:E; cbn [bind].
    + apply get_opcode_advances in E. apply IH. lia.
    + intros [= ->]. now apply (get_opcode_not_out_of_fuel S pc).
Qed.

(** On every input, [_validate] and [get_word] return or raise an error of
    the program: the fuel of their loops is enough. *)
Lemma _validate_total (reference_script_hex untrusted_script_hex : string) :
  _validate reference_script_hex untrusted_script_hex <> Raise OutOfFuel.
Proof.
  unfold _validate, h2b.
  destruct (unhexlify reference_script_hex) as [R|]; [|discriminate].
  destruct (unhexlify untrusted_script_hex) as [U|]; [|discriminate].
  cbn [bind].
  destruct (_validate_loop (length R) R U 0 0) as [[r_pc u_pc]|e] eqn:E; cbn [bind].
  - destruct (negb _ || negb _); discriminate.
  - intros [= ->]. apply (_validate_loop_fuel (length R) R U 0%nat 0%nat); [lia | exact E].
Qed.

Lemma get_word_total (script_bin : bytes) (index : nat) :
  get_word script_bin index <> Raise OutOfFuel.
Proof.
  unfold get_word.
  destruct (get_word_loop _ script_bin index 0 0 None) as [[i last]|e] eqn:E;
    cbn [bind].
  - destruct (negb _); [discriminate|]. destruct last as [[opcode data]|]; discriminate.
  - intros [= ->].
    apply (get_word_loop_fuel (length script_bin) script_bin index 0%nat 0%nat None);
      [lia | exact E].
Qed.


(** ** What the decoder returns *)


Lemma decode_words_eq fuel script_bin pc :
  decode_words fuel script_bin pc
  = if (pc <? length script_bin)%nat then
      match fuel with
      | O => Raise OutOfFuel
      | S fuel' =>
          '(opcode, data, pc') <- tools.get_opcode script_bin pc ;;
          ws <- decode_words fuel' script_bin pc' ;;
          Ok ((opcode, data) :: ws)
      end
    else Ok [].
Proof. destruct fuel; reflexivity. Qed.

Lemma le_value_bound (P : bytes) : 0 <= tools.le_value P < 256 ^ Z.of_nat (length P).
Proof.
  induction P as [|b P IH]; cbn [tools.le_value length].
  - change (256 ^ Z.of_nat 0) with 1. lia.
  - rewrite Nat2Z.inj_succ, Z.pow_succ_r by lia.
    pose proof (byte_to_Z_range b). lia.
Qed.

Lemma byte_of_Z_mod (z : Z) : byte_of_Z (z mod 256) = byte_of_Z z.
Proof. unfold byte_of_Z. now rewrite Z.mod_mod by lia. Qed.

Lemma le_prefix_value (P : bytes) :
  forall n, Z.of_nat n = tools.le_value P ->
            tools.le_prefix n (length P) = P.
Proof.
  unfold tools.le_prefix.
  induction P as [|b P IH]; intros n Hn; [reflexivity|].
  cbn [tools.le_value length] in *. rewrite <- cons_seq, <- seq_shift.
  cbn [map]. rewrite map_map. f_equal.
  - change (256 ^ Z.of_nat 0) with 1. rewrite Z.div_1_r, Hn.
    rewrite <- byte_of_Z_mod.
    replace ((byte_to_Z b + 256 * tools.le_value P) mod 256) with (byte_to_Z b).
    + apply byte_of_to_Z.
    + pose proof (byte_to_Z_range b). Z.div_mod_to_equations. lia.
  - pose proof (le_value_bound P) as HP. pose proof (byte_to_Z_range b) as Hb.
    transitivity
      (map (fun i : nat =>
              byte_of_Z (Z.of_nat (Z.to_nat (tools.le_value P)) / 256 ^ Z.of_nat i))
         (seq 0 (length P))); [|apply IH; lia].
    apply map_ext. intros i.
    rewrite Nat2Z.inj_succ, Z.pow_succ_r by lia.
    rewrite Hn, Z2Nat.id by lia.
    f_equal.
    rewrite <- Z.div_div by (try lia; apply Z.pow_pos_nonneg; lia).
    f_equal. Z.div_mod_to_equations. lia.
Qed.

Lemma skipn_nth_error {A} (l : list A) (n : nat) (x : A) :
  nth_error l n = Some x -> skipn n l = x :: skipn (S n) l.
Proof.
  revert n. induction l as [|y l IH]; intros [|n] H; try discriminate.
  - now injection H as ->.
  - cbn [skipn]. now apply IH.
Qed.

Lemma skipn_split {A} (l : list A) (n k : nat) :
  (n + k <= length l)%nat ->
  skipn n l = firstn k (skipn n l) ++ skipn (n + k) l.
Proof.
  intros H. rewrite <- (firstn_skipn k (skipn n l)) at 1. f_equal.
  now rewrite skipn_skipn, Nat.add_comm.
Qed.

(** What the decoder returns, when the next offset lies within the script,
    is a well-formed word, and the script goes on with the bytes of that
    word. *)
Lemma get_opcode_word (script_bin : bytes) (pc : nat)
    (opcode : Z) (data : option bytes) (pc' : nat) :
  tools.get_opcode script_bin pc = Ok (opcode, data, pc') ->
  (pc' <= length script_bin)%nat ->
  wf_word (opcode, data) = true
  /\ skipn pc script_bin = encode_word (opcode, data) ++ skipn pc' script_bin.
Proof.
  unfold tools.get_opcode.
  destruct (nth_error script_bin pc) as [b|] eqn:Hb; [|discriminate].
  pose proof (byte_to_Z_range b) as Hr.
  rewrite (skipn_nth_error _ _ _ Hb).
  cbv zeta. fold (prefix_width (byte_to_Z b)).
  destruct (byte_to_Z b <=? OP_PUSHDATA4) eqn:Ele.
  - apply Z.leb_le in Ele. unfold OP_PUSHDATA4 in Ele.
    set (k := prefix_width (byte_to_Z b)).
    set (P := firstn k (skipn (S pc) script_bin)).
    set (size := if byte_to_Z b <? OP_PUSHDATA1 then Z.to_nat (byte_to_Z b)
                 else Z.to_nat (tools.le_value P)).
    set (d := firstn size (skipn (S pc + k) script_bin)).
    destruct (length d <? size)%nat eqn:E0; [discriminate|].
    intros Heq Hle.
    assert (Hres : opcode = byte_to_Z b /\ data = Some d
                   /\ pc' = (S pc + k + size)%nat)
      by (split; [|split]; congruence).
    destruct Hres as (-> & -> & ->). clear Heq.
    assert (E1 : (S pc + k <= length script_bin)%nat) by lia.
    assert (E2 : (S pc + k + size <= length script_bin)%nat) by lia.
    assert (HP : length P = k) by (unfold P; rewrite length_firstn, length_skipn; lia).
    assert (Hd : length d = size) by (unfold d; rewrite length_firstn, length_skipn; lia).
    assert (Hsplit : skipn (S pc) script_bin
                     = P ++ d ++ skipn (S pc + k + size) script_bin).
    { rewrite (skipn_split script_bin (S pc) k) at 1 by lia. fold P. f_equal.
      rewrite (skipn_split script_bin (S pc + k) size) at 1 by lia. reflexivity. }
    assert (Hk : k = if byte_to_Z b <? 76 then 0%nat
                     else if byte_to_Z b =? 76 then 1%nat
                     else if byte_to_Z b =? 77 then 2%nat else 4%nat) by reflexivity.
    pose proof (le_value_bound P) as HPb. rewrite HP in HPb.
    split.
    + unfold wf_word, OP_PUSHDATA1, OP_PUSHDATA2, OP_PUSHDATA4.
      replace (0 <=? byte_to_Z b) with true by (symmetry; apply Z.leb_le; lia).
      cbn [andb]. rewrite Hd. unfold size, OP_PUSHDATA1.
      destruct (byte_to_Z b <? 76) eqn:C1.
      * apply Z.eqb_eq. lia.
      * apply Z.ltb_ge in C1. rewrite Z2Nat.id by lia.
        destruct (byte_to_Z b =? 76) eqn:C2;
          [rewrite Hk in HPb; apply Z.ltb_lt; change (256 ^ Z.of_nat 1) with 256 in HPb; lia|].
        destruct (byte_to_Z b =? 77) eqn:C3;
          [rewrite Hk in HPb; apply Z.ltb_lt; change (256 ^ Z.of_nat 2) with 65536 in HPb; lia|].
        apply Z.eqb_neq in C2, C3.
        replace (byte_to_Z b =? 78) with true by (symmetry; apply Z.eqb_eq; lia).
        rewrite Hk in HPb. apply Z.ltb_lt.
        change (256 ^ Z.of_nat 4) with 4294967296 in HPb. lia.
    + cbn [encode_word]. rewrite byte_of_to_Z. cbn [app]. f_equal.
      fold k. rewrite Hd.
      assert (Hpre : tools.le_prefix size k = P).
      { rewrite <- HP. unfold size, OP_PUSHDATA1.
        destruct (byte_to_Z b <? 76) eqn:C1.
        - assert (Hk0 : k = 0%nat)
            by (unfold k, prefix_width, OP_PUSHDATA1; now rewrite C1).
          rewrite Hk0 in HP. destruct P; [reflexivity | discriminate].
        - apply le_prefix_value. lia. }
      rewrite Hpre, <- app_assoc. exact Hsplit.
  - apply Z.leb_gt in Ele. unfold OP_PUSHDATA4 in Ele.
    intros Heq _.
    assert (Hres : opcode = byte_to_Z b /\ data = None /\ pc' = S pc)
      by (split; [|split]; congruence).
    destruct Hres as (-> & -> & ->). clear Heq. split.
    + unfold wf_word, OP_PUSHDATA4.
      apply andb_true_intro. split; [apply Z.ltb_lt | apply Z.leb_le]; lia.
    + cbn [encode_word app]. now rewrite byte_of_to_Z.
Qed.

(** OP_PUSHDATA1/2/4 whose length prefix is cut short and reads as zero is
    returned as a push of the empty byte string; the next offset lies past
    the end of the script. *)
Lemma get_opcode_cut (tail : bytes) (w : word) :
  cut_pushdata tail = Some w ->
  tools.get_opcode tail 0 = Ok (fst w, snd w, (1 + prefix_width (fst w))%nat)
  /\ (length tail < 1 + prefix_width (fst w))%nat.
Proof.
  destruct tail as [|b rest]; [discriminate|]. unfold cut_pushdata.
  destruct (is_pushdata b) eqn:Hb; [|discriminate]. cbn [andb].
  destruct (length rest <? prefix_width (byte_to_Z b))%nat eqn:Hl; [|discriminate].
  cbn [andb].
  destruct (tools.le_value rest =? 0) eqn:Hv; [|discriminate].
  intros [= <-]. cbn [fst snd length].
  apply Nat.ltb_lt in Hl. apply Z.eqb_eq in Hv.
  split; [|lia].
  rewrite get_opcode_head.
  unfold is_pushdata in Hb. apply andb_prop in Hb as [Hb1 Hb2]. rewrite Hb2.
  apply Z.leb_le in Hb1.
  replace (byte_to_Z b <? OP_PUSHDATA1) with false by (symmetry; apply Z.ltb_ge; lia).
  rewrite firstn_all2 by lia. rewrite Hv. cbn [Z.to_nat firstn length Nat.ltb Nat.leb].
  do 2 f_equal. lia.
Qed.

(** Past the end of the script, what the decoder returned is such a push. *)
Lemma get_opcode_past_end (script_bin : bytes) (pc : nat)
    (opcode : Z) (data : option bytes) (pc' : nat) :
  tools.get_opcode script_bin pc = Ok (opcode, data, pc') ->
  (length script_bin < pc')%nat ->
  cut_pushdata (skipn pc script_bin) = Some (opcode, data).
Proof.
  unfold tools.get_opcode.
  destruct (nth_error script_bin pc) as [b|] eqn:Hb; [|discriminate].
  assert (Hpc : (pc < length script_bin)%nat) by (apply nth_error_Some; congruence).
  pose proof (byte_to_Z_range b) as Hr.
  rewrite (skipn_nth_error _ _ _ Hb).
  cbv zeta. fold (prefix_width (byte_to_Z b)).
  destruct (byte_to_Z b <=? OP_PUSHDATA4) eqn:Ele.
  - set (k := prefix_width (byte_to_Z b)).
    set (P := firstn k (skipn (S pc) script_bin)).
    set (size := if byte_to_Z b <? OP_PUSHDATA1 then Z.to_nat (byte_to_Z b)
                 else Z.to_nat (tools.le_value P)).
    set (d := firstn size (skipn (S pc + k) script_bin)).
    destruct (length d <? size)%nat eqn:E0; [discriminate|].
    apply Nat.ltb_ge in E0.
    intros Heq Hgt.
    assert (Hres : opcode = byte_to_Z b /\ data = Some d
                   /\ pc' = (S pc + k + size)%nat)
      by (split; [|split]; congruence).
    destruct Hres as (-> & -> & ->). clear Heq.
    assert (Hd : (length d <= length script_bin - (S pc + k))%nat)
      by (unfold d; rewrite length_firstn, length_skipn; lia).
    assert (Hcut : (length script_bin < S pc + k)%nat) by lia.
    assert (Hsize : size = 0%nat) by lia.
    assert (Hd0 : d = []) by (unfold d; rewrite Hsize; reflexivity).
    assert (Hk : (1 <= k)%nat) by lia.
    assert (Hop : OP_PUSHDATA1 <= byte_to_Z b).
    { destruct (Z.lt_ge_cases (byte_to_Z b) OP_PUSHDATA1) as [Hlt|]; [|assumption].
      exfalso. unfold k, prefix_width in Hk.
      replace (byte_to_Z b <? OP_PUSHDATA1) with true in Hk
        by (symmetry; apply Z.ltb_lt; assumption).
      lia. }
    assert (Hrest : (length (skipn (S pc) script_bin) < k)%nat)
      by (rewrite length_skipn; lia).
    unfold cut_pushdata, is_pushdata. rewrite Ele.
    replace (OP_PUSHDATA1 <=? byte_to_Z b) with true by (symmetry; apply Z.leb_le; lia).
    fold k. replace (length (skipn (S pc) script_bin) <? k)%nat with true
      by (symmetry; apply Nat.ltb_lt; assumption).
    cbn [andb].
    assert (HP : P = skipn (S pc) script_bin) by (unfold P; apply firstn_all2; lia).
    unfold size in Hsize.
    replace (byte_to_Z b <? OP_PUSHDATA1) with false in Hsize
      by (symmetry; apply Z.ltb_ge; assumption).
    pose proof (le_value_nonneg P) as HPn. rewrite HP in Hsize, HPn.
    replace (tools.le_value (skipn (S pc) script_bin) =? 0) with true
      by (symmetry; apply Z.eqb_eq; lia).
    now rewrite Hd0.
  - intros Heq Hgt. injection Heq as _ _ <-. lia.
Qed.

Lemma decode_words_complete (ws : list word) :
  forall pre fuel,
    wf_words ws -> (length ws <= fuel)%nat ->
    decode_words fuel (pre ++ encode_words ws) (length pre) = Ok ws.
Proof.
  induction ws as [|w ws IH]; intros pre fuel Hwf Hfuel; rewrite decode_words_eq.
  - cbn [encode_words map concat]. now rewrite app_nil_r, Nat.ltb_irrefl.
  - apply Forall_cons_iff in Hwf as [Hw Hwf]. cbn [length] in Hfuel.
    rewrite encode_words_cons, length_lt_app_word.
    destruct fuel as [|fuel]; [lia|].
    rewrite get_opcode_encode by assumption. cbn [bind].
    replace (length pre + length (encode_word w))%nat
      with (length (pre ++ encode_word w)) by now rewrite length_app.
    rewrite app_assoc, IH by (assumption || lia).
    cbn [bind]. now destruct w.
Qed.

(** The bytes of well-formed words decode to these words. *)
Lemma script_words_encode (ws : list word) :
  wf_words ws -> script_words (encode_words ws) = Ok ws.
Proof.
  intros Hwf. unfold script_words.
  apply (decode_words_complete ws []); [assumption | apply encode_words_length].
Qed.

(** ** What a successful validation says about the candidate *)

Lemma data_eqb_eq (a b : option bytes) : data_eqb a b = true -> a = b.
Proof.
  destruct a as [x|], b as [y|]; cbn; try discriminate; try reflexivity.
  destruct (list_eq_dec Byte.byte_eq_dec x y); [now subst | discriminate].
Qed.

Lemma data_eqb_refl (a : option bytes) : data_eqb a a = true.
Proof.
  destruct a as [x|]; cbn; [|reflexivity].
  destruct (list_eq_dec Byte.byte_eq_dec x x); [reflexivity | contradiction].
Qed.

Lemma word_eqb_eq (r u : word) : word_eqb r u = true -> r = u.
Proof.
  destruct r as [ro rd], u as [uo ud]. unfold word_eqb. cbn [fst snd].
  intros H. apply andb_prop in H as [Ho Hd].
  apply Z.eqb_eq in Ho. apply data_eqb_eq in Hd. now subst.
Qed.

Lemma word_eqb_refl (w : word) : word_eqb w w = true.
Proof. unfold word_eqb. now rewrite Z.eqb_refl, data_eqb_refl. Qed.

(** The two offsets only move forward. *)
Lemma _validate_loop_mono (fuel : nat) :
  forall R U r_pc u_pc r u,
    _validate_loop fuel R U r_pc u_pc = Ok (r, u) ->
    (r_pc <= r /\ u_pc <= u)%nat.
Proof.
  induction fuel as [|fuel IH]; intros R U r_pc u_pc r u; rewrite _validate_loop_eq.
  - destruct ((r_pc <? length R)%nat && (u_pc <? length U)%nat); [discriminate|].
    intros [= -> ->]. lia.
  - destruct ((r_pc <? length R)%nat && (u_pc <? length U)%nat);
      [|intros [= -> ->]; lia].
    destruct (tools.get_opcode R r_pc) as [[[r_opcode r_data] r_pc']|e] eqn:Er;
      cbn [bind]; [|discriminate].
    destruct (tools.get_opcode U u_pc) as [[[u_opcode u_data] u_pc']|e] eqn:Eu;
      cbn [bind]; [|discriminate].
    apply get_opcode_advances in Er, Eu.
    destruct (is_placeholder r_data);
      [intros Hl; apply IH in Hl; lia|].
    destruct (negb _ || negb _); [discriminate|].
    intros Hl; apply IH in Hl; lia.
Qed.

Lemma validate_loop_sound (fuel : nat) :
  forall R U r_pc u_pc,
    _validate_loop fuel R U r_pc u_pc = Ok (length R, length U) ->
    exists rws uws,
      wf_words rws /\ wf_words uws
      /\ skipn r_pc R = encode_words rws /\ skipn u_pc U = encode_words uws
      /\ words_match rws uws = true.
Proof.
  induction fuel as [|fuel IH]; intros R U r_pc u_pc; rewrite _validate_loop_eq.
  - destruct ((r_pc <? length R)%nat && (u_pc <? length U)%nat); [discriminate|].
    intros [= -> ->]. exists [], []. rewrite !skipn_all.
    repeat split; constructor.
  - destruct ((r_pc <? length R)%nat && (u_pc <? length U)%nat).
    + destruct (tools.get_opcode R r_pc) as [[[r_opcode r_data] r_pc']|e] eqn:Er;
        cbn [bind]; [|discriminate].
      destruct (tools.get_opcode U u_pc) as [[[u_opcode u_data] u_pc']|e] eqn:Eu;
        cbn [bind]; [|discriminate].
      assert (Hstep :
        is_placeholder r_data || word_eqb (r_opcode, r_data) (u_opcode, u_data) = true ->
        _validate_loop fuel R U r_pc' u_pc' = Ok (length R, length U) ->
        exists rws uws,
          wf_words rws /\ wf_words uws
          /\ skipn r_pc R = encode_words rws /\ skipn u_pc U = encode_words uws
          /\ words_match rws uws = true).
      { intros Hm Hl.
        destruct (_validate_loop_mono _ _ _ _ _ _ _ Hl) as [Hler Hleu].
        destruct (get_opcode_word _ _ _ _ _ Er Hler) as [Hwr Hsr].
        destruct (get_opcode_word _ _ _ _ _ Eu Hleu) as [Hwu Hsu].
        destruct (IH _ _ _ _ Hl) as (rws & uws & Hr & Hu & Hsr' & Hsu' & Hmm).
        exists ((r_opcode, r_data) :: rws), ((u_opcode, u_data) :: uws).
        split; [now constructor|]. split; [now constructor|].
        split; [now rewrite encode_words_cons, Hsr, Hsr'|].
        split; [now rewrite encode_words_cons, Hsu, Hsu'|].
        cbn [words_match snd]. now rewrite Hm, Hmm. }
      destruct (is_placeholder r_data) eqn:Ep; [now apply Hstep|].
      pose proof (mismatch_word_eqb (r_opcode, r_data) (u_opcode, u_data)) as Hmw.
      cbn [fst snd] in Hmw. rewrite Hmw.
      destruct (word_eqb (r_opcode, r_data) (u_opcode, u_data)) eqn:Ew;
        cbn [negb]; [|discriminate].
      now apply Hstep.
    + intros [= -> ->]. exists [], []. rewrite !skipn_all.
      repeat split; constructor.
Qed.

Lemma validate_ok_words (reference_script_hex untrusted_script_hex : string) :
  _validate reference_script_hex untrusted_script_hex = Ok tt
  <-> exists rws uws,
        h2b reference_script_hex = Ok (encode_words rws)
        /\ h2b untrusted_script_hex = Ok (encode_words uws)
        /\ wf_words rws /\ wf_words uws
        /\ words_match rws uws = true.
Proof.
  unfold _validate. split.
  - destruct (h2b reference_script_hex) as [R|]; cbn [bind]; [|discriminate].
    destruct (h2b untrusted_script_hex) as [U|]; cbn [bind]; [|discriminate].
    destruct (_validate_loop (length R) R U 0 0) as [[r_pc u_pc]|] eqn:El;
      cbn [bind]; [|discriminate].
    destruct (Nat.eqb_spec r_pc (length R)) as [->|]; cbn [negb orb]; [|discriminate].
    destruct (Nat.eqb_spec u_pc (length U)) as [->|]; cbn [negb]; [|discriminate].
    intros _. destruct (validate_loop_sound _ _ _ _ _ El)
      as (rws & uws & Hr & Hu & Hsr & Hsu & Hm).
    cbn [skipn] in Hsr, Hsu. exists rws, uws. now rewrite Hsr, Hsu.
  - intros (rws & uws & -> & -> & Hr & Hu & Hm). cbn [bind].
    pose proof (validate_loop_words rws uws [] [] (encode_words rws) (encode_words uws)
                  (length (encode_words rws)) eq_refl eq_refl Hr Hu
                  (encode_words_length rws)) as Hl.
    cbn [length] in Hl. rewrite Hl.
    now rewrite Hm.
Qed.

(** X1. [_validate] succeeds exactly when both hex strings are the bytes of
    well-formed words and the candidate's words match the reference's, a
    placeholder of the reference matching any word: a script that passed
    decodes to its end, word for word beside the reference. *)
Theorem validate_ok_iff (reference_script_hex untrusted_script_hex : string) :
  _validate reference_script_hex untrusted_script_hex = Ok tt
  <-> exists rws uws,
        h2b reference_script_hex = Ok (encode_words rws)
        /\ h2b untrusted_script_hex = Ok (encode_words uws)
        /\ wf_words rws /\ wf_words uws
        /\ words_match rws uws = true.
Proof. apply validate_ok_words. Qed.

(** ** The shape of the scripts that pass validation *)

Lemma words_match_fixed (o : Z) (rws : list word) (u : word) (uws : list word) :
  words_match (op o :: rws) (u :: uws) = true ->
  u = op o /\ words_match rws uws = true.
Proof.
  cbn [words_match op snd is_placeholder orb]. intros H.
  apply andb_prop in H as [Hu H]. apply word_eqb_eq in Hu. now subst.
Qed.

Lemma words_match_placeholder (rws : list word) (u : word) (uws : list word) :
  words_match (placeholder :: rws) (u :: uws) = words_match rws uws.
Proof. reflexivity. Qed.

Ltac match_slot H :=
  match type of H with
  | words_match (op _ :: _) ?uws = true =>
      let u := fresh "u" in
      let Hu := fresh "Hu" in
      destruct uws as [|u uws]; [discriminate H|];
      apply words_match_fixed in H as [Hu H]; subst u
  | words_match (placeholder :: _) ?uws = true =>
      let u := fresh "u" in
      destruct uws as [|u uws]; [discriminate H|];
      rewrite words_match_placeholder in H
  end.

Lemma words_match_deposit (uws : list word) :
  words_match deposit_reference uws = true
  <-> exists p1 b c p2 t p3, uws = deposit_slots p1 b c p2 t p3.
Proof.
  split.
  - unfold deposit_reference, deposit_words. intros H.
    do 21 match_slot H.
    destruct uws; [|discriminate H].
    repeat eexists.
  - intros (p1 & b & c & p2 & t & p3 & ->).
    unfold deposit_reference, deposit_words, deposit_slots.
    cbn [words_match]. rewrite !word_eqb_refl.
    reflexivity.
Qed.

Lemma words_match_commit (uws : list word) :
  words_match commit_reference uws = true
  <-> exists t c b r a, uws = commit_slots t c b r a.
Proof.
  split.
  - unfold commit_reference, commit_words. intros H.
    do 16 match_slot H.
    destruct uws; [|discriminate H].
    repeat eexists.
  - intros (t & c & b & r & a & ->).
    unfold commit_reference, commit_words, commit_slots.
    cbn [words_match]. rewrite !word_eqb_refl.
    reflexivity.
Qed.

Lemma encode_words_inj (a b : list word) :
  wf_words a -> wf_words b -> encode_words a = encode_words b -> a = b.
Proof.
  intros Ha Hb E.
  assert (H1 : script_words (encode_words a) = Ok a) by now apply script_words_encode.
  assert (H2 : script_words (encode_words b) = Ok b) by now apply script_words_encode.
  rewrite E in H1. congruence.
Qed.

(** The sequence-value parser returns a value exactly for the words that
    stand for one within range. *)
Lemma parse_sequence_value_ok (opcode : Z) (data : option bytes) (dis : string) (v : Z) :
  _parse_sequence_value opcode data dis = Ok v
  <-> sequence_value (opcode, data) = Some v /\ 0 <= v <= MAX_SEQUENCE.
Proof.
  unfold sequence_value, _parse_sequence_value, MAX_SEQUENCE.
  assert (Hfin : forall x,
    (if negb ((65535 >=? x) && (x >=? 0))
     then Raise (InvalidSequenceValue dis) else Ok x) = Ok v
    <-> Some x = Some v /\ 0 <= v <= 65535).
  { intros x. rewrite !Z.geb_leb.
    destruct (Z.leb_spec x 65535), (Z.leb_spec 0 x); cbn [andb negb];
      split; try discriminate; try (intros [= <-]; split; [reflexivity | lia]);
      try (intros [[= <-] ?]; first [reflexivity | lia]). }
  destruct (opcode =? 0) eqn:E0; cbn [bind].
  - apply (Hfin 0).
  - replace ((0 <? opcode) && (opcode <? 76)) with ((1 <=? opcode) && (opcode <=? 75))
      by (destruct (1 <=? opcode) eqn:A, (opcode <=? 75) eqn:B,
                   (0 <? opcode) eqn:C, (opcode <? 76) eqn:D; try reflexivity; lia).
    replace ((80 <? opcode) && (opcode <? 97)) with ((81 <=? opcode) && (opcode <=? 96))
      by (destruct (81 <=? opcode) eqn:A, (opcode <=? 96) eqn:B,
                   (80 <? opcode) eqn:C, (opcode <? 97) eqn:D; try reflexivity; lia).
    destruct ((1 <=? opcode) && (opcode <=? 75)).
    + destruct data as [d|]; cbn [bind]; [apply Hfin|].
      split; [discriminate | intros [? _]; discriminate].
    + destruct ((81 <=? opcode) && (opcode <=? 96)); cbn [bind]; [apply Hfin|].
      split; [discriminate | intros [? _]; discriminate].
Qed.

(** Validators and accessors read their input through [h2b] only. *)
Lemma validate_shape_hex (rws : list word) (script_hex : string) :
  wf_words rws ->
  _validate (b2h (encode_words rws)) script_hex = Ok tt
  <-> exists uws, h2b script_hex = Ok (encode_words uws)
                  /\ wf_words uws /\ words_match rws uws = true.
Proof.
  intros Hr. rewrite validate_ok_words. split.
  - intros (rws' & uws & Hh & Hu & Hr' & Hwu & Hm).
    rewrite h2b_b2h in Hh. injection Hh as Hh.
    apply encode_words_inj in Hh; [|assumption..]. subst rws'.
    now exists uws.
  - intros (uws & Hu & Hwu & Hm). exists rws, uws. now rewrite h2b_b2h.
Qed.

Lemma deposit_shape_iff (script_hex : string) :
  validate_deposit_script_shape script_hex = Ok tt
  <-> exists p1 b c p2 t p3,
        h2b script_hex = Ok (encode_words (deposit_slots p1 b c p2 t p3))
        /\ wf_words (deposit_slots p1 b c p2 t p3).
Proof.
  unfold validate_deposit_script_shape. rewrite compile_deposit_reference. cbn [bind].
  rewrite (validate_shape_hex _ _ wf_deposit_reference). split.
  - intros (uws & Hh & Hw & Hm). apply words_match_deposit in Hm
      as (p1 & b & c & p2 & t & p3 & ->). now exists p1, b, c, p2, t, p3.
  - intros (p1 & b & c & p2 & t & p3 & Hh & Hw).
    exists (deposit_slots p1 b c p2 t p3). split; [assumption|]. split; [assumption|].
    apply words_match_deposit. now exists p1, b, c, p2, t, p3.
Qed.

Lemma commit_shape_iff (script_hex : string) :
  validate_commit_script_shape script_hex = Ok tt
  <-> exists t c b r a,
        h2b script_hex = Ok (encode_words (commit_slots t c b r a))
        /\ wf_words (commit_slots t c b r a).
Proof.
  unfold validate_commit_script_shape. rewrite compile_commit_reference. cbn [bind].
  rewrite (validate_shape_hex _ _ wf_commit_reference). split.
  - intros (uws & Hh & Hw & Hm). apply words_match_commit in Hm
      as (t & c & b & r & a & ->). now exists t, c, b, r, a.
  - intros (t & c & b & r & a & Hh & Hw).
    exists (commit_slots t c b r a). split; [assumption|]. split; [assumption|].
    apply words_match_commit. now exists t, c, b, r, a.
Qed.

Lemma deposit_time_on_slots (script_hex : string) (p1 b c p2 t p3 : word) :
  h2b script_hex = Ok (encode_words (deposit_slots p1 b c p2 t p3)) ->
  wf_words (deposit_slots p1 b c p2 t p3) ->
  get_deposit_expire_time script_hex
  = _parse_sequence_value (fst t) (snd t)
      (tools.disassemble_for_opcode_data (fst t) (snd t)).
Proof.
  intros Hh Hw. unfold get_deposit_expire_time.
  replace (validate_deposit_script_shape script_hex) with (@Ok unit tt)
    by (symmetry; apply deposit_shape_iff; now exists p1, b, c, p2, t, p3).
  rewrite Hh. cbn [bind].
  now rewrite (get_word_words _ 14 t Hw eq_refl).
Qed.

Lemma commit_time_on_slots (script_hex : string) (t c b r a : word) :
  h2b script_hex = Ok (encode_words (commit_slots t c b r a)) ->
  wf_words (commit_slots t c b r a) ->
  get_commit_delay_time script_hex
  = _parse_sequence_value (fst t) (snd t)
      (tools.disassemble_for_opcode_data (fst t) (snd t)).
Proof.
  intros Hh Hw. unfold get_commit_delay_time.
  replace (validate_commit_script_shape script_hex) with (@Ok unit tt)
    by (symmetry; apply commit_shape_iff; now exists t, c, b, r, a).
  rewrite Hh. cbn [bind].
  now rewrite (get_word_words _ 1 t Hw eq_refl).
Qed.

Lemma valid_time_word_parse (t : word) (dis : string) :
  (exists v, _parse_sequence_value (fst t) (snd t) dis = Ok v) <-> valid_time_word t.
Proof.
  unfold valid_time_word. destruct t as [o d]. cbn [fst snd].
  split; intros [v Hv]; exists v; apply (parse_sequence_value_ok o d dis v); exact Hv.
Qed.

Lemma deposit_valid_iff (deposit_script_hex : string)
    (validate_expire_time : bool) :
  validate_deposit_script deposit_script_hex validate_expire_time = Ok tt
  <-> exists p1 b c p2 t p3,
        h2b deposit_script_hex = Ok (encode_words (deposit_slots p1 b c p2 t p3))
        /\ wf_words (deposit_slots p1 b c p2 t p3)
        /\ (validate_expire_time = true -> valid_time_word t).
Proof.
  rewrite validate_deposit_script_flag. split.
  - destruct (validate_deposit_script_shape deposit_script_hex) as [[]|] eqn:Es;
      cbn [bind]; [|discriminate].
    apply deposit_shape_iff in Es as (p1 & b & c & p2 & t & p3 & Hh & Hw).
    intros H. exists p1, b, c, p2, t, p3. split; [assumption|]. split; [assumption|].
    intros ->. rewrite (deposit_time_on_slots _ _ _ _ _ _ _ Hh Hw) in H.
    apply (valid_time_word_parse t (tools.disassemble_for_opcode_data (fst t) (snd t))).
    destruct (_parse_sequence_value _ _ _) as [v|]; [now exists v | discriminate].
  - intros (p1 & b & c & p2 & t & p3 & Hh & Hw & Ht).
    replace (validate_deposit_script_shape deposit_script_hex) with (@Ok unit tt)
      by (symmetry; apply deposit_shape_iff; now exists p1, b, c, p2, t, p3).
    cbn [bind]. destruct validate_expire_time; [|reflexivity].
    rewrite (deposit_time_on_slots _ _ _ _ _ _ _ Hh Hw).
    apply (valid_time_word_parse t (tools.disassemble_for_opcode_data (fst t) (snd t)))
      in Ht as [v ->]; [reflexivity | reflexivity].
Qed.

Lemma commit_valid_iff (commit_script_hex : string)
    (validate_delay_time : bool) :
  validate_commit_script commit_script_hex validate_delay_time = Ok tt
  <-> exists t c b r a,
        h2b commit_script_hex = Ok (encode_words (commit_slots t c b r a))
        /\ wf_words (commit_slots t c b r a)
        /\ (validate_delay_time = true -> valid_time_word t).
Proof.
  rewrite validate_commit_script_flag. split.
  - destruct (validate_commit_script_shape commit_script_hex) as [[]|] eqn:Es;
      cbn [bind]; [|discriminate].
    apply commit_shape_iff in Es as (t & c & b & r & a & Hh & Hw).
    intros H. exists t, c, b, r, a. split; [assumption|]. split; [assumption|].
    intros ->. rewrite (commit_time_on_slots _ _ _ _ _ _ Hh Hw) in H.
    apply (valid_time_word_parse t (tools.disassemble_for_opcode_data (fst t) (snd t))).
    destruct (_parse_sequence_value _ _ _) as [v|]; [now exists v | discriminate].
  - intros (t & c & b & r & a & Hh & Hw & Ht).
    replace (validate_commit_script_shape commit_script_hex) with (@Ok unit tt)
      by (symmetry; apply commit_shape_iff; now exists t, c, b, r, a).
    cbn [bind]. destruct validate_delay_time; [|reflexivity].
    rewrite (commit_time_on_slots _ _ _ _ _ _ Hh Hw).
    apply (valid_time_word_parse t (tools.disassemble_for_opcode_data (fst t) (snd t)))
      in Ht as [v ->]; [reflexivity | reflexivity].
Qed.

(** X3. A hex string passes [validate_deposit_script] exactly when it is the hex
    of a script of the deposit shape -- twenty-one well-formed words, the
    fixed opcodes of the template around six slots that may hold any word --
    whose expire-time slot, when the expire time is validated, stands for a
    sequence value in [0, 0xFFFF].  Nothing else is checked: not the length
    of a field, not that a slot holds a push, not that the three slots of
    the payer's public key hold the same word. *)
Theorem validate_deposit_script_iff (deposit_script_hex : string)
    (validate_expire_time : bool) :
  validate_deposit_script deposit_script_hex validate_expire_time = Ok tt
  <-> exists p1 b c p2 t p3,
        h2b deposit_script_hex = Ok (encode_words (deposit_slots p1 b c p2 t p3))
        /\ wf_words (deposit_slots p1 b c p2 t p3)
        /\ (validate_expire_time = true -> valid_time_word t).
Proof. apply deposit_valid_iff. Qed.

(** X4. A hex string passes [validate_commit_script] exactly when it is the hex
    of a script of the commit shape -- sixteen well-formed words, the fixed
    opcodes of the template around five slots that may hold any word -- whose
    delay-time slot, when the delay time is validated, stands for a sequence
    value in [0, 0xFFFF]. *)
Theorem validate_commit_script_iff (commit_script_hex : string)
    (validate_delay_time : bool) :
  validate_commit_script commit_script_hex validate_delay_time = Ok tt
  <-> exists t c b r a,
        h2b commit_script_hex = Ok (encode_words (commit_slots t c b r a))
        /\ wf_words (commit_slots t c b r a)
        /\ (validate_delay_time = true -> valid_time_word t).
Proof. apply commit_valid_iff. Qed.

(** ** What the accessors return on a validated script *)

Lemma word_data_hex_on (script_hex : string) (ws : list word) (k : nat) (w : word) :
  h2b script_hex = Ok (encode_words ws) ->
  wf_words ws ->
  nth_error ws k = Some w ->
  word_data_hex script_hex k = b2h_data (snd w).
Proof.
  intros Hh Hw Hk. unfold word_data_hex. rewrite Hh. cbn [bind].
  now rewrite (get_word_words ws k w Hw Hk).
Qed.

(** X5. On a script of the deposit shape with a valid expire time, each accessor
    returns what its own slot holds and nothing more: the hex of the data
    the slot's word pushes, of whatever length, or a TypeError when that
    word pushes no data; [get_deposit_payer_pubkey] reads the first of the
    payer's three slots and ignores the other two. *)
Theorem deposit_accessors_read_slots (script_hex : string)
    (p1 b c p2 t p3 : word) (v : Z) :
  h2b script_hex = Ok (encode_words (deposit_slots p1 b c p2 t p3)) ->
  wf_words (deposit_slots p1 b c p2 t p3) ->
  sequence_value t = Some v ->
  0 <= v <= MAX_SEQUENCE ->
  get_deposit_payer_pubkey script_hex = b2h_data (snd p1)
  /\ get_deposit_payee_pubkey script_hex = b2h_data (snd b)
  /\ get_deposit_spend_secret_hash script_hex = b2h_data (snd c)
  /\ get_deposit_expire_time script_hex = Ok v.
Proof.
  intros Hh Hw Hv Hr.
  assert (Hvalid : validate_deposit_script script_hex true = Ok tt).
  { apply deposit_valid_iff. exists p1, b, c, p2, t, p3.
    split; [assumption|]. split; [assumption|]. intros _. now exists v. }
  unfold get_deposit_payer_pubkey, get_deposit_payee_pubkey,
    get_deposit_spend_secret_hash.
  rewrite Hvalid. cbn [bind].
  split; [exact (word_data_hex_on _ _ 2 p1 Hh Hw eq_refl)|].
  split; [exact (word_data_hex_on _ _ 3 b Hh Hw eq_refl)|].
  split; [exact (word_data_hex_on _ _ 9 c Hh Hw eq_refl)|].
  rewrite (deposit_time_on_slots _ _ _ _ _ _ _ Hh Hw).
  destruct t as [o d]. apply (parse_sequence_value_ok o d _ v). split; assumption.
Qed.

Lemma deposit_accessors_read_slots_witness :
  let slots := deposit_slots (push [x02; x11]) (op 118) (push []) (op 81)
                 (time_word 1000) (push [x03]) in
  get_deposit_payer_pubkey (b2h (encode_words slots)) = Ok "0211"
  /\ get_deposit_payee_pubkey (b2h (encode_words slots)) = Raise TypeError
  /\ get_deposit_spend_secret_hash (b2h (encode_words slots)) = Ok ""
  /\ get_deposit_expire_time (b2h (encode_words slots)) = Ok 1000.
Proof.
  cbv zeta.
  apply (deposit_accessors_read_slots _ (push [x02; x11]) (op 118) (push []) (op 81)
           (time_word 1000) (push [x03]) 1000).
  - apply h2b_b2h.
  - repeat constructor.
  - reflexivity.
  - unfold MAX_SEQUENCE. lia.
Defined.

(** X6. On a script of the commit shape with a valid delay time, each accessor
    returns what its own slot holds: the hex of the data the slot's word
    pushes, of whatever length, or a TypeError when that word pushes no
    data. *)
Theorem commit_accessors_read_slots (script_hex : string)
    (t c b r a : word) (v : Z) :
  h2b script_hex = Ok (encode_words (commit_slots t c b r a)) ->
  wf_words (commit_slots t c b r a) ->
  sequence_value t = Some v ->
  0 <= v <= MAX_SEQUENCE ->
  get_commit_payer_pubkey script_hex = b2h_data (snd a)
  /\ get_commit_payee_pubkey script_hex = b2h_data (snd b)
  /\ get_commit_spend_secret_hash script_hex = b2h_data (snd c)
  /\ get_commit_revoke_secret_hash script_hex = b2h_data (snd r)
  /\ get_commit_delay_time script_hex = Ok v.
Proof.
  intros Hh Hw Hv Hr.
  assert (Hvalid : validate_commit_script script_hex true = Ok tt).
  { apply commit_valid_iff. exists t, c, b, r, a.
    split; [assumption|]. split; [assumption|]. intros _. now exists v. }
  unfold get_commit_payer_pubkey, get_commit_payee_pubkey,
    get_commit_spend_secret_hash, get_commit_revoke_secret_hash.
  rewrite Hvalid. cbn [bind].
  split; [exact (word_data_hex_on _ _ 13 a Hh Hw eq_refl)|].
  split; [exact (word_data_hex_on _ _ 7 b Hh Hw eq_refl)|].
  split; [exact (word_data_hex_on _ _ 5 c Hh Hw eq_refl)|].
  split; [exact (word_data_hex_on _ _ 11 r Hh Hw eq_refl)|].
  rewrite (commit_time_on_slots _ _ _ _ _ _ Hh Hw).
  destruct t as [o d]. apply (parse_sequence_value_ok o d _ v). split; assumption.
Qed.

Lemma commit_accessors_read_slots_witness :
  let slots := commit_slots (op 96) (push [x33; x33]) (op 172) (push []) (push [x02]) in
  get_commit_payer_pubkey (b2h (encode_words slots)) = Ok "02"
  /\ get_commit_payee_pubkey (b2h (encode_words slots)) = Raise TypeError
  /\ get_commit_spend_secret_hash (b2h (encode_words slots)) = Ok "3333"
  /\ get_commit_revoke_secret_hash (b2h (encode_words slots)) = Ok ""
  /\ get_commit_delay_time (b2h (encode_words slots)) = Ok 16.
Proof.
  cbv zeta.
  apply (commit_accessors_read_slots _ (op 96) (push [x33; x33]) (op 172) (push [])
           (push [x02]) 16).
  - apply h2b_b2h.
  - repeat constructor.
  - reflexivity.
  - unfold MAX_SEQUENCE. lia.
Defined.

(** ** The number of words *)

Lemma words_match_length (rws : list word) :
  forall uws, words_match rws uws = true -> length rws = length uws.
Proof.
  induction rws as [|r rws IH]; intros [|u uws] H; try discriminate; [reflexivity|].
  cbn [words_match] in H. apply andb_prop in H as [_ H].
  cbn [length]. f_equal. now apply IH.
Qed.

(** X2. A candidate with more or fewer words than the reference is rejected
    with InvalidScript, whatever the words are: trailing words are not
    ignored, and placeholders do not make up for missing ones. *)
Theorem validate_rejects_other_word_count (rws uws : list word) :
  wf_words rws -> wf_words uws ->
  length rws <> length uws ->
  _validate (b2h (encode_words rws)) (b2h (encode_words uws))
  = Raise (InvalidScript (b2h (encode_words uws))).
Proof.
  intros Hr Hu Hlen. rewrite validate_words by assumption.
  destruct (words_match rws uws) eqn:E; [|reflexivity].
  apply words_match_length in E. contradiction.
Qed.

Lemma validate_rejects_other_word_count_witness :
  _validate (b2h (encode_words [placeholder; placeholder]))
            (b2h (encode_words [push [x01]; push [x02]; op 81]))
  = Raise (InvalidScript "0101010251").
Proof.
  apply (validate_rejects_other_word_count [placeholder; placeholder]
           [push [x01]; push [x02]; op 81]).
  - repeat constructor.
  - repeat constructor.
  - cbn [length]. lia.
Defined.

(** ** The spend secret of a payout scriptSig *)

Lemma compile_token_hex (d : bytes) :
  (12 <= length d)%nat ->
  tools.compile_token (b2h d) = Ok (tools.write_push_data d).
Proof.
  intros Hlen. unfold tools.compile_token.
  rewrite OPCODE_TO_INT_long by (rewrite b2h_length; lia).
  rewrite OPCODE_TO_INT_long
    by (rewrite append_length, b2h_length; cbn [String.length]; lia).
  destruct d as [|b d]; [cbn in Hlen; lia|].
  pose proof (b2h_head_facts b (b2h d)) as (_ & _ & H3 & _).
  cbv zeta in H3. cbn [b2h]. rewrite H3.
  change (String _ (String _ (b2h d))) with (b2h (b :: d)).
  rewrite compile_expression_b2h by lia. reflexivity.
Qed.

Lemma write_push_data_script_push (d : bytes) :
  (2 <= length d)%nat -> tools.write_push_data d = encode_word (script_push d).
Proof.
  intros Hlen. unfold script_push.
  destruct (Z.leb_spec (Z.of_nat (length d)) 75) as [H75|H75].
  - apply write_push_data_direct. lia.
  - destruct d as [|b1 [|b2 d]]; cbn [length] in Hlen; try lia.
    unfold tools.write_push_data.
    set (l := b1 :: b2 :: d) in *.
    replace (75 <? Z.of_nat (length l)) with true by (symmetry; apply Z.ltb_lt; lia).
    destruct (Z.of_nat (length l) <=? 255); [reflexivity|].
    destruct (Z.of_nat (length l) <=? 65535); reflexivity.
Qed.

Lemma wf_script_push (d : bytes) :
  Z.of_nat (length d) < 4294967296 -> wf_word (script_push d) = true.
Proof.
  intros Hlen. unfold script_push.
  destruct (Z.leb_spec (Z.of_nat (length d)) 75) as [H75|H75];
    [apply wf_push; lia|].
  destruct (Z.leb_spec (Z.of_nat (length d)) 255) as [H255|H255].
  { unfold wf_word, OP_PUSHDATA1. cbn.
    apply Z.ltb_lt. lia. }
  destruct (Z.leb_spec (Z.of_nat (length d)) 65535) as [H64|H64].
  { unfold wf_word, OP_PUSHDATA1, OP_PUSHDATA2. cbn.
    apply Z.ltb_lt. lia. }
  unfold wf_word, OP_PUSHDATA1, OP_PUSHDATA2, OP_PUSHDATA4. cbn.
  apply Z.ltb_lt. lia.
Qed.

Lemma split_join (sig_asm script_hex : string) :
  is_token script_hex ->
  tools.split (sig_asm +++ " " +++ script_hex +++ "")
  = tools.split sig_asm ++ [script_hex].
Proof.
  intros [Hn He]. rewrite split_starts by reflexivity. f_equal.
  rewrite append_nil_r.
  change (tools.split (" " +++ script_hex)) with (tools.split script_hex).
  now apply split_token.
Qed.

Lemma encode_words_min_length (ws : list word) :
  (length ws <= length (encode_words ws))%nat.
Proof.
  induction ws as [|w ws IH]; [cbn; lia|].
  rewrite encode_words_cons, length_app. cbn [length].
  assert (1 <= length (encode_word w))%nat; [|lia].
  destruct w as [o [d|]]; cbn [encode_word length]; lia.
Qed.

Lemma valid_commit_script_long (commit_script_bin : bytes) :
  validate_commit_script (b2h commit_script_bin) true = Ok tt ->
  (16 <= length commit_script_bin)%nat.
Proof.
  intros Hv. apply commit_valid_iff in Hv
    as (t & c & b & r & a & Hh & _ & _).
  rewrite h2b_b2h in Hh. injection Hh as ->.
  apply (encode_words_min_length (commit_slots t c b r a)).
Qed.

(** The scriptSig [_compile_payout_scriptsig] assembles, as words. *)
Lemma compile_payout_scriptsig_words (a b : string) (wa wb : word)
    (commit_script_bin : bytes) :
  is_token a -> is_token b ->
  tools.compile_token a = Ok (encode_word wa) ->
  tools.compile_token b = Ok (encode_word wb) ->
  validate_commit_script (b2h commit_script_bin) true = Ok tt ->
  _compile_payout_scriptsig a b (b2h commit_script_bin)
  = Ok (b2h (encode_words (payout_scriptsig_words wa wb commit_script_bin))).
Proof.
  intros Ta Tb Ha Hb Hv. pose proof (valid_commit_script_long _ Hv) as Hlen.
  unfold _compile_payout_scriptsig. rewrite Hv. cbn [bind].
  destruct (format PAYOUT_SCRIPTSIG _) as [s|e] eqn:E; [|vm_compute in E; discriminate].
  cbn [bind].
  change (format JOIN_TEMPLATE [("0", s); ("1", b2h commit_script_bin)])
    with (@Ok string (s +++ " " +++ b2h commit_script_bin +++ "")).
  cbn [bind]. unfold tools.compile.
  assert (Th : is_token (b2h commit_script_bin)).
  { split; [apply no_space_b2h|].
    destruct commit_script_bin; [cbn in Hlen; lia | discriminate]. }
  rewrite split_join by assumption.
  rewrite (fun H => split_format PAYOUT_SCRIPTSIG _ s eq_refl H E)
    by (repeat (apply Forall_cons; [assumption|]); apply Forall_nil).
  change (template_tokens PAYOUT_SCRIPTSIG _) with [a; b; "OP_1"].
  cbn [app tools.compile_tokens]. rewrite Ha, Hb.
  rewrite compile_token_hex by lia.
  rewrite write_push_data_script_push by lia.
  eval_tokens. cbn [bind]. reflexivity.
Qed.

Lemma is_token_deadbeef : is_token "deadbeef".
Proof. split; [reflexivity | discriminate]. Qed.

Lemma compile_token_deadbeef :
  tools.compile_token "deadbeef" = Ok (encode_word placeholder).
Proof. vm_compute. reflexivity. Qed.

Lemma wf_payout_scriptsig_words (w0 w1 : word) (commit_script_bin : bytes) :
  wf_word w0 = true -> wf_word w1 = true ->
  Z.of_nat (length commit_script_bin) < 4294967296 ->
  wf_words (payout_scriptsig_words w0 w1 commit_script_bin).
Proof.
  intros H0 H1 Hlen. unfold payout_scriptsig_words.
  repeat (apply Forall_cons; [first [assumption | reflexivity | now apply wf_script_push]|]).
  apply Forall_nil.
Qed.

(** The payout test of [get_spend_secret], on a scriptSig made of words. *)
Lemma validate_payout_scriptsig_words (uws : list word) (commit_script_bin : bytes) :
  validate_commit_script (b2h commit_script_bin) true = Ok tt ->
  Z.of_nat (length commit_script_bin) < 4294967296 ->
  wf_words uws ->
  _validate_payout_scriptsig (b2h (encode_words uws)) (b2h commit_script_bin)
  = if words_match (payout_scriptsig_words placeholder placeholder commit_script_bin) uws
    then Ok tt else Raise (InvalidScript (b2h (encode_words uws))).
Proof.
  intros Hv Hlen Hu. unfold _validate_payout_scriptsig.
  rewrite (compile_payout_scriptsig_words _ _ placeholder placeholder _
             is_token_deadbeef is_token_deadbeef
             compile_token_deadbeef compile_token_deadbeef Hv).
  cbn [bind]. apply validate_words; [|assumption].
  apply wf_payout_scriptsig_words; [reflexivity | reflexivity | assumption].
Qed.

Lemma get_spend_secret_on_words `{Host} (payout_rawtx : string) (tx : Tx)
    (rest : list TxIn) (commit_script_bin : bytes) (w0 w1 : word) :
  validate_commit_script (b2h commit_script_bin) true = Ok tt ->
  Z.of_nat (length commit_script_bin) < 4294967296 ->
  wf_word w0 = true -> wf_word w1 = true ->
  Tx_from_hex payout_rawtx = Ok tx ->
  txs_in tx
  = {| script := encode_words (payout_scriptsig_words w0 w1 commit_script_bin) |} :: rest ->
  get_spend_secret payout_rawtx (b2h commit_script_bin)
  = (s <- b2h_data (snd w1) ;; Ok (Some s)).
Proof.
  intros Hv Hlen H0 H1 Htx Hin.
  pose proof (wf_payout_scriptsig_words w0 w1 _ H0 H1 Hlen) as Hwf.
  unfold get_spend_secret. rewrite Hv. cbn [bind]. rewrite Htx. cbn [bind].
  rewrite Hin. cbn [nth_error script].
  rewrite validate_payout_scriptsig_words by assumption.
  replace (words_match _ _) with true
    by (unfold payout_scriptsig_words; cbn [words_match];
        rewrite !word_eqb_refl, !orb_true_r; reflexivity).
  rewrite (get_word_words _ 3 (script_push commit_script_bin) Hwf eq_refl).
  cbn [bind].
  rewrite (get_word_words _ 1 w1 Hwf eq_refl).
  reflexivity.
Qed.

(** X9. What [_compile_payout_scriptsig] assembles from a signature, a spend
    secret and a valid commit script -- the pushes of the signature and of
    the secret, OP_1, and the push of the commit script -- [get_spend_secret]
    reads back: on a transaction whose first input carries that scriptSig it
    returns the spend secret. *)
Theorem get_spend_secret_round_trip `{Host} (sig spend_secret commit_script_bin : bytes)
    (payout_rawtx : string) (tx : Tx) (rest : list TxIn) :
  validate_commit_script (b2h commit_script_bin) true = Ok tt ->
  Z.of_nat (length commit_script_bin) < 4294967296 ->
  field_ok sig -> field_ok spend_secret ->
  Tx_from_hex payout_rawtx = Ok tx ->
  txs_in tx
  = {| script := encode_words (payout_scriptsig_words (push sig) (push spend_secret)
                                 commit_script_bin) |} :: rest ->
  _compile_payout_scriptsig (b2h sig) (b2h spend_secret) (b2h commit_script_bin)
  = Ok (b2h (encode_words (payout_scriptsig_words (push sig) (push spend_secret)
                             commit_script_bin)))
  /\ get_spend_secret payout_rawtx (b2h commit_script_bin)
     = Ok (Some (b2h spend_secret)).
Proof.
  intros Hv Hlen Hsig Hsec Htx Hin. split.
  - apply compile_payout_scriptsig_words;
      try (apply is_token_b2h; assumption);
      try (apply compile_token_b2h; assumption); assumption.
  - rewrite (get_spend_secret_on_words payout_rawtx tx rest commit_script_bin
               (push sig) (push spend_secret) Hv Hlen);
      try assumption; try reflexivity;
      apply wf_push; unfold field_ok in *; lia.
Qed.

Lemma get_spend_secret_round_trip_witness :
  let scriptsig_bin :=
    encode_words (payout_scriptsig_words (push (repeat x30 71)) (push (repeat x55 32))
                    sample_commit_script) in
  _compile_payout_scriptsig (b2h (repeat x30 71)) (b2h (repeat x55 32))
    (b2h sample_commit_script) = Ok (b2h scriptsig_bin)
  /\ get_spend_secret (H := sample_host) (b2h scriptsig_bin) (b2h sample_commit_script)
     = Ok (Some (b2h (repeat x55 32))).
Proof.
  cbv zeta.
  apply (get_spend_secret_round_trip (H := sample_host)
           (repeat x30 71) (repeat x55 32) sample_commit_script _
           {| txs_in := [ {| script :=
                encode_words (payout_scriptsig_words (push (repeat x30 71))
                                (push (repeat x55 32)) sample_commit_script) |} ] |}
           []).
  - vm_compute. reflexivity.
  - vm_compute. reflexivity.
  - unfold field_ok. cbn. lia.
  - unfold field_ok. cbn. lia.
  - cbn [Tx_from_hex sample_host]. now rewrite h2b_b2h.
  - reflexivity.
Defined.

(** X10. A scriptSig that decodes to words other than a payout of the commit
    script -- another number of words, another third word than OP_1, or the
    push of another script -- is no payout: [get_spend_secret] returns
    [None]. *)
Theorem get_spend_secret_none `{Host} (payout_rawtx : string) (tx : Tx)
    (rest : list TxIn) (commit_script_bin : bytes) (uws : list word) :
  validate_commit_script (b2h commit_script_bin) true = Ok tt ->
  Z.of_nat (length commit_script_bin) < 4294967296 ->
  Tx_from_hex payout_rawtx = Ok tx ->
  txs_in tx = {| script := encode_words uws |} :: rest ->
  wf_words uws ->
  words_match (payout_scriptsig_words placeholder placeholder commit_script_bin) uws
  = false ->
  get_spend_secret payout_rawtx (b2h commit_script_bin) = Ok None.
Proof.
  intros Hv Hlen Htx Hin Hwf Hm.
  unfold get_spend_secret. rewrite Hv. cbn [bind]. rewrite Htx. cbn [bind].
  rewrite Hin. cbn [nth_error script].
  rewrite validate_payout_scriptsig_words by assumption.
  rewrite Hm. reflexivity.
Qed.

Lemma get_spend_secret_none_witness :
  let revoke_scriptsig :=
    encode_words [ push (repeat x30 71); push (repeat x55 32); (0, Some []);
                   script_push sample_commit_script ] in
  get_spend_secret (H := sample_host) (b2h revoke_scriptsig) (b2h sample_commit_script)
  = Ok None.
Proof.
  cbv zeta.
  apply (get_spend_secret_none (H := sample_host) _
           {| txs_in := [ {| script :=
                encode_words [ push (repeat x30 71); push (repeat x55 32); (0, Some []);
                               script_push sample_commit_script ] |} ] |}
           [] sample_commit_script
           [ push (repeat x30 71); push (repeat x55 32); (0, Some []);
             script_push sample_commit_script ]).
  - vm_compute. reflexivity.
  - vm_compute. reflexivity.
  - cbn [Tx_from_hex sample_host]. now rewrite h2b_b2h.
  - reflexivity.
  - repeat constructor.
  - vm_compute. reflexivity.
Defined.

(** ** The templates of the matchers *)

Lemma is_token_OP_PUBKEY : is_token "OP_PUBKEY".
Proof. split; [reflexivity | discriminate]. Qed.

Lemma is_token_OP_PUBKEYHASH : is_token "OP_PUBKEYHASH".
Proof. split; [reflexivity | discriminate]. Qed.

Lemma compile_token_OP_PUBKEY :
  tools.compile_token "OP_PUBKEY" = Ok (encode_word (op 254)).
Proof. vm_compute. reflexivity. Qed.

Lemma compile_token_OP_PUBKEYHASH :
  tools.compile_token "OP_PUBKEYHASH" = Ok (encode_word (op 253)).
Proof. vm_compute. reflexivity. Qed.

Lemma deposit_handler_built (expire_time : Z) :
  0 <= expire_time <= 0xFFFF ->
  _DepositScriptHandler expire_time = Ok (DepositScript (deposit_template expire_time)).
Proof.
  intros Ht. destruct (time_token_facts expire_time Ht) as (Hc & Hw & Hp & Htok).
  unfold _DepositScriptHandler.
  change (compile_deposit_script "OP_PUBKEY" "OP_PUBKEY" "OP_PUBKEYHASH"
            (IntArg expire_time))
    with (compile_deposit_script "OP_PUBKEY" "OP_PUBKEY" "OP_PUBKEYHASH"
            (StrArg (str_of_Z expire_time))).
  rewrite (compile_deposit_tokens _ _ _ _ (op 254) (op 254) (op 253)
             (time_word expire_time)
             is_token_OP_PUBKEY is_token_OP_PUBKEY is_token_OP_PUBKEYHASH Htok
             compile_token_OP_PUBKEY compile_token_OP_PUBKEY
             compile_token_OP_PUBKEYHASH Hc).
  cbn [bind]. rewrite h2b_b2h. reflexivity.
Qed.

(** X11. For every expire time in [0, 0xFFFF], [_DepositScriptHandler] builds its
    matcher class: the template is the deposit script with OP_PUBKEY in the
    three slots of the payer's key and in the slot of the payee's key,
    OP_PUBKEYHASH in the slot of the hash, and the word of the expire time.
    The template passes the deposit validation although its slots hold no
    data, and [get_deposit_expire_time], which [from_script] applies to it,
    returns the expire time. *)
Theorem deposit_handler_template (expire_time : Z) :
  0 <= expire_time <= 0xFFFF ->
  _DepositScriptHandler expire_time = Ok (DepositScript (deposit_template expire_time))
  /\ validate_deposit_script (b2h (deposit_template expire_time)) true = Ok tt
  /\ get_deposit_expire_time (b2h (deposit_template expire_time)) = Ok expire_time.
Proof.
  intros Ht. destruct (time_token_facts expire_time Ht) as (Hc & Hw & Hp & Htok).
  assert (Hwf : wf_words (deposit_words (op 254) (op 254) (op 253)
                            (time_word expire_time)))
    by (apply wf_deposit_words; first [reflexivity | assumption]).
  assert (Hh : h2b (b2h (deposit_template expire_time))
               = Ok (encode_words (deposit_slots (op 254) (op 254) (op 253) (op 254)
                                     (time_word expire_time) (op 254))))
    by apply h2b_b2h.
  assert (Htime : get_deposit_expire_time (b2h (deposit_template expire_time))
                  = Ok expire_time).
  { rewrite (deposit_time_on_slots _ _ _ _ _ _ _ Hh Hwf). apply Hp. }
  split; [|split].
  - now apply deposit_handler_built.
  - rewrite validate_deposit_script_flag.
    replace (validate_deposit_script_shape (b2h (deposit_template expire_time)))
      with (@Ok unit tt)
      by (symmetry; apply deposit_shape_iff;
          exists (op 254), (op 254), (op 253), (op 254), (time_word expire_time), (op 254);
          split; assumption).
    cbn [bind]. now rewrite Htime.
  - exact Htime.
Qed.

Lemma deposit_handler_template_witness :
  _DepositScriptHandler 1000 = Ok (DepositScript (deposit_template 1000))
  /\ validate_deposit_script (b2h (deposit_template 1000)) true = Ok tt
  /\ get_deposit_expire_time (b2h (deposit_template 1000)) = Ok 1000.
Proof. apply (deposit_handler_template 1000). lia. Defined.

Lemma commit_handler_built (delay_time : Z) :
  0 <= delay_time <= 0xFFFF ->
  _CommitScriptHandler delay_time = Ok (CommitScript (commit_template delay_time)).
Proof.
  intros Ht. destruct (time_token_facts delay_time Ht) as (Hc & Hw & Hp & Htok).
  unfold _CommitScriptHandler.
  change (compile_commit_script "OP_PUBKEY" "OP_PUBKEY" "OP_PUBKEYHASH"
            "OP_PUBKEYHASH" (IntArg delay_time))
    with (compile_commit_script "OP_PUBKEY" "OP_PUBKEY" "OP_PUBKEYHASH"
            "OP_PUBKEYHASH" (StrArg (str_of_Z delay_time))).
  rewrite (compile_commit_tokens _ _ _ _ _ (op 254) (op 254) (op 253) (op 253)
             (time_word delay_time)
             is_token_OP_PUBKEY is_token_OP_PUBKEY is_token_OP_PUBKEYHASH
             is_token_OP_PUBKEYHASH Htok
             compile_token_OP_PUBKEY compile_token_OP_PUBKEY
             compile_token_OP_PUBKEYHASH compile_token_OP_PUBKEYHASH Hc).
  cbn [bind]. rewrite h2b_b2h. reflexivity.
Qed.

(** X12. For every delay time in [0, 0xFFFF], [_CommitScriptHandler] builds its
    matcher class: the template is the commit script with OP_PUBKEY in the
    slots of the two keys, OP_PUBKEYHASH in the slots of the two hashes, and
    the word of the delay time.  The template passes the commit validation,
    and [get_commit_delay_time], which [from_script] applies to it, returns
    the delay time. *)
Theorem commit_handler_template (delay_time : Z) :
  0 <= delay_time <= 0xFFFF ->
  _CommitScriptHandler delay_time = Ok (CommitScript (commit_template delay_time))
  /\ validate_commit_script (b2h (commit_template delay_time)) true = Ok tt
  /\ get_commit_delay_time (b2h (commit_template delay_time)) = Ok delay_time.
Proof.
  intros Ht. destruct (time_token_facts delay_time Ht) as (Hc & Hw & Hp & Htok).
  assert (Hwf : wf_words (commit_words (op 254) (op 254) (op 253) (op 253)
                            (time_word delay_time)))
    by (apply wf_commit_words; first [reflexivity | assumption]).
  assert (Hh : h2b (b2h (commit_template delay_time))
               = Ok (encode_words (commit_slots (time_word delay_time) (op 253) (op 254)
                                     (op 253) (op 254))))
    by apply h2b_b2h.
  assert (Htime : get_commit_delay_time (b2h (commit_template delay_time))
                  = Ok delay_time).
  { rewrite (commit_time_on_slots _ _ _ _ _ _ Hh Hwf). apply Hp. }
  split; [|split].
  - now apply commit_handler_built.
  - rewrite validate_commit_script_flag.
    replace (validate_commit_script_shape (b2h (commit_template delay_time)))
      with (@Ok unit tt)
      by (symmetry; apply commit_shape_iff;
          exists (time_word delay_time), (op 253), (op 254), (op 253), (op 254);
          split; assumption).
    cbn [bind]. now rewrite Htime.
  - exact Htime.
Qed.

Lemma commit_handler_template_witness :
  _CommitScriptHandler 7 = Ok (CommitScript (commit_template 7))
  /\ validate_commit_script (b2h (commit_template 7)) true = Ok tt
  /\ get_commit_delay_time (b2h (commit_template 7)) = Ok 7.
Proof. apply (commit_handler_template 7). lia. Defined.

(** ** Compiled scripts and their fields *)

Lemma Ok_inj {A} (a b : A) : Ok a = Ok b -> a = b.
Proof. now intros [= ->]. Qed.

(** X13. Two deposit scripts compiled from fields that the assembler takes as
    pushes (12 to 75 bytes each) and from times in [0, 0xFFFF] are equal only
    when all their fields are: the compiled script determines the payer's
    and the payee's key, the spend secret hash and the expire time. *)
Theorem compile_deposit_script_injective
    (payer_pubkey payee_pubkey spend_secret_hash : bytes) (expire_time : Z)
    (payer_pubkey' payee_pubkey' spend_secret_hash' : bytes) (expire_time' : Z) :
  field_ok payer_pubkey -> field_ok payee_pubkey -> field_ok spend_secret_hash ->
  0 <= expire_time <= 0xFFFF ->
  field_ok payer_pubkey' -> field_ok payee_pubkey' -> field_ok spend_secret_hash' ->
  0 <= expire_time' <= 0xFFFF ->
  compile_deposit_script (b2h payer_pubkey) (b2h payee_pubkey)
    (b2h spend_secret_hash) (IntArg expire_time)
  = compile_deposit_script (b2h payer_pubkey') (b2h payee_pubkey')
      (b2h spend_secret_hash') (IntArg expire_time') ->
  payer_pubkey = payer_pubkey' /\ payee_pubkey = payee_pubkey'
  /\ spend_secret_hash = spend_secret_hash' /\ expire_time = expire_time'.
Proof.
  intros Ha Hb Hc Ht Ha' Hb' Hc' Ht' E.
  rewrite (deposit_compiled _ _ _ _ Ha Hb Hc Ht) in E.
  rewrite (deposit_compiled _ _ _ _ Ha' Hb' Hc' Ht') in E.
  apply Ok_inj in E.
  pose proof (deposit_payer_pubkey _ _ _ _ Ha Hb Hc Ht) as P.
  pose proof (deposit_payee_pubkey _ _ _ _ Ha Hb Hc Ht) as Q.
  pose proof (deposit_spend_secret_hash _ _ _ _ Ha Hb Hc Ht) as R.
  pose proof (deposit_expire_time _ _ _ _ Ha Hb Hc Ht) as T.
  rewrite E in P, Q, R, T.
  rewrite (deposit_payer_pubkey _ _ _ _ Ha' Hb' Hc' Ht') in P.
  rewrite (deposit_payee_pubkey _ _ _ _ Ha' Hb' Hc' Ht') in Q.
  rewrite (deposit_spend_secret_hash _ _ _ _ Ha' Hb' Hc' Ht') in R.
  rewrite (deposit_expire_time _ _ _ _ Ha' Hb' Hc' Ht') in T.
  apply Ok_inj in P, Q, R, T.
  apply b2h_inj in P, Q, R. now subst.
Qed.

Lemma compile_deposit_script_injective_witness :
  compile_deposit_script (b2h sample_pubkey_a) (b2h sample_pubkey_b)
    (b2h sample_hash_s) (IntArg 1000)
  = compile_deposit_script (b2h sample_pubkey_a) (b2h sample_pubkey_b)
      (b2h sample_hash_s) (IntArg 1000)
  /\ sample_pubkey_a = sample_pubkey_a /\ sample_pubkey_b = sample_pubkey_b
  /\ sample_hash_s = sample_hash_s /\ 1000 = 1000.
Proof.
  split; [reflexivity|].
  apply (compile_deposit_script_injective sample_pubkey_a sample_pubkey_b sample_hash_s
           1000 sample_pubkey_a sample_pubkey_b sample_hash_s 1000);
    first [reflexivity | lia | (unfold field_ok; cbn; lia)].
Defined.

(** X14. Two commit scripts compiled from fields that the assembler takes as
    pushes (12 to 75 bytes each) and from times in [0, 0xFFFF] are equal only
    when all their fields are. *)
Theorem compile_commit_script_injective
    (payer_pubkey payee_pubkey spend_secret_hash revoke_secret_hash : bytes)
    (delay_time : Z)
    (payer_pubkey' payee_pubkey' spend_secret_hash' revoke_secret_hash' : bytes)
    (delay_time' : Z) :
  field_ok payer_pubkey -> field_ok payee_pubkey -> field_ok spend_secret_hash ->
  field_ok revoke_secret_hash -> 0 <= delay_time <= 0xFFFF ->
  field_ok payer_pubkey' -> field_ok payee_pubkey' -> field_ok spend_secret_hash' ->
  field_ok revoke_secret_hash' -> 0 <= delay_time' <= 0xFFFF ->
  compile_commit_script (b2h payer_pubkey) (b2h payee_pubkey)
    (b2h spend_secret_hash) (b2h revoke_secret_hash) (IntArg delay_time)
  = compile_commit_script (b2h payer_pubkey') (b2h payee_pubkey')
      (b2h spend_secret_hash') (b2h revoke_secret_hash') (IntArg delay_time') ->
  payer_pubkey = payer_pubkey' /\ payee_pubkey = payee_pubkey'
  /\ spend_secret_hash = spend_secret_hash'
  /\ revoke_secret_hash = revoke_secret_hash' /\ delay_time = delay_time'.
Proof.
  intros Ha Hb Hc Hr Ht Ha' Hb' Hc' Hr' Ht' E.
  rewrite (commit_compiled _ _ _ _ _ Ha Hb Hc Hr Ht) in E.
  rewrite (commit_compiled _ _ _ _ _ Ha' Hb' Hc' Hr' Ht') in E.
  apply Ok_inj in E.
  pose proof (commit_payer_pubkey _ _ _ _ _ Ha Hb Hc Hr Ht) as P.
  pose proof (commit_payee_pubkey _ _ _ _ _ Ha Hb Hc Hr Ht) as Q.
  pose proof (commit_spend_secret_hash _ _ _ _ _ Ha Hb Hc Hr Ht) as R.
  pose proof (commit_revoke_secret_hash _ _ _ _ _ Ha Hb Hc Hr Ht) as S.
  pose proof (commit_delay_time _ _ _ _ _ Ha Hb Hc Hr Ht) as T.
  rewrite E in P, Q, R, S, T.
  rewrite (commit_payer_pubkey _ _ _ _ _ Ha' Hb' Hc' Hr' Ht') in P.
  rewrite (commit_payee_pubkey _ _ _ _ _ Ha' Hb' Hc' Hr' Ht') in Q.
  rewrite (commit_spend_secret_hash _ _ _ _ _ Ha' Hb' Hc' Hr' Ht') in R.
  rewrite (commit_revoke_secret_hash _ _ _ _ _ Ha' Hb' Hc' Hr' Ht') in S.
  rewrite (commit_delay_time _ _ _ _ _ Ha' Hb' Hc' Hr' Ht') in T.
  apply Ok_inj in P, Q, R, S, T.
  apply b2h_inj in P, Q, R, S. now subst.
Qed.

Lemma compile_commit_script_injective_witness :
  compile_commit_script (b2h sample_pubkey_a) (b2h sample_pubkey_b)
    (b2h sample_hash_s) (b2h sample_hash_r) (IntArg 7)
  = compile_commit_script (b2h sample_pubkey_a) (b2h sample_pubkey_b)
      (b2h sample_hash_s) (b2h sample_hash_r) (IntArg 7)
  /\ sample_pubkey_a = sample_pubkey_a /\ sample_pubkey_b = sample_pubkey_b
  /\ sample_hash_s = sample_hash_s /\ sample_hash_r = sample_hash_r /\ 7 = 7.
Proof.
  split; [reflexivity|].
  apply (compile_commit_script_injective sample_pubkey_a sample_pubkey_b sample_hash_s
           sample_hash_r 7 sample_pubkey_a sample_pubkey_b sample_hash_s
           sample_hash_r 7);
    first [reflexivity | lia | (unfold field_ok; cbn; lia)].
Defined.

(** ** Deposit scripts and commit scripts are apart *)

(** X7. No hex string passes both validators: a script of the deposit shape has
    twenty-one words, one of the commit shape sixteen. *)
Theorem deposit_and_commit_scripts_disjoint (script_hex : string) (f g : bool) :
  validate_deposit_script script_hex f = Ok tt ->
  validate_commit_script script_hex g <> Ok tt.
Proof.
  intros Hd Hc.
  apply deposit_valid_iff in Hd as (p1 & b & c & p2 & t & p3 & Hh & Hw & _).
  apply commit_valid_iff in Hc as (t' & c' & b' & r' & a' & Hh' & Hw' & _).
  rewrite Hh in Hh'. apply Ok_inj in Hh'.
  apply encode_words_inj in Hh'; [|assumption..].
  discriminate Hh'.
Qed.

Lemma deposit_and_commit_scripts_disjoint_witness :
  validate_deposit_script (b2h sample_deposit_script) true = Ok tt
  /\ validate_commit_script (b2h sample_deposit_script) true <> Ok tt.
Proof.
  assert (Hd : validate_deposit_script (b2h sample_deposit_script) true = Ok tt)
    by (vm_compute; reflexivity).
  split; [exact Hd|].
  exact (deposit_and_commit_scripts_disjoint _ true true Hd).
Defined.

(** ** Validation comes before signing *)

(** X15. A sign operation given a script that its validator rejects raises the
    validator's error and leaves the world as it was: the transaction is not
    loaded, no matcher is registered, the host signer is not entered. *)
Theorem sign_validates_first `{Host} (get_txs_func : list string -> list string)
    (wif rawtx script_hex secret : string) (w : world) :
  (forall e,
      validate_deposit_script script_hex true = Raise e ->
      sign_created_commit get_txs_func wif rawtx script_hex w = (w, Raise e)
      /\ sign_finalize_commit get_txs_func wif rawtx script_hex w = (w, Raise e)
      /\ sign_change_recover get_txs_func wif rawtx script_hex secret w = (w, Raise e)
      /\ sign_expire_recover get_txs_func wif rawtx script_hex w = (w, Raise e))
  /\ (forall e,
         validate_commit_script script_hex true = Raise e ->
         sign_revoke_recover get_txs_func wif rawtx script_hex secret w = (w, Raise e)
         /\ sign_payout_recover get_txs_func wif rawtx script_hex secret w
            = (w, Raise e)).
Proof.
  split; intros e He.
  - unfold sign_created_commit, sign_finalize_commit, sign_change_recover,
      sign_expire_recover, bindM, lift.
    rewrite He. repeat split; reflexivity.
  - unfold sign_revoke_recover, sign_payout_recover, bindM, lift.
    rewrite He. split; reflexivity.
Qed.

Lemma sign_validates_first_witness :
  validate_deposit_script "6300" true = Raise (InvalidScript "6300")
  /\ sign_finalize_commit (H := sample_host) (fun _ => []) "wif" "00" "6300" sample_world
     = (sample_world, Raise (InvalidScript "6300"))
  /\ validate_commit_script "6300" true = Raise (InvalidScript "6300")
  /\ sign_payout_recover (H := sample_host) (fun _ => []) "wif" "00" "6300" "00"
       sample_world
     = (sample_world, Raise (InvalidScript "6300")).
Proof.
  assert (Hd : validate_deposit_script "6300" true = Raise (InvalidScript "6300"))
    by (vm_compute; reflexivity).
  assert (Hc : validate_commit_script "6300" true = Raise (InvalidScript "6300"))
    by (vm_compute; reflexivity).
  destruct (sign_validates_first (H := sample_host) (fun _ => []) "wif" "00" "6300" "00"
              sample_world) as [H1 H2].
  destruct (H1 _ Hd) as (_ & Hf & _). destruct (H2 _ Hc) as (_ & Hp).
  split; [exact Hd|]. split; [exact Hf|]. split; [exact Hc|]. exact Hp.
Defined.

(** ** Only fully signed transactions are returned *)

Lemma with_handler_sign_ok `{Host} (handler : script_class) (tx : Tx)
    (h : hash160_lookup_t) (p : option p2sh_lookup_t) (kw : sign_kwargs)
    (w w' : world) (tx' : Tx) :
  with_handler handler (sign tx h p kw) w = (w', Ok tx') ->
  sign_calls w' = S (sign_calls w).
Proof.
  unfold with_handler, registry_insert0, sign. cbn [SUBCLASSES sign_calls].
  destruct (tx_sign tx h p kw (handler :: SUBCLASSES w)) as [reg r].
  unfold registry_pop0. cbn [SUBCLASSES sign_calls].
  destruct reg as [|top reg]; [discriminate|].
  intros [= <- _]. reflexivity.
Qed.

Lemma sign_deposit_recover_fully_signed `{Host}
    (get_txs_func : list string -> list string)
    (wif rawtx script_hex spend_type : string) (spend_secret : option string)
    (w w' : world) (rawtx_signed : string) :
  _sign_deposit_recover get_txs_func wif rawtx script_hex spend_type spend_secret w
  = (w', Ok rawtx_signed) ->
  fully_signed w w' rawtx_signed.
Proof.
  unfold _sign_deposit_recover, bindM, lift, ret.
  destruct (load_tx get_txs_func rawtx) as [tx|]; [|discriminate].
  destruct (get_deposit_expire_time script_hex) as [expire_time|]; [|discriminate].
  destruct (_make_lookups wif script_hex) as [lookups|]; [|discriminate].
  destruct (_DepositScriptHandler expire_time) as [handler|]; [|discriminate].
  destruct (with_handler handler _ w) as [w1 [tx'|]] eqn:Es; [|discriminate].
  apply with_handler_sign_ok in Es.
  unfold assert. destruct (bad_signature_count tx' =? 0) eqn:Eb; [|discriminate].
  intros [= <- <-]. exists tx'. apply Z.eqb_eq in Eb. auto.
Qed.

Lemma sign_commit_recover_fully_signed `{Host}
    (get_txs_func : list string -> list string)
    (wif rawtx script_hex spend_type : string) (spend_secret revoke_secret : option string)
    (w w' : world) (rawtx_signed : string) :
  _sign_commit_recover get_txs_func wif rawtx script_hex spend_type spend_secret
    revoke_secret w = (w', Ok rawtx_signed) ->
  fully_signed w w' rawtx_signed.
Proof.
  unfold _sign_commit_recover, bindM, lift, ret.
  destruct (load_tx get_txs_func rawtx) as [tx|]; [|discriminate].
  destruct (get_commit_delay_time script_hex) as [delay_time|]; [|discriminate].
  destruct (_make_lookups wif script_hex) as [lookups|]; [|discriminate].
  destruct (_CommitScriptHandler delay_time) as [handler|]; [|discriminate].
  destruct (with_handler handler _ w) as [w1 [tx'|]] eqn:Es; [|discriminate].
  apply with_handler_sign_ok in Es.
  unfold assert. destruct (bad_signature_count tx' =? 0) eqn:Eb; [|discriminate].
  intros [= <- <-]. exists tx'. apply Z.eqb_eq in Eb. auto.
Qed.

(** X16. Whenever finalize commit or one of the four recover operations returns
    a raw transaction, the script passed its validator, the host signer was
    entered exactly once, and the transaction returned has no bad signature:
    a transaction the host signer left with a bad signature is never handed
    out. *)
Theorem sign_returns_fully_signed `{Host} (get_txs_func : list string -> list string)
    (wif rawtx script_hex secret : string) (w w' : world) (rawtx_signed : string) :
  (sign_finalize_commit get_txs_func wif rawtx script_hex w = (w', Ok rawtx_signed) ->
   validate_deposit_script script_hex true = Ok tt /\ fully_signed w w' rawtx_signed)
  /\ (sign_change_recover get_txs_func wif rawtx script_hex secret w
      = (w', Ok rawtx_signed) ->
      validate_deposit_script script_hex true = Ok tt /\ fully_signed w w' rawtx_signed)
  /\ (sign_expire_recover get_txs_func wif rawtx script_hex w = (w', Ok rawtx_signed) ->
      validate_deposit_script script_hex true = Ok tt /\ fully_signed w w' rawtx_signed)
  /\ (sign_revoke_recover get_txs_func wif rawtx script_hex secret w
      = (w', Ok rawtx_signed) ->
      validate_commit_script script_hex true = Ok tt /\ fully_signed w w' rawtx_signed)
  /\ (sign_payout_recover get_txs_func wif rawtx script_hex secret w
      = (w', Ok rawtx_signed) ->
      validate_commit_script script_hex true = Ok tt /\ fully_signed w w' rawtx_signed).
Proof.
  split; [|split; [|split; [|split]]].
  - unfold sign_finalize_commit, bindM, lift, ret.
    destruct (validate_deposit_script script_hex true) as [[]|]; [|discriminate].
    destruct (load_tx get_txs_func rawtx) as [tx|]; [|discriminate].
    destruct (get_deposit_expire_time script_hex) as [expire_time|]; [|discriminate].
    destruct (_make_lookups wif script_hex) as [lookups|]; [|discriminate].
    destruct (_DepositScriptHandler expire_time) as [handler|]; [|discriminate].
    destruct (with_handler handler _ w) as [w1 [tx'|]] eqn:Es; [|discriminate].
    apply with_handler_sign_ok in Es.
    unfold assert. destruct (bad_signature_count tx' =? 0) eqn:Eb; [|discriminate].
    intros [= <- <-]. split; [reflexivity|]. exists tx'. apply Z.eqb_eq in Eb. auto.
  - unfold sign_change_recover, bindM, lift.
    destruct (validate_deposit_script script_hex true) as [[]|]; [|discriminate].
    destruct (get_deposit_spend_secret_hash script_hex) as [embedded|]; [|discriminate].
    destruct (h2b secret) as [secret_bin|]; [|discriminate].
    cbv zeta. destruct (assert _) as [[]|]; [|discriminate].
    intros E. split; [reflexivity|].
    now apply sign_deposit_recover_fully_signed in E.
  - unfold sign_expire_recover, bindM, lift.
    destruct (validate_deposit_script script_hex true) as [[]|]; [|discriminate].
    intros E. split; [reflexivity|].
    now apply sign_deposit_recover_fully_signed in E.
  - unfold sign_revoke_recover, bindM, lift.
    destruct (validate_commit_script script_hex true) as [[]|]; [|discriminate].
    intros E. split; [reflexivity|].
    now apply sign_commit_recover_fully_signed in E.
  - unfold sign_payout_recover, bindM, lift.
    destruct (validate_commit_script script_hex true) as [[]|]; [|discriminate].
    intros E. split; [reflexivity|].
    now apply sign_commit_recover_fully_signed in E.
Qed.

Lemma sign_returns_fully_signed_witness :
  sign_expire_recover (H := sample_host) (fun _ => []) "wif" "00"
    (b2h sample_deposit_script) sample_world
  = ({| SUBCLASSES := SUBCLASSES sample_world; sign_calls := 1 |}, Ok "00")
  /\ validate_deposit_script (b2h sample_deposit_script) true = Ok tt
  /\ fully_signed (H := sample_host) sample_world
       {| SUBCLASSES := SUBCLASSES sample_world; sign_calls := 1 |} "00".
Proof.
  assert (E : sign_expire_recover (H := sample_host) (fun _ => []) "wif" "00"
                (b2h sample_deposit_script) sample_world
              = ({| SUBCLASSES := SUBCLASSES sample_world; sign_calls := 1 |}, Ok "00"))
    by (vm_compute; reflexivity).
  split; [exact E|].
  destruct (sign_returns_fully_signed (H := sample_host) (fun _ => []) "wif" "00"
              (b2h sample_deposit_script) "00" sample_world
              {| SUBCLASSES := SUBCLASSES sample_world; sign_calls := 1 |} "00")
    as (_ & _ & He & _).
  exact (He E).
Defined.

(** ** The scriptSigs the matchers assemble *)

Lemma compile_template (tpl : list piece) (kw : list (string * string)) (s : string) :
  spaced tpl = true ->
  Forall (fun e => is_token (snd e)) kw ->
  format tpl kw = Ok s ->
  tools.compile s = tools.compile_tokens (template_tokens tpl kw).
Proof.
  intros Hs Hk Hf. unfold tools.compile. now rewrite (split_format tpl kw s Hs Hk Hf).
Qed.

Ltac tokens_are_tokens :=
  repeat (apply Forall_cons; [assumption|]); apply Forall_nil.

Lemma compile_expire_scriptsig (a : string) (wa : word) :
  is_token a -> tools.compile_token a = Ok (encode_word wa) ->
  (script_asm <- format EXPIRE_SCRIPTSIG [ ("sig", a) ] ;; tools.compile script_asm)
  = Ok (encode_words [wa; op_0; op_0]).
Proof.
  intros Ta Ha.
  destruct (format EXPIRE_SCRIPTSIG _) as [s|e] eqn:E; [|vm_compute in E; discriminate].
  cbn [bind]. rewrite (fun Hk => compile_template EXPIRE_SCRIPTSIG _ s eq_refl Hk E) by tokens_are_tokens.
  change (template_tokens EXPIRE_SCRIPTSIG _) with [a; "OP_0"; "OP_0"].
  cbn [tools.compile_tokens]. rewrite Ha. eval_tokens. cbn [bind]. reflexivity.
Qed.

Lemma compile_change_scriptsig (a b : string) (wa wb : word) :
  is_token a -> is_token b ->
  tools.compile_token a = Ok (encode_word wa) ->
  tools.compile_token b = Ok (encode_word wb) ->
  (script_asm <- format CHANGE_SCRIPTSIG [ ("sig", a); ("secret", b) ] ;;
   tools.compile script_asm)
  = Ok (encode_words [wa; wb; op 81; op_0]).
Proof.
  intros Ta Tb Ha Hb.
  destruct (format CHANGE_SCRIPTSIG _) as [s|e] eqn:E; [|vm_compute in E; discriminate].
  cbn [bind]. rewrite (fun Hk => compile_template CHANGE_SCRIPTSIG _ s eq_refl Hk E) by tokens_are_tokens.
  change (template_tokens CHANGE_SCRIPTSIG _) with [a; b; "OP_1"; "OP_0"].
  cbn [tools.compile_tokens]. rewrite Ha, Hb. eval_tokens. cbn [bind]. reflexivity.
Qed.

Lemma compile_commit_scriptsig (a b : string) (wa wb : word) :
  is_token a -> is_token b ->
  tools.compile_token a = Ok (encode_word wa) ->
  tools.compile_token b = Ok (encode_word wb) ->
  (script_asm <- format COMMIT_SCRIPTSIG [ ("payer_sig", a); ("payee_sig", b) ] ;;
   tools.compile script_asm)
  = Ok (encode_words [op_0; wa; wb; op 81]).
Proof.
  intros Ta Tb Ha Hb.
  destruct (format COMMIT_SCRIPTSIG _) as [s|e] eqn:E; [|vm_compute in E; discriminate].
  cbn [bind]. rewrite (fun Hk => compile_template COMMIT_SCRIPTSIG _ s eq_refl Hk E) by tokens_are_tokens.
  change (template_tokens COMMIT_SCRIPTSIG _) with ["OP_0"; a; b; "OP_1"].
  cbn [tools.compile_tokens]. rewrite Ha, Hb. eval_tokens. cbn [bind]. reflexivity.
Qed.

Lemma compile_payout_scriptsig (a b : string) (wa wb : word) :
  is_token a -> is_token b ->
  tools.compile_token a = Ok (encode_word wa) ->
  tools.compile_token b = Ok (encode_word wb) ->
  (script_asm <- format PAYOUT_SCRIPTSIG [ ("sig", a); ("spend_secret", b) ] ;;
   tools.compile script_asm)
  = Ok (encode_words [wa; wb; op 81]).
Proof.
  intros Ta Tb Ha Hb.
  destruct (format PAYOUT_SCRIPTSIG _) as [s|e] eqn:E; [|vm_compute in E; discriminate].
  cbn [bind]. rewrite (fun Hk => compile_template PAYOUT_SCRIPTSIG _ s eq_refl Hk E) by tokens_are_tokens.
  change (template_tokens PAYOUT_SCRIPTSIG _) with [a; b; "OP_1"].
  cbn [tools.compile_tokens]. rewrite Ha, Hb. eval_tokens. cbn [bind]. reflexivity.
Qed.

Lemma compile_revoke_scriptsig (a b : string) (wa wb : word) :
  is_token a -> is_token b ->
  tools.compile_token a = Ok (encode_word wa) ->
  tools.compile_token b = Ok (encode_word wb) ->
  (script_asm <- format REVOKE_SCRIPTSIG [ ("sig", a); ("revoke_secret", b) ] ;;
   tools.compile script_asm)
  = Ok (encode_words [wa; wb; op_0]).
Proof.
  intros Ta Tb Ha Hb.
  destruct (format REVOKE_SCRIPTSIG _) as [s|e] eqn:E; [|vm_compute in E; discriminate].
  cbn [bind]. rewrite (fun Hk => compile_template REVOKE_SCRIPTSIG _ s eq_refl Hk E) by tokens_are_tokens.
  change (template_tokens REVOKE_SCRIPTSIG _) with [a; b; "OP_0"].
  cbn [tools.compile_tokens]. rewrite Ha, Hb. eval_tokens. cbn [bind]. reflexivity.
Qed.

(** X18. The scriptSigs of the deposit matcher.  With the payer's key in the
    lookup and a signature the assembler takes as a push (12 to 75 bytes),
    [solve] dispatches on the spend type: expire gives [<sig> OP_0 OP_0],
    create commit gives [OP_0 <sig> <placeholder> OP_1] with the given or
    the default placeholder signature, change gives [<sig> <secret> OP_1
    OP_0] when the secret hashes to the spend secret hash of the script; a
    spend type of the commit matcher, or any other, is a KeyError. *)
Theorem solve_deposit_scriptsig `{Host} (self : _AbsDepositScript)
    (kwargs : solve_kwargs) (secret_exponent : Z) (public_pair : Z * Z)
    (compressed : bool) (sig : bytes) :
  hash160_lookup kwargs (hash160 (dep_payer_sec self))
  = Some (secret_exponent, public_pair, compressed) ->
  _create_sig secret_exponent kwargs = Ok sig ->
  field_ok sig ->
  (spend_type kwargs = "expire" ->
   solve_deposit self kwargs = Ok (encode_words [push sig; op_0; op_0]))
  /\ (spend_type kwargs = "create_commit" ->
      forall placeholder_sig,
        placeholder_sig = match signature_placeholder kwargs with
                          | Some p => p
                          | None => DEFAULT_PLACEHOLDER_SIGNATURE
                          end ->
        field_ok placeholder_sig ->
        solve_deposit self kwargs
        = Ok (encode_words [op_0; push sig; push placeholder_sig; op 81]))
  /\ (spend_type kwargs = "change" ->
      forall secret_bin,
        spend_secret kwargs = Some (b2h secret_bin) ->
        field_ok secret_bin ->
        get_deposit_spend_secret_hash (b2h (dep_script self))
        = Ok (b2h (hash160 secret_bin)) ->
        solve_deposit self kwargs
        = Ok (encode_words [push sig; push secret_bin; op 81; op_0]))
  /\ (spend_type kwargs <> "expire" -> spend_type kwargs <> "change" ->
      spend_type kwargs <> "create_commit" -> spend_type kwargs <> "finalize_commit" ->
      solve_deposit self kwargs = Raise (ExternalError "KeyError")).
Proof.
  intros Hkey Hsig Hok.
  pose proof (is_token_b2h sig Hok) as Ts.
  pose proof (compile_token_b2h sig Hok) as Cs.
  split; [|split; [|split]].
  - intros Hty. unfold solve_deposit. rewrite Hty. cbn [String.eqb Ascii.eqb Bool.eqb].
    unfold solve_expire, private_key_of. rewrite Hkey. cbn [bind]. rewrite Hsig. cbn [bind].
    now apply compile_expire_scriptsig.
  - intros Hty placeholder_sig Hp Hpok. unfold solve_deposit. rewrite Hty.
    cbn [String.eqb Ascii.eqb Bool.eqb].
    unfold solve_create_commit, private_key_of. rewrite Hkey. cbn [bind].
    rewrite Hsig. cbn [bind]. cbv zeta. rewrite <- Hp.
    apply compile_commit_scriptsig; try assumption;
      [now apply is_token_b2h | now apply compile_token_b2h].
  - intros Hty secret_bin Hsec Hsok Hhash. unfold solve_deposit. rewrite Hty.
    cbn [String.eqb Ascii.eqb Bool.eqb].
    unfold solve_change, private_key_of. rewrite Hkey. cbn [bind]. rewrite Hsig. cbn [bind].
    rewrite Hhash. cbn [bind]. rewrite Hsec. cbn [arg_str bind]. rewrite h2b_b2h.
    cbn [bind]. cbv zeta. rewrite String.eqb_refl. cbn [assert bind].
    apply compile_change_scriptsig; try assumption;
      [now apply is_token_b2h | now apply compile_token_b2h].
  - intros H1 H2 H3 H4. unfold solve_deposit.
    apply String.eqb_neq in H1, H2, H3, H4. now rewrite H1, H2, H3, H4.
Qed.

Lemma solve_deposit_scriptsig_witness :
  solve_deposit (H := sample_signer) sample_deposit_object (sample_kwargs "expire" None [])
  = Ok (encode_words [push (sample_signature 1); op_0; op_0])
  /\ solve_deposit (H := sample_signer) sample_deposit_object
       (sample_kwargs "create_commit" None [])
     = Ok (encode_words [op_0; push (sample_signature 1); push (repeat x00 72); op 81])
  /\ solve_deposit (H := sample_signer) sample_deposit_object
       (sample_kwargs "change" (Some (b2h sample_hash_s)) [])
     = Ok (encode_words [push (sample_signature 1); push sample_hash_s; op 81; op_0])
  /\ solve_deposit (H := sample_signer) sample_deposit_object
       (sample_kwargs "payout" None [])
     = Raise (ExternalError "KeyError").
Proof.
  assert (Hok : field_ok (sample_signature 1)) by (unfold field_ok; cbn; lia).
  split; [|split; [|split]].
  - destruct (solve_deposit_scriptsig (H := sample_signer) sample_deposit_object
                (sample_kwargs "expire" None []) 1 (0, 0) true (sample_signature 1)
                eq_refl eq_refl Hok) as (He & _).
    exact (He eq_refl).
  - destruct (solve_deposit_scriptsig (H := sample_signer) sample_deposit_object
                (sample_kwargs "create_commit" None []) 1 (0, 0) true
                (sample_signature 1) eq_refl eq_refl Hok) as (_ & Hc & _).
    apply (Hc eq_refl (repeat x00 72) eq_refl). unfold field_ok. cbn. lia.
  - destruct (solve_deposit_scriptsig (H := sample_signer) sample_deposit_object
                (sample_kwargs "change" (Some (b2h sample_hash_s)) []) 1 (0, 0) true
                (sample_signature 1) eq_refl eq_refl Hok) as (_ & _ & Hc & _).
    apply (Hc eq_refl sample_hash_s eq_refl).
    + unfold field_ok. cbn. lia.
    + vm_compute. reflexivity.
  - destruct (solve_deposit_scriptsig (H := sample_signer) sample_deposit_object
                (sample_kwargs "payout" None []) 1 (0, 0) true (sample_signature 1)
                eq_refl eq_refl Hok) as (_ & _ & _ & Hk).
    apply Hk; discriminate.
Defined.

(** X19. The scriptSigs of the commit matcher.  With the key in the lookup and a
    signature and a secret the assembler takes as pushes (12 to 75 bytes),
    [solve] dispatches on the spend type: payout gives [<sig> <spend_secret>
    OP_1], signed with the payee's key, revoke gives [<sig> <revoke_secret>
    OP_0], signed with the payer's key; a spend type of the deposit matcher,
    or any other, is a KeyError. *)
Theorem solve_commit_scriptsig `{Host} (self : _AbsCommitScript)
    (kwargs : solve_kwargs) (secret_exponent : Z) (public_pair : Z * Z)
    (compressed : bool) (sig secret_bin : bytes) :
  _create_sig secret_exponent kwargs = Ok sig ->
  field_ok sig -> field_ok secret_bin ->
  (spend_type kwargs = "payout" ->
   hash160_lookup kwargs (hash160 (com_payee_sec self))
   = Some (secret_exponent, public_pair, compressed) ->
   spend_secret kwargs = Some (b2h secret_bin) ->
   solve_commit self kwargs = Ok (encode_words [push sig; push secret_bin; op 81]))
  /\ (spend_type kwargs = "revoke" ->
      hash160_lookup kwargs (hash160 (com_payer_sec self))
      = Some (secret_exponent, public_pair, compressed) ->
      revoke_secret kwargs = Some (b2h secret_bin) ->
      solve_commit self kwargs = Ok (encode_words [push sig; push secret_bin; op_0]))
  /\ (spend_type kwargs <> "payout" -> spend_type kwargs <> "revoke" ->
      solve_commit self kwargs = Raise (ExternalError "KeyError")).
Proof.
  intros Hsig Hok Hsok.
  pose proof (is_token_b2h sig Hok) as Ts.
  pose proof (compile_token_b2h sig Hok) as Cs.
  pose proof (is_token_b2h secret_bin Hsok) as Tb.
  pose proof (compile_token_b2h secret_bin Hsok) as Cb.
  split; [|split].
  - intros Hty Hkey Hsec. unfold solve_commit. rewrite Hty.
    cbn [String.eqb Ascii.eqb Bool.eqb].
    unfold solve_payout, private_key_of. rewrite Hkey. cbn [bind]. rewrite Hsig. cbn [bind].
    rewrite Hsec. cbn [format_arg]. now apply compile_payout_scriptsig.
  - intros Hty Hkey Hsec. unfold solve_commit. rewrite Hty.
    cbn [String.eqb Ascii.eqb Bool.eqb].
    unfold solve_revoke, private_key_of. rewrite Hkey. cbn [bind]. rewrite Hsig. cbn [bind].
    rewrite Hsec. cbn [format_arg]. now apply compile_revoke_scriptsig.
  - intros H1 H2. unfold solve_commit.
    apply String.eqb_neq in H1, H2. now rewrite H1, H2.
Qed.

Lemma solve_commit_scriptsig_witness :
  solve_commit (H := sample_signer) sample_commit_object
    (sample_kwargs "payout" (Some (b2h sample_hash_s)) [])
  = Ok (encode_words [push (sample_signature 1); push sample_hash_s; op 81])
  /\ solve_commit (H := sample_signer) sample_commit_object
       (sample_kwargs "revoke" (Some (b2h sample_hash_s)) [])
     = Ok (encode_words [push (sample_signature 1); push sample_hash_s; op_0])
  /\ solve_commit (H := sample_signer) sample_commit_object
       (sample_kwargs "expire" None [])
     = Raise (ExternalError "KeyError").
Proof.
  assert (Hok : field_ok (sample_signature 1)) by (unfold field_ok; cbn; lia).
  assert (Hs : field_ok sample_hash_s) by (unfold field_ok; cbn; lia).
  split; [|split].
  - destruct (solve_commit_scriptsig (H := sample_signer) sample_commit_object
                (sample_kwargs "payout" (Some (b2h sample_hash_s)) []) 1 (0, 0) true
                (sample_signature 1) sample_hash_s eq_refl Hok Hs) as (Hp & _).
    exact (Hp eq_refl eq_refl eq_refl).
  - destruct (solve_commit_scriptsig (H := sample_signer) sample_commit_object
                (sample_kwargs "revoke" (Some (b2h sample_hash_s)) []) 1 (0, 0) true
                (sample_signature 1) sample_hash_s eq_refl Hok Hs) as (_ & Hr & _).
    exact (Hr eq_refl eq_refl eq_refl).
  - destruct (solve_commit_scriptsig (H := sample_signer) sample_commit_object
                (sample_kwargs "expire" None []) 1 (0, 0) true
                (sample_signature 1) sample_hash_s eq_refl Hok Hs) as (_ & _ & Hk).
    apply Hk; discriminate.
Defined.

(** ** The spend secret in the change scriptSig *)

(** X20. [solve_change] returns a scriptSig only for a spend secret that is
    given, is hex, and hashes to the spend secret hash of the matcher's
    deposit script; with any other secret the assertion fails and no
    scriptSig is assembled. *)
Theorem solve_change_checks_secret `{Host} (self : _AbsDepositScript)
    (kwargs : solve_kwargs) (scriptsig_bin : bytes) :
  solve_change self kwargs = Ok scriptsig_bin ->
  exists secret secret_bin,
    spend_secret kwargs = Some secret
    /\ h2b secret = Ok secret_bin
    /\ get_deposit_spend_secret_hash (b2h (dep_script self))
       = Ok (b2h (hash160 secret_bin)).
Proof.
  unfold solve_change.
  destruct (private_key_of kwargs (dep_payer_sec self)) as [[[e pp] c]|];
    cbn [bind]; [|discriminate].
  destruct (_create_sig e kwargs) as [sig|]; cbn [bind]; [|discriminate].
  destruct (get_deposit_spend_secret_hash _) as [embedded|] eqn:Eg; cbn [bind];
    [|discriminate].
  destruct (spend_secret kwargs) as [secret|]; cbn [arg_str bind]; [|discriminate].
  destruct (h2b secret) as [secret_bin|] eqn:Eh; cbn [bind]; [|discriminate].
  cbv zeta. unfold assert.
  destruct (String.eqb embedded (b2h (hash160 secret_bin))) eqn:E; cbn [bind];
    [|discriminate].
  intros _. apply String.eqb_eq in E. subst embedded.
  exists secret, secret_bin. repeat split; assumption || reflexivity.
Qed.

Lemma solve_change_checks_secret_witness :
  solve_change (H := sample_signer) sample_deposit_object
    (sample_kwargs "change" (Some (b2h sample_hash_s)) [])
  = Ok (encode_words [push (sample_signature 1); push sample_hash_s; op 81; op_0])
  /\ exists secret secret_bin,
       Some (b2h sample_hash_s) = Some secret
       /\ h2b secret = Ok secret_bin
       /\ get_deposit_spend_secret_hash (b2h sample_deposit_script)
          = Ok (b2h (hash160 (Host := sample_signer) secret_bin)).
Proof.
  assert (E : solve_change (H := sample_signer) sample_deposit_object
                (sample_kwargs "change" (Some (b2h sample_hash_s)) [])
              = Ok (encode_words [push (sample_signature 1); push sample_hash_s;
                                  op 81; op_0]))
    by (vm_compute; reflexivity).
  split; [exact E|].
  exact (solve_change_checks_secret (H := sample_signer) _ _ _ E).
Defined.

(** ** Finalize commit keeps the payer's signature *)

Lemma valid_deposit_script_long (deposit_script_bin : bytes) :
  validate_deposit_script (b2h deposit_script_bin) true = Ok tt ->
  (21 <= length deposit_script_bin)%nat.
Proof.
  intros Hv. apply deposit_valid_iff in Hv
    as (p1 & b & c & p2 & t & p3 & Hh & _ & _).
  rewrite h2b_b2h in Hh. injection Hh as ->.
  apply (encode_words_min_length (deposit_slots p1 b c p2 t p3)).
Qed.

(** The scriptSig [_compile_commit_scriptsig] assembles, as words. *)
Lemma compile_commit_scriptsig_words (a b : string) (wa wb : word)
    (deposit_script_bin : bytes) :
  is_token a -> is_token b ->
  tools.compile_token a = Ok (encode_word wa) ->
  tools.compile_token b = Ok (encode_word wb) ->
  validate_deposit_script (b2h deposit_script_bin) true = Ok tt ->
  _compile_commit_scriptsig a b (b2h deposit_script_bin)
  = Ok (b2h (encode_words [op_0; wa; wb; op 81; script_push deposit_script_bin])).
Proof.
  intros Ta Tb Ha Hb Hv. pose proof (valid_deposit_script_long _ Hv) as Hlen.
  unfold _compile_commit_scriptsig. rewrite Hv. cbn [bind].
  destruct (format COMMIT_SCRIPTSIG _) as [s|e] eqn:E; [|vm_compute in E; discriminate].
  cbn [bind].
  change (format JOIN_TEMPLATE [("0", s); ("1", b2h deposit_script_bin)])
    with (@Ok string (s +++ " " +++ b2h deposit_script_bin +++ "")).
  cbn [bind]. unfold tools.compile.
  assert (Th : is_token (b2h deposit_script_bin)).
  { split; [apply no_space_b2h|].
    destruct deposit_script_bin; [cbn in Hlen; lia | discriminate]. }
  rewrite split_join by assumption.
  rewrite (fun H => split_format COMMIT_SCRIPTSIG _ s eq_refl H E)
    by tokens_are_tokens.
  change (template_tokens COMMIT_SCRIPTSIG _) with ["OP_0"; a; b; "OP_1"].
  cbn [app tools.compile_tokens]. rewrite Ha, Hb.
  rewrite compile_token_hex by lia.
  rewrite write_push_data_script_push by lia.
  eval_tokens. cbn [bind]. reflexivity.
Qed.

Lemma get_opcode_first (w : word) (ws : list word) :
  wf_word w = true ->
  tools.get_opcode (encode_words (w :: ws)) 0
  = Ok (fst w, snd w, length (encode_word w)).
Proof.
  intros Hw. exact (get_opcode_encode [] (encode_words ws) w Hw).
Qed.

Lemma get_opcode_second (w0 w1 : word) (ws : list word) :
  wf_word w1 = true ->
  tools.get_opcode (encode_words (w0 :: w1 :: ws)) (length (encode_word w0))
  = Ok (fst w1, snd w1, (length (encode_word w0) + length (encode_word w1))%nat).
Proof.
  intros Hw. exact (get_opcode_encode (encode_word w0) (encode_words ws) w1 Hw).
Qed.

(** X21. Finalize commit on the scriptSig that create commit left -- OP_0, the
    push of the payer's signature, any word in the place of the payee's
    signature, OP_1 and the push of the deposit script -- with a payer
    signature of the claimed hash type that verifies under the payer's key:
    the scriptSig returned keeps the payer's signature as it was and puts
    the payee's new signature in the place of the placeholder. *)
Theorem solve_finalize_commit_keeps_payer_sig `{Host} (self : _AbsDepositScript)
    (kwargs : solve_kwargs) (payer_sig payee_sig : bytes) (payee_slot : word)
    (sig_r_s public_pair : Z * Z) (secret_exponent : Z) (payee_pair : Z * Z)
    (compressed : bool) :
  validate_deposit_script (b2h (dep_script self)) true = Ok tt ->
  Z.of_nat (length (dep_script self)) < 4294967296 ->
  existing_script kwargs
  = encode_words [op_0; push payer_sig; payee_slot; op 81;
                  script_push (dep_script self)] ->
  wf_word payee_slot = true ->
  field_ok payer_sig ->
  parse_signature_blob payer_sig = Ok (sig_r_s, signature_type kwargs) ->
  sec_to_public_pair (dep_payer_sec self) = Ok public_pair ->
  ecdsa_verify public_pair
    (signature_for_hash_type_f kwargs (signature_type kwargs) (script_to_hash kwargs))
    sig_r_s = true ->
  hash160_lookup kwargs (hash160 (dep_payee_sec self))
  = Some (secret_exponent, payee_pair, compressed) ->
  _create_sig secret_exponent kwargs = Ok payee_sig ->
  field_ok payee_sig ->
  solve_finalize_commit self kwargs
  = Ok (encode_words [op_0; push payer_sig; push payee_sig; op 81]).
Proof.
  intros Hv Hlen Hex Hslot Hpayer Hparse Hsec Hverify Hkey Hsig Hpayee.
  assert (Hwp : wf_word (push payer_sig) = true)
    by (apply wf_push; unfold field_ok in Hpayer; lia).
  unfold solve_finalize_commit.
  rewrite (compile_commit_scriptsig_words _ _ placeholder placeholder _
             is_token_deadbeef is_token_deadbeef
             compile_token_deadbeef compile_token_deadbeef Hv).
  cbn [bind]. rewrite Hex.
  rewrite validate_words.
  2:{ repeat (apply Forall_cons; [first [reflexivity | now apply wf_script_push]|]).
      apply Forall_nil. }
  2:{ repeat (apply Forall_cons;
              [first [assumption | reflexivity | now apply wf_script_push]|]).
      apply Forall_nil. }
  replace (words_match _ _) with true
    by (cbn [words_match]; rewrite !word_eqb_refl, !orb_true_r; reflexivity).
  cbn [bind].
  rewrite (get_opcode_first op_0 _ eq_refl). cbn [bind].
  rewrite (get_opcode_second op_0 (push payer_sig) _ Hwp). cbn [bind snd push].
  rewrite Hparse. cbn [bind]. unfold assert. rewrite Z.eqb_refl. cbn [bind].
  rewrite Hsec. cbn [bind]. rewrite Hverify. cbn [negb except_UnexpectedDER bind].
  unfold private_key_of. rewrite Hkey. cbn [bind]. rewrite Hsig. cbn [bind b2h_data].
  apply compile_commit_scriptsig;
    first [now apply is_token_b2h | now apply compile_token_b2h].
Qed.

Lemma solve_finalize_commit_keeps_payer_sig_witness :
  let created :=
    encode_words [op_0; push (sample_signature 1); push (repeat x00 72); op 81;
                  script_push sample_deposit_script] in
  solve_finalize_commit (H := sample_signer) sample_deposit_object
    (sample_kwargs "finalize_commit" None created)
  = Ok (encode_words [op_0; push (sample_signature 1); push (sample_signature 1); op 81]).
Proof.
  cbv zeta.
  apply (solve_finalize_commit_keeps_payer_sig (H := sample_signer)
           sample_deposit_object _ (sample_signature 1) (sample_signature 1)
           (push (repeat x00 72)) (9, 8) (0, 0) 1 (0, 0) true).
  - vm_compute. reflexivity.
  - vm_compute. reflexivity.
  - reflexivity.
  - reflexivity.
  - unfold field_ok. cbn. lia.
  - vm_compute. reflexivity.
  - reflexivity.
  - reflexivity.
  - reflexivity.
  - reflexivity.
  - unfold field_ok. cbn. lia.
Defined.

(** ** What [get_word] says about an arbitrary byte string *)

Lemma last_nonempty {A} (l : list A) (d d' : A) : l <> [] -> last l d = last l d'.
Proof.
  induction l as [|y l IH]; intros Hne; [contradiction|].
  destruct l as [|z l]; [reflexivity|].
  change (last (y :: z :: l) d) with (last (z :: l) d).
  change (last (y :: z :: l) d') with (last (z :: l) d').
  apply IH. discriminate.
Qed.

Lemma last_cons_default {A} (l : list A) (x d : A) : last (x :: l) d = last l x.
Proof.
  destruct l as [|y l]; [reflexivity|].
  change (last (x :: y :: l) d) with (last (y :: l) d).
  apply last_nonempty. discriminate.
Qed.

Lemma last_map_Some {A} (ws : list A) (d : option A) :
  ws <> [] -> last (map Some ws) d = nth_error ws (length ws - 1).
Proof.
  revert d. induction ws as [|w ws IH]; intros d Hne; [contradiction|].
  cbn [map]. rewrite last_cons_default.
  destruct ws as [|w' ws]; [reflexivity|].
  rewrite IH by discriminate. cbn [length].
  replace (S (S (length ws)) - 1)%nat with (S (S (length ws) - 1)) by lia.
  reflexivity.
Qed.

Lemma get_word_loop_sound (fuel : nat) :
  forall script_bin index pc i last0 i' last',
    (i <= S index)%nat ->
    get_word_loop fuel script_bin index pc i last0 = Ok (i', last') ->
    exists ws post,
      wf_words ws
      /\ skipn pc script_bin = encode_words ws ++ post
      /\ (i' <= S index)%nat
      /\ ((i' = (i + length ws)%nat
           /\ last' = last (map Some ws) last0
           /\ ((i' <= index)%nat -> post = []))
          \/ (exists w, cut_pushdata post = Some w
                        /\ i' = S (i + length ws)
                        /\ last' = Some w)).
Proof.
  induction fuel as [|fuel IH]; intros S k pc i last0 i' last' Hi;
    rewrite get_word_loop_eq.
  - destruct ((pc <? length S)%nat && (i <=? k)%nat) eqn:Ec; [discriminate|].
    intros [= <- <-]. exists [], (skipn pc S).
    split; [constructor|]. split; [reflexivity|]. split; [assumption|].
    left. split; [cbn; lia|]. split; [reflexivity|].
    intros Hk. apply andb_false_iff in Ec as [Ec|Ec].
    + apply Nat.ltb_ge in Ec. now apply skipn_all2.
    + apply Nat.leb_gt in Ec. lia.
  - destruct ((pc <? length S)%nat && (i <=? k)%nat) eqn:Ec.
    + apply andb_prop in Ec as [_ Ek]. apply Nat.leb_le in Ek.
      destruct (tools.get_opcode S pc) as [[[opcode data] pc']|] eqn:Eg;
        cbn [bind]; [|discriminate].
      intros Hl.
      destruct (Nat.le_gt_cases pc' (length S)) as [Hle|Hgt].
      * apply IH in Hl; [|lia].
        destruct Hl as (ws & post & Hwf & Hs & Hle' & Hcases).
        destruct (get_opcode_word _ _ _ _ _ Eg Hle) as [Hw Hsk].
        exists ((opcode, data) :: ws), post.
        split; [now constructor|].
        split; [now rewrite Hsk, Hs, encode_words_cons, app_assoc|].
        split; [assumption|].
        destruct Hcases as [(Hi' & Hlast & Hpost) | (w & Hcut & Hi' & Hlast)].
        -- left. split; [cbn [length]; lia|].
           split; [cbn [map]; now rewrite last_cons_default | assumption].
        -- right. exists w. split; [assumption|]. split; [cbn [length]; lia | assumption].
      * pose proof (get_opcode_past_end _ _ _ _ _ Eg Hgt) as Hcut.
        rewrite get_word_loop_eq in Hl.
        replace (pc' <? length S)%nat with false in Hl
          by (symmetry; apply Nat.ltb_ge; lia).
        cbn [andb] in Hl. injection Hl as <- <-.
        exists [], (skipn pc S).
        split; [constructor|]. split; [reflexivity|]. split; [lia|].
        right. exists (opcode, data). split; [assumption|].
        split; [cbn [length]; lia | reflexivity].
    + intros [= <- <-]. exists [], (skipn pc S).
      split; [constructor|]. split; [reflexivity|]. split; [assumption|].
      left. split; [cbn; lia|]. split; [reflexivity|].
      intros Hk. apply andb_false_iff in Ec as [Ec|Ec].
      * apply Nat.ltb_ge in Ec. now apply skipn_all2.
      * apply Nat.leb_gt in Ec. lia.
Qed.

Lemma get_opcode_raises (script_bin : bytes) (pc : nat) (e : exception) :
  tools.get_opcode script_bin pc = Raise e -> e = TypeError \/ e = MalformedScript.
Proof.
  unfold tools.get_opcode.
  destruct (nth_error script_bin pc); [|intros [= <-]; now left].
  destruct (_ <=? OP_PUSHDATA4); [|discriminate].
  cbv zeta.
  match goal with |- context [if ?c then Raise MalformedScript else _] =>
    destruct c; [intros [= <-]; now right | discriminate] end.
Qed.

Lemma get_word_loop_raises (fuel : nat) :
  forall script_bin index pc i last0 e,
    get_word_loop fuel script_bin index pc i last0 = Raise e ->
    e = TypeError \/ e = MalformedScript \/ e = OutOfFuel.
Proof.
  induction fuel as [|fuel IH]; intros S k pc i last0 e; rewrite get_word_loop_eq.
  - destruct (_ && _); [intros [= <-]; auto | discriminate].
  - destruct (_ && _); [|discriminate].
    destruct (tools.get_opcode S pc) as [[[opcode data] pc']|e'] eqn:Eg; cbn [bind].
    + apply IH.
    + intros [= <-]. apply get_opcode_raises in Eg. tauto.
Qed.

(** After the words [ws], OP_PUSHDATA1/2/4 with a length prefix cut short
    that reads as zero is one more word. *)
Lemma get_word_cut (ws : list word) (tail : bytes) (w : word) (k : nat) :
  wf_words ws ->
  (length ws <= k)%nat ->
  cut_pushdata tail = Some w ->
  get_word (encode_words ws ++ tail) k
  = if (k =? length ws)%nat
    then Ok (fst w, snd w, tools.disassemble_for_opcode_data (fst w) (snd w))
    else Raise (ValueError k).
Proof.
  intros Hwf Hk Hcut. unfold get_word.
  destruct (get_opcode_cut tail w Hcut) as [Hg Hlt].
  assert (Htail : (1 <= length tail)%nat) by (destruct tail; [discriminate | cbn; lia]).
  pose proof (encode_words_length ws) as Hl.
  set (U := encode_words ws ++ tail).
  assert (HU : length U = (length (encode_words ws) + length tail)%nat)
    by (unfold U; apply length_app).
  replace (length U) with (length ws + S (length U - length ws - 1))%nat by lia.
  destruct (get_word_loop_prefix ws [] tail k 0 None (S (length U - length ws - 1)) Hwf)
    as [last' E]; [lia|].
  cbn [app length Nat.add] in E. fold U in E. rewrite E.
  rewrite get_word_loop_eq.
  replace (length (encode_words ws) <? length U)%nat with true
    by (symmetry; apply Nat.ltb_lt; lia).
  replace (length ws <=? k)%nat with true by (symmetry; apply Nat.leb_le; lia).
  cbn [andb]. unfold U at 1. rewrite get_opcode_at, Hg.
  cbn [bind]. rewrite get_word_loop_eq.
  replace (length (encode_words ws) + (1 + prefix_width (fst w)) <? length U)%nat
    with false by (symmetry; apply Nat.ltb_ge; lia).
  cbn [andb bind].
  replace (k + 1)%nat with (S k) by lia. cbn [Nat.eqb].
  rewrite (Nat.eqb_sym (length ws) k).
  destruct (k =? length ws)%nat; reflexivity.
Qed.

Lemma split_last_word {A} (ws : list A) (k : nat) (w : A) :
  length ws = S k -> nth_error ws k = Some w -> ws = firstn k ws ++ [w].
Proof.
  intros Hlen Hk. rewrite <- (firstn_skipn k ws) at 1. f_equal.
  rewrite (skipn_nth_error _ _ _ Hk), skipn_all2 by lia. reflexivity.
Qed.

(** X8. On any byte string, [get_word] returns a word exactly when the string
    starts with [index] well-formed words followed by one more word, which
    it returns with its disassembly: either a well-formed word, whatever
    follows it, or, as the end of the string, OP_PUSHDATA1/2/4 with a length
    prefix cut short that reads as zero, returned as a push of the empty
    byte string.  It raises ValueError(index) exactly when the whole string
    is made of at most [index] well-formed words, or of fewer than [index]
    well-formed words and such a cut OP_PUSHDATA1/2/4 at the end. *)
Theorem get_word_iff (script_bin : bytes) (index : nat) :
  (forall opcode data disassembled,
      get_word script_bin index = Ok (opcode, data, disassembled)
      <-> disassembled = tools.disassemble_for_opcode_data opcode data
          /\ exists ws,
               wf_words ws /\ length ws = index
               /\ ((wf_word (opcode, data) = true
                    /\ exists post,
                         script_bin
                         = encode_words ws ++ encode_word (opcode, data) ++ post)
                   \/ (exists tail,
                         cut_pushdata tail = Some (opcode, data)
                         /\ script_bin = encode_words ws ++ tail)))
  /\ (get_word script_bin index = Raise (ValueError index)
      <-> exists ws,
            wf_words ws
            /\ (((length ws <= index)%nat /\ script_bin = encode_words ws)
                \/ ((length ws < index)%nat
                    /\ exists tail w,
                         cut_pushdata tail = Some w
                         /\ script_bin = encode_words ws ++ tail))).
Proof.
  split.
  - intros opcode data dis. split.
    + unfold get_word.
      destruct (get_word_loop _ script_bin index 0 0 None) as [[i' last']|] eqn:El;
        cbn [bind]; [|discriminate].
      apply get_word_loop_sound in El; [|lia].
      destruct El as (ws & post & Hwf & Hs & _ & Hcases).
      cbn [skipn] in Hs.
      destruct (Nat.eqb_spec i' (index + 1)) as [Hi|]; cbn [negb]; [|discriminate].
      destruct last' as [[o d]|]; [|discriminate].
      intros [= -> -> <-]. split; [reflexivity|].
      destruct Hcases as [(Hi' & Hlast & _) | (w & Hcut & Hi' & Hlast)].
      * cbn [Nat.add] in Hi'.
        assert (Hlen : length ws = S index) by lia.
        rewrite last_map_Some in Hlast by (destruct ws; discriminate).
        rewrite Hlen in Hlast. cbn [Nat.sub] in Hlast. rewrite Nat.sub_0_r in Hlast.
        symmetry in Hlast.
        pose proof (split_last_word ws index (opcode, data) Hlen Hlast) as Hsplit.
        rewrite Hsplit in Hwf. apply wf_words_app in Hwf as [Hwf0 Hwf1].
        apply Forall_cons_iff in Hwf1 as [Hw _].
        exists (firstn index ws). split; [assumption|].
        split; [rewrite length_firstn; lia|].
        left. split; [assumption|]. exists post.
        rewrite Hs, Hsplit at 1. rewrite encode_words_app, <- app_assoc.
        cbn [encode_words map concat]. now rewrite app_nil_r.
      * cbn [Nat.add] in Hi'. injection Hlast as <-.
        exists ws. split; [assumption|]. split; [lia|].
        right. exists post. split; assumption.
    + intros (-> & ws & Hwf & Hlen & [(Hw & post & ->) | (tail & Hcut & ->)]).
      * assert (Hwf' : wf_words (ws ++ [(opcode, data)]))
          by (apply wf_words_app; split; [assumption | now constructor]).
        assert (Hk : nth_error (ws ++ [(opcode, data)]) index = Some (opcode, data))
          by (rewrite <- Hlen, nth_error_app2, Nat.sub_diag by lia; reflexivity).
        pose proof (get_word_found _ post index _ Hwf' Hk) as Hg.
        rewrite encode_words_app, <- app_assoc in Hg.
        cbn [encode_words map concat] in Hg. rewrite app_nil_r in Hg. exact Hg.
      * rewrite (get_word_cut ws tail (opcode, data) index Hwf ltac:(lia) Hcut).
        replace (index =? length ws)%nat with true
          by (symmetry; apply Nat.eqb_eq; lia).
        reflexivity.
  - split.
    + unfold get_word.
      destruct (get_word_loop _ script_bin index 0 0 None) as [[i' last']|e] eqn:El;
        cbn [bind];
        [|intros [= ->]; apply get_word_loop_raises in El;
          destruct El as [El|[El|El]]; discriminate El].
      apply get_word_loop_sound in El; [|lia].
      destruct El as (ws & post & Hwf & Hs & Hle & Hcases).
      cbn [skipn] in Hs.
      destruct (Nat.eqb_spec i' (index + 1)) as [Hi|Hi]; cbn [negb].
      * destruct last' as [[o d]|]; [discriminate|].
        exfalso.
        destruct Hcases as [(Hi' & Hlast & _) | (w & _ & _ & Hlast)]; [|discriminate].
        cbn [Nat.add] in Hi'.
        destruct ws as [|w ws]; [cbn in Hi'; lia|].
        rewrite last_map_Some in Hlast by discriminate.
        assert (Hsome : nth_error (w :: ws) (length (w :: ws) - 1) <> None)
          by (apply nth_error_Some; cbn [length]; lia).
        now rewrite <- Hlast in Hsome.
      * intros _. exists ws. split; [assumption|].
        destruct Hcases as [(Hi' & _ & Hpost) | (w & Hcut & Hi' & _)].
        -- cbn [Nat.add] in Hi'. left.
           assert (Hk : (i' <= index)%nat) by lia.
           rewrite (Hpost Hk), app_nil_r in Hs. split; [lia | assumption].
        -- cbn [Nat.add] in Hi'. right. split; [lia|].
           exists post, w. split; assumption.
    + intros (ws & Hwf & [(Hk & ->) | (Hk & tail & w & Hcut & ->)]).
      * now apply get_word_exhausted.
      * rewrite (get_word_cut ws tail w index Hwf ltac:(lia) Hcut).
        replace (index =? length ws)%nat with false
          by (symmetry; apply Nat.eqb_neq; lia).
        reflexivity.
Qed.

(** ** What create commit asks of the host signer *)

Lemma deposit_expire_time_range (script_hex : string) (expire_time : Z) :
  get_deposit_expire_time script_hex = Ok expire_time ->
  validate_deposit_script script_hex true = Ok tt /\ 0 <= expire_time <= 0xFFFF.
Proof.
  intros Ht. split.
  - rewrite validate_deposit_script_flag. unfold get_deposit_expire_time in Ht.
    destruct (validate_deposit_script_shape script_hex) as [[]|] eqn:Es;
      cbn [bind] in *; [|discriminate].
    fold (get_deposit_expire_time script_hex).
    unfold get_deposit_expire_time. rewrite Es. cbn [bind]. now rewrite Ht.
  - unfold get_deposit_expire_time in Ht.
    destruct (validate_deposit_script_shape script_hex) as [[]|];
      cbn [bind] in Ht; [|discriminate].
    destruct (h2b script_hex) as [bin|]; cbn [bind] in Ht; [|discriminate].
    destruct (get_word bin 14) as [[[o d] dis]|]; cbn [bind] in Ht; [|discriminate].
    apply (parse_sequence_value_ok o d dis expire_time) in Ht. apply Ht.
Qed.

(** X17. Create commit on a deposit script whose expire time reads [expire_time]:
    the host signer is entered once, with the payer's key, the script as
    the only pay-to-script-hash script, the spend type create_commit, and a
    registry that starts with the deposit matcher whose template carries
    that same expire time; on the way out the first entry of the registry
    the signer left is removed, and what the signer returned is returned as
    hex whatever its count of bad signatures -- the payee's signature is
    still missing -- or what it raised is raised. *)
Theorem sign_created_commit_runs_signer `{Host}
    (get_txs_func : list string -> list string)
    (payer_wif rawtx deposit_script_hex : string) (w : world)
    (tx : Tx) (expire_time : Z) (deposit_script_bin : bytes) (secret_exponent : Z) :
  load_tx get_txs_func rawtx = Ok tx ->
  get_deposit_expire_time deposit_script_hex = Ok expire_time ->
  h2b deposit_script_hex = Ok deposit_script_bin ->
  key_secret_exponent payer_wif = Ok secret_exponent ->
  sign_created_commit get_txs_func payer_wif rawtx deposit_script_hex w
  = match tx_sign tx (build_hash160_lookup [secret_exponent])
            (Some (build_p2sh_lookup [deposit_script_bin])) create_commit_kwargs
            (DepositScript (deposit_template expire_time) :: SUBCLASSES w) with
    | ([], r) =>
        ({| SUBCLASSES := []; sign_calls := S (sign_calls w) |},
         Raise (ExternalError "IndexError"))
    | (top :: registry, Ok tx') =>
        ({| SUBCLASSES := registry; sign_calls := S (sign_calls w) |}, Ok (as_hex tx'))
    | (top :: registry, Raise e) =>
        ({| SUBCLASSES := registry; sign_calls := S (sign_calls w) |}, Raise e)
    end.
Proof.
  intros Htx Ht Hh Hk.
  destruct (deposit_expire_time_range _ _ Ht) as [Hv Hr].
  unfold sign_created_commit, bindM, lift, ret.
  rewrite Hv, Htx, Ht. unfold _make_lookups. rewrite Hh, Hk. cbn [bind fst snd].
  rewrite (deposit_handler_built expire_time Hr).
  unfold with_handler, registry_insert0, sign. cbn [SUBCLASSES sign_calls].
  fold create_commit_kwargs.
  destruct (tx_sign _ _ _ _ _) as [reg r].
  unfold registry_pop0. cbn [SUBCLASSES sign_calls].
  destruct reg as [|top registry]; [reflexivity|].
  destruct r; reflexivity.
Qed.

Lemma sign_created_commit_runs_signer_witness :
  sign_created_commit (H := sample_host) (fun _ => []) "wif" "00"
    (b2h sample_deposit_script) sample_world
  = ({| SUBCLASSES := SUBCLASSES sample_world; sign_calls := 1 |}, Ok "00").
Proof.
  apply (sign_created_commit_runs_signer (H := sample_host) (fun _ => []) "wif" "00"
           (b2h sample_deposit_script) sample_world
           {| txs_in := [ {| script := [x00] |} ] |} 1000 sample_deposit_script 1).
  - reflexivity.
  - vm_compute. reflexivity.
  - apply h2b_b2h.
  - reflexivity.
Defined.

(** ** The matcher objects *)

(** X22. The deposit matcher built from fields the assembler takes as pushes (12
    to 75 bytes each) and an expire time in [0, 0xFFFF]: its script is the
    compiled deposit script, and the accessors applied to the script give
    back the fields the object holds; this is the spend secret hash
    [solve_change] reads from [self.script]. *)
Theorem deposit_object_consistent (payer_sec payee_sec spend_secret_hash : bytes)
    (expire_time : Z) :
  field_ok payer_sec -> field_ok payee_sec -> field_ok spend_secret_hash ->
  0 <= expire_time <= 0xFFFF ->
  exists self,
    new_AbsDepositScript payer_sec payee_sec (b2h spend_secret_hash) expire_time = Ok self
    /\ dep_script self
       = encode_words (deposit_script_words payer_sec payee_sec spend_secret_hash
                         expire_time)
    /\ get_deposit_payer_pubkey (b2h (dep_script self)) = Ok (b2h (dep_payer_sec self))
    /\ get_deposit_payee_pubkey (b2h (dep_script self)) = Ok (b2h (dep_payee_sec self))
    /\ get_deposit_spend_secret_hash (b2h (dep_script self))
       = Ok (dep_spend_secret_hash self)
    /\ get_deposit_expire_time (b2h (dep_script self)) = Ok (dep_expire_time self).
Proof.
  intros Ha Hb Hc Ht. eexists. split.
  - unfold new_AbsDepositScript.
    rewrite (deposit_compiled _ _ _ _ Ha Hb Hc Ht). cbn [bind].
    rewrite h2b_b2h. cbn [bind]. reflexivity.
  - cbn [dep_script dep_payer_sec dep_payee_sec dep_spend_secret_hash dep_expire_time].
    split; [reflexivity|].
    split; [exact (deposit_payer_pubkey _ _ _ _ Ha Hb Hc Ht)|].
    split; [exact (deposit_payee_pubkey _ _ _ _ Ha Hb Hc Ht)|].
    split; [exact (deposit_spend_secret_hash _ _ _ _ Ha Hb Hc Ht)|].
    exact (deposit_expire_time _ _ _ _ Ha Hb Hc Ht).
Qed.

Lemma deposit_object_consistent_witness :
  exists self,
    new_AbsDepositScript sample_pubkey_a sample_pubkey_b (b2h sample_hash_s) 1000 = Ok self
    /\ dep_script self
       = encode_words (deposit_script_words sample_pubkey_a sample_pubkey_b
                         sample_hash_s 1000)
    /\ get_deposit_payer_pubkey (b2h (dep_script self)) = Ok (b2h (dep_payer_sec self))
    /\ get_deposit_payee_pubkey (b2h (dep_script self)) = Ok (b2h (dep_payee_sec self))
    /\ get_deposit_spend_secret_hash (b2h (dep_script self))
       = Ok (dep_spend_secret_hash self)
    /\ get_deposit_expire_time (b2h (dep_script self)) = Ok (dep_expire_time self).
Proof.
  apply (deposit_object_consistent sample_pubkey_a sample_pubkey_b sample_hash_s 1000);
    first [lia | (unfold field_ok; cbn; lia)].
Defined.

(** X23. The commit matcher built from fields the assembler takes as pushes (12
    to 75 bytes each) and a delay time in [0, 0xFFFF]: its script is the
    compiled commit script, and the accessors applied to the script give
    back the fields the object holds. *)
Theorem commit_object_consistent
    (payer_sec payee_sec spend_secret_hash revoke_secret_hash : bytes)
    (delay_time : Z) :
  field_ok payer_sec -> field_ok payee_sec -> field_ok spend_secret_hash ->
  field_ok revoke_secret_hash -> 0 <= delay_time <= 0xFFFF ->
  exists self,
    new_AbsCommitScript delay_time (b2h spend_secret_hash) payee_sec payer_sec
      (b2h revoke_secret_hash) = Ok self
    /\ com_script self
       = encode_words (commit_script_words payer_sec payee_sec spend_secret_hash
                         revoke_secret_hash delay_time)
    /\ get_commit_payer_pubkey (b2h (com_script self)) = Ok (b2h (com_payer_sec self))
    /\ get_commit_payee_pubkey (b2h (com_script self)) = Ok (b2h (com_payee_sec self))
    /\ get_commit_spend_secret_hash (b2h (com_script self))
       = Ok (com_spend_secret_hash self)
    /\ get_commit_revoke_secret_hash (b2h (com_script self))
       = Ok (com_revoke_secret_hash self)
    /\ get_commit_delay_time (b2h (com_script self)) = Ok (com_delay_time self).
Proof.
  intros Ha Hb Hc Hr Ht. eexists. split.
  - unfold new_AbsCommitScript.
    rewrite (commit_compiled _ _ _ _ _ Ha Hb Hc Hr Ht). cbn [bind].
    rewrite h2b_b2h. cbn [bind]. reflexivity.
  - cbn [com_script com_payer_sec com_payee_sec com_spend_secret_hash
         com_revoke_secret_hash com_delay_time].
    split; [reflexivity|].
    split; [exact (commit_payer_pubkey _ _ _ _ _ Ha Hb Hc Hr Ht)|].
    split; [exact (commit_payee_pubkey _ _ _ _ _ Ha Hb Hc Hr Ht)|].
    split; [exact (commit_spend_secret_hash _ _ _ _ _ Ha Hb Hc Hr Ht)|].
    split; [exact (commit_revoke_secret_hash _ _ _ _ _ Ha Hb Hc Hr Ht)|].
    exact (commit_delay_time _ _ _ _ _ Ha Hb Hc Hr Ht).
Qed.

Lemma commit_object_consistent_witness :
  exists self,
    new_AbsCommitScript 7 (b2h sample_hash_s) sample_pubkey_b sample_pubkey_a
      (b2h sample_hash_r) = Ok self
    /\ com_script self
       = encode_words (commit_script_words sample_pubkey_a sample_pubkey_b sample_hash_s
                         sample_hash_r 7)
    /\ get_commit_payer_pubkey (b2h (com_script self)) = Ok (b2h (com_payer_sec self))
    /\ get_commit_payee_pubkey (b2h (com_script self)) = Ok (b2h (com_payee_sec self))
    /\ get_commit_spend_secret_hash (b2h (com_script self))
       = Ok (com_spend_secret_hash self)
    /\ get_commit_revoke_secret_hash (b2h (com_script self))
       = Ok (com_revoke_secret_hash self)
    /\ get_commit_delay_time (b2h (com_script self)) = Ok (com_delay_time self).
Proof.
  apply (commit_object_consistent sample_pubkey_a sample_pubkey_b sample_hash_s
           sample_hash_r 7);
    first [lia | (unfold field_ok; cbn; lia)].
Defined.
